(** * Keithley 2400 voltage-sweep scripts: a shallow embedding

    The two scripts of the repository,

      - [KeithleyIVSweep_Mobile_V1.1.py]  (one instrument, module [IV]),
      - [KeithleyPVSweep_Mobile_V1.py]    (two instruments, module [PV]),

    are embedded as programs of a small monad that threads the counters of
    the environment's answers, collects the observable events in the order
    in which the script causes them, and stops at the first exception.

    Numbers: the scripts compute with Python numbers.  They are read here at
    their exact value, as rationals [Q]; the rounding of binary64 arithmetic
    is outside the model.  The text that Python's [str] gives a number in an
    f-string field without a format spec is not modelled either: such a
    command keeps its literal prefix and the value of the field. *)

From Stdlib Require Import ZArith QArith Qround Qabs Qpower String Ascii List
  Lia Lqa Bool.
Import ListNotations.

Open Scope list_scope.
Open Scope string_scope.

(** ** Characters that cannot be typed inside a string literal *)

Definition dquote : string := String "034"%char EmptyString.
Definition tab : string := String "009"%char EmptyString.
Definition newline : string := String "010"%char EmptyString.

(** ** Python numbers *)

Module Py.

(** [int(x)] on a number: truncation toward zero. *)
Definition int (x : Q) : Z := Z.quot (Qnum x) (Z.pos (Qden x)).

(** [int(x) == x]: Python compares the integer with the number by value. *)
Definition is_whole (x : Q) : bool := Qeq_bool (inject_Z (int x)) x.

(** Rounding of a non-negative rational to the nearest integer, ties to the
    even neighbour: the rounding of Python's [format]. *)
Definition round_half_even (x : Q) : Z :=
  let n := Qnum x in
  let d := Z.pos (Qden x) in
  let f := (n / d)%Z in
  match (2 * (n mod d) ?= d)%Z with
  | Lt => f
  | Gt => (f + 1)%Z
  | Eq => if Z.even f then f else (f + 1)%Z
  end.

Definition digit (d : Z) : ascii := ascii_of_nat (48 + Z.to_nat d).

(** The [width] lowest decimal digits of [n], most significant first. *)
Fixpoint fixed_digits (width : nat) (n : Z) : string :=
  match width with
  | O => EmptyString
  | S w => fixed_digits w (n / 10) ++ String (digit (n mod 10)) EmptyString
  end.

(** Number of decimal digits of [n] (one for [n <= 9]). *)
Fixpoint count_digits (fuel : nat) (n : Z) : nat :=
  match fuel with
  | O => 1
  | S f => if (n <? 10)%Z then 1 else S (count_digits f (n / 10))
  end.

Definition num_digits (n : Z) : nat := count_digits (Z.to_nat (Z.log2 n)) n.

(** Decimal text of a non-negative integer, without leading zeros. *)
Definition decimal (n : Z) : string := fixed_digits (num_digits n) n.

Definition pow10 (k : nat) : Z := (10 ^ Z.of_nat k)%Z.

Definition sign_text (x : Q) : string :=
  if Qlt_le_dec x 0 then "-" else "".

(** [f'{x:.<prec>f}'] *)
Definition format_f (prec : nat) (x : Q) : string :=
  let scaled := round_half_even (Qabs x * inject_Z (pow10 prec)) in
  sign_text x ++ decimal (scaled / pow10 prec)
    ++ match prec with
       | O => ""
       | S _ => "." ++ fixed_digits prec (scaled mod pow10 prec)
       end.

(** Power of ten as a rational, for any integer exponent. *)
Definition qpow10 (e : Z) : Q :=
  match e with
  | Z0 => 1
  | Z.pos p => inject_Z (10 ^ Z.pos p)
  | Z.neg p => / inject_Z (10 ^ Z.pos p)
  end.

(** For [0 < x < 1]: the least [k >= 1] with [1 <= x * 10^k], searched from
    [k] upward. *)
Fixpoint first_unit (fuel : nat) (x : Q) (k : Z) : Z :=
  match fuel with
  | O => k
  | S f => if Qle_bool 1 (x * qpow10 k) then k else first_unit f x (k + 1)
  end.

(** Decimal exponent of [x > 0]: the [e] with [10^e <= x < 10^(e+1)]. *)
Definition exponent10 (x : Q) : Z :=
  if Qle_bool 1 x
  then Z.of_nat (num_digits (Qfloor x)) - 1
  else - first_unit (S (Z.to_nat (Z.log2 (Z.pos (Qden x))))) x 1.

(** Exponent field of [e] notation: a sign and at least two digits. *)
Definition exponent_text (e : Z) : string :=
  (if (e <? 0)%Z then "-" else "+")
    ++ (if (Z.abs e <? 10)%Z then "0" else "") ++ decimal (Z.abs e).

(** Mantissa, as an integer of [prec + 1] digits, and exponent of [x]. *)
Definition sci_parts (prec : nat) (x : Q) : Z * Z :=
  if Qeq_bool x 0 then (0%Z, 0%Z)
  else
    let a := Qabs x in
    let e := exponent10 a in
    let m := round_half_even (a * qpow10 (Z.of_nat prec - e)) in
    if (pow10 (S prec) <=? m)%Z then (pow10 prec, (e + 1)%Z) else (m, e).

(** [f'{x:.<prec>e}'] *)
Definition format_e (prec : nat) (x : Q) : string :=
  let '(m, e) := sci_parts prec x in
  sign_text x ++ String (digit (m / pow10 prec)) EmptyString
    ++ match prec with
       | O => ""
       | S _ => "." ++ fixed_digits prec (m mod pow10 prec)
       end
    ++ "e" ++ exponent_text e.

End Py.

(** ** Exceptions, events and the environment *)

(** An instrument handle is identified by the resource address it was
    opened with. *)
Definition instrument := string.

Inductive exn : Type :=
| VisaIOError (status : Z)     (* raised by the instrument transport *)
| IndexError                   (* list index out of range *)
| ZeroDivisionError
| OSError (errno : Z).         (* raised by [open] *)

Inductive outcome (A : Type) : Type :=
| Ok (a : A)
| Raise (e : exn).

Arguments Ok {A} a.
Arguments Raise {A} e.

(** A command string: a literal, or an f-string made of a literal prefix
    and one field printed with [str]. *)
Inductive scpi : Type :=
| Literal (text : string)
| FString (prefix : string) (value : Q).

(** What the script does to the world, with the world's answer. *)
Inductive event : Type :=
| EOpenResource (name : instrument) (r : outcome unit)
| EWrite (k : instrument) (c : scpi) (r : outcome unit)
| EQuery (k : instrument) (c : scpi) (r : outcome string)
| EQueryAscii (k : instrument) (c : scpi) (r : outcome (list Q))
| EClose (k : instrument)
| ESleep (seconds : Q)
| ETime (now : Q)
| EPrint (line : string)
| EInput (prompt : string) (line : string)
| EFileOpen (directory filename : string) (r : outcome unit)
| EFileWrite (text : string)
| EFileClose
| EPlot (label : string) (xs ys : list Q).

(** An answer of the instrument transport: a value, or a failure of the bus
    with its status code, which the transport raises as [VisaIOError]. *)
Inductive answer (A : Type) : Type :=
| Reply (a : A)
| BusError (status : Z).

Arguments Reply {A} a.
Arguments BusError {A} status.

Definition raised {A} (r : answer A) : outcome A :=
  match r with
  | Reply a => Ok a
  | BusError status => Raise (VisaIOError status)
  end.

(** The answers of the world.  Bus operations (write, query) are numbered
    in the order the script issues them, and so are the readings of the
    clock.  [open_reply] is the error number of a failed [open], if any. *)
Record env : Type := mkEnv {
  list_resources : string;
  open_resource_reply : instrument -> answer unit;
  write_reply : nat -> answer unit;
  query_reply : nat -> answer string;
  ascii_reply : nat -> answer (list Q);
  clock : nat -> Q;
  input_reply : string;
  open_reply : option Z
}.

Record counters : Type := mkCounters {
  bus_ops : nat;
  clock_reads : nat
}.

Definition next_bus (s : counters) : counters :=
  mkCounters (S (bus_ops s)) (clock_reads s).

Definition next_clock (s : counters) : counters :=
  mkCounters (bus_ops s) (S (clock_reads s)).

(** ** The monad of scripts *)

Definition M (A : Type) : Type :=
  env -> counters -> outcome A * list event * counters.

Definition run {A} (m : M A) (en : env) (s : counters) := m en s.

Definition ret {A} (a : A) : M A := fun _ s => (Ok a, [], s).

Definition raise {A} (e : exn) : M A := fun _ s => (Raise e, [], s).

Definition bind {A B} (m : M A) (f : A -> M B) : M B :=
  fun en s =>
    match m en s with
    | (Ok a, evs, s1) =>
        match f a en s1 with
        | (r, evs', s2) => (r, (evs ++ evs')%list, s2)
        end
    | (Raise e, evs, s1) => (Raise e, evs, s1)
    end.

Declare Scope script_scope.
Delimit Scope script_scope with script.
Notation "x <- m ;; k" := (bind m (fun x => k))
  (at level 61, m at next level, right associativity) : script_scope.
Notation "' pat <- m ;; k" :=
  (bind m (fun x => match x with pat => k end))
  (at level 61, pat pattern, m at next level, right associativity)
  : script_scope.
Notation "m ;; k" := (bind m (fun _ => k))
  (at level 61, right associativity) : script_scope.
Open Scope script_scope.

(** Lift an answer of the world into a script step. *)
Definition answered {A} (r : outcome A) (ev : event) (s' : counters)
  : outcome A * list event * counters := (r, [ev], s').

(** [k.write(c)] *)
Definition write (k : instrument) (c : scpi) : M unit :=
  fun en s =>
    let r := raised (write_reply en (bus_ops s)) in
    answered r (EWrite k c r) (next_bus s).

(** [k.query(c)] *)
Definition query (k : instrument) (c : scpi) : M string :=
  fun en s =>
    let r := raised (query_reply en (bus_ops s)) in
    answered r (EQuery k c r) (next_bus s).

(** [k.query_ascii_values(c)] *)
Definition query_ascii_values (k : instrument) (c : scpi) : M (list Q) :=
  fun en s =>
    let r := raised (ascii_reply en (bus_ops s)) in
    answered r (EQueryAscii k c r) (next_bus s).

(** [rm.open_resource(name)] followed by the two termination settings. *)
Definition open_resource (name : instrument) : M instrument :=
  fun en s =>
    match raised (open_resource_reply en name) with
    | Ok _ => (Ok name, [EOpenResource name (Ok tt)], s)
    | Raise e => (Raise e, [EOpenResource name (Raise e)], s)
    end.

(** [k.close()] *)
Definition close (k : instrument) : M unit :=
  fun _ s => (Ok tt, [EClose k], s).

(** [time.time()] *)
Definition time_time : M Q :=
  fun en s =>
    let now := clock en (clock_reads s) in
    (Ok now, [ETime now], next_clock s).

(** [time.sleep(seconds)] *)
Definition time_sleep (seconds : Q) : M unit :=
  fun _ s => (Ok tt, [ESleep seconds], s).

(** [print(line)] *)
Definition print (line : string) : M unit :=
  fun _ s => (Ok tt, [EPrint line], s).

(** [input(prompt)] *)
Definition input (prompt : string) : M string :=
  fun en s => (Ok (input_reply en), [EInput prompt (input_reply en)], s).

(** [f.write(text)] on the open file. *)
Definition f_write (text : string) : M unit :=
  fun _ s => (Ok tt, [EFileWrite text], s).

(** [with open(os.path.join(directory, filename), 'w') as f: body]: the file
    is closed on every way out of the body. *)
Definition with_open {A} (directory filename : string) (body : M A) : M A :=
  fun en s =>
    match open_reply en with
    | Some errno =>
        (Raise (OSError errno),
         [EFileOpen directory filename (Raise (OSError errno))], s)
    | None =>
        match body en s with
        | (r, evs, s') =>
            (r, (EFileOpen directory filename (Ok tt) :: evs ++ [EFileClose])%list,
             s')
        end
    end.

(** [xs[i]] *)
Definition index {A} (xs : list A) (i : nat) : M A :=
  match nth_error xs i with
  | Some x => ret x
  | None => raise IndexError
  end.

(** [for i in range(...)]: [n] rounds from index [i], threading the
    variables the body assigns. *)
Fixpoint for_range {V} (n : nat) (i : Z) (body : Z -> V -> M V) (s : V)
  : M V :=
  match n with
  | O => ret s
  | S n' => s' <- body i s ;; for_range n' (i + 1) body s'
  end.

(** [range(points)] is empty for [points <= 0]. *)
Definition range_len (points : Z) : nat := Z.to_nat points.

(** [int((Vmax - Vmin) / step_size) + 1]; the division raises on a zero
    divisor. *)
Definition count_points (Vmin Vmax step_size : Q) : M Z :=
  if Qeq_bool step_size 0 then raise ZeroDivisionError
  else ret (Py.int ((Vmax - Vmin) / step_size) + 1)%Z.

(** ** KeithleyIVSweep_Mobile_V1.1.py *)

Module IV.

(** The four data holders of the sweep, filled side by side. *)
Record series : Type := mkSeries {
  t_values : list Q;
  voltage_values : list Q;
  current_values : list Q;
  power_values : list Q
}.

Definition no_data : series := mkSeries [] [] [] [].

Definition initialize_Keithley : M instrument :=
  print "----------RESOURCES-------------" ;;
  (fun en => print (list_resources en) en) ;;
  print newline ;;
  k2400 <- open_resource "GPIB0::12::INSTR" ;;
  print "----------INSTRUMENT-------------" ;;
  idn <- query k2400 (Literal "*IDN?") ;;
  print idn ;;
  print newline ;;
  write k2400 (Literal "*rst; status:preset;") ;;
  write k2400 (Literal ":SOUR:FUNC VOLT") ;;
  write k2400 (Literal ":SOUR:VOLT 0") ;;
  write k2400 (Literal ":SENS:CURR:PROT 150E-3") ;;
  write k2400 (Literal ":SENS:CURR:RANG:AUTO ON") ;;
  write k2400 (Literal (":SENS:FUNC " ++ dquote ++ "CURR" ++ dquote)) ;;
  ret k2400.

Definition params : Type := (Q * Q * Q * Q * instrument)%type.

Definition progress_line (voltage current : Q) : string :=
  "Voltage: " ++ Py.format_f 2 voltage ++ " V, Current: "
    ++ Py.format_e 6 current ++ " A".

(** One round of the [for] loop of the sweep (lines 68 to 87). *)
Definition step (Vmin step_size : Q) (Keithley : instrument) (start_time : Q)
    (i : Z) (d : series) : M series :=
  let voltage := (Vmin + inject_Z i * step_size)%Q in
  write Keithley (FString ":SOUR:VOLT " voltage) ;;
  time_sleep (5 # 100) ;;
  now <- time_time ;;
  let t := (now - start_time)%Q in
  reading <- query_ascii_values Keithley (Literal ":READ?") ;;
  current <- index reading 1 ;;
  let power := (voltage * current)%Q in
  let d' := mkSeries (t_values d ++ [t])%list
                     (voltage_values d ++ [voltage])%list
                     (current_values d ++ [current])%list
                     (power_values d ++ [power])%list in
  (if Py.is_whole voltage then print (progress_line voltage current)
   else ret tt) ;;
  ret d'.

(** Lines 54 to 66: the number of points, the data holders, output on and
    the start of the clock. *)
Definition start_sweep (p : params) : M (Z * Q) :=
  let '(Vmin, Vmax, step_size, compliance_current, Keithley) := p in
  points <- count_points Vmin Vmax step_size ;;
  write Keithley (Literal ":OUTP ON") ;;
  start_time <- time_time ;;
  ret (points, start_time).

(** Lines 67 to 87: the loop over the voltage range. *)
Definition stepping (p : params) (points : Z) (start_time : Q) : M series :=
  let '(Vmin, Vmax, step_size, compliance_current, Keithley) := p in
  for_range (range_len points) 0 (step Vmin step_size Keithley start_time)
            no_data.

(** Lines 89 to 93: back to 0 V, output off. *)
Definition shutdown (p : params) : M unit :=
  let '(Vmin, Vmax, step_size, compliance_current, Keithley) := p in
  write Keithley (Literal ":SOUR:VOLT 0") ;;
  write Keithley (Literal ":OUTP OFF").

(** Lines 50 to 93: everything the function does with the instrument. *)
Definition acquire (p : params) : M (Z * series) :=
  '(points, start_time) <- start_sweep p ;;
  d <- stepping p points start_time ;;
  shutdown p ;;
  ret (points, d).

Definition directory : string := "C:\semspace\Saved GC Data".

Definition banner : string :=
  "*! Laptop Compatible " ++ dquote ++ "Mobile" ++ dquote
    ++ " Version of QKeithleyControlMaster" ++ newline.

Definition header : string :=
  "t" ++ tab ++ tab ++ "V" ++ tab ++ tab ++ "I" ++ tab ++ tab ++ "P"
    ++ newline.

(** The text of data line [i] (line 116). *)
Definition data_line (d : series) (i : Z) : M string :=
  t <- index (t_values d) (Z.to_nat i) ;;
  v <- index (voltage_values d) (Z.to_nat i) ;;
  c <- index (current_values d) (Z.to_nat i) ;;
  p <- index (power_values d) (Z.to_nat i) ;;
  ret (Py.format_f 6 t ++ tab ++ Py.format_f 2 v ++ tab
         ++ Py.format_e 6 c ++ tab ++ Py.format_e 6 p ++ newline).

(** Lines 95 to 118: the file of the sweep. *)
Definition save (points : Z) (d : series) : M unit :=
  filename <- input "Enter filename: " ;;
  let filename := filename ++ ".txt" in
  with_open directory filename
    (f_write banner ;;
     f_write ("*! Project = Fill project details here" ++ newline) ;;
     f_write ("#! Fluence / Dose / Condition = Fill measurement details here"
                ++ newline) ;;
     f_write ("#! Type = iv-sweep" ++ newline) ;;
     f_write newline ;;
     f_write header ;;
     for_range (range_len points) 0
       (fun i _ => line <- data_line d i ;; f_write line) tt) ;;
  print "Data saved successfully.".

(** Lines 120 to 130: the curve. *)
Definition plot (d : series) : M unit :=
  fun _ s =>
    (Ok tt, [EPlot "I-V Curve" (voltage_values d)
               (map Qabs (current_values d))], s).

Definition Keithley_VOLTAGE_SWEEP (p : params) : M unit :=
  '(points, d) <- acquire p ;;
  save points d ;;
  plot d.

(** The parameters at the foot of the script. *)
Definition Vmin : Q := -2.
Definition Vmax : Q := 2.
Definition step_size : Q := 1 # 10.
Definition compliance_current : Q := 10 # 100.

Definition main : M unit :=
  Keithley <- initialize_Keithley ;;
  let sweep_params := (Vmin, Vmax, step_size, compliance_current, Keithley) in
  Keithley_VOLTAGE_SWEEP sweep_params ;;
  close Keithley.

(** A sample point: the entries of one index of the four data holders. *)
Record sample_point : Type := mkPoint {
  at_t : Q;
  at_V : Q;
  at_I : Q;
  at_P : Q
}.

Definition sample_at (d : series) (i : nat) : option sample_point :=
  match nth_error (t_values d) i, nth_error (voltage_values d) i,
        nth_error (current_values d) i, nth_error (power_values d) i with
  | Some t, Some v, Some c, Some p => Some (mkPoint t v c p)
  | _, _, _, _ => None
  end.

Definition samples_between (d : series) (from count : nat)
  : list sample_point :=
  flat_map (fun i => match sample_at d i with Some p => [p] | None => [] end)
           (seq from count).

(** The sample points of a series, in the order they were recorded. *)
Definition samples (d : series) : list sample_point :=
  samples_between d 0 (length (t_values d)).

(** The row of a sample point as the file format describes it: [t] with six
    decimal places, [V] with two, [I] and [P] in scientific notation with
    six decimal digits, separated by tabs. *)
Definition row_text (p : sample_point) : string :=
  Py.format_f 6 (at_t p) ++ tab ++ Py.format_f 2 (at_V p) ++ tab
    ++ Py.format_e 6 (at_I p) ++ tab ++ Py.format_e 6 (at_P p) ++ newline.

(** The lines before the rows. *)
Definition preamble : list string :=
  [banner;
   "*! Project = Fill project details here" ++ newline;
   "#! Fluence / Dose / Condition = Fill measurement details here" ++ newline;
   "#! Type = iv-sweep" ++ newline;
   newline;
   header].

End IV.

(** ** KeithleyPVSweep_Mobile_V1.py *)

Module PV.

(** The eight data holders of the sweep, filled side by side. *)
Record series : Type := mkSeries {
  t_values : list Q;
  voltage_values : list Q;
  current_values : list Q;
  power_values : list Q;
  voltage_1_values : list Q;
  current_1_values : list Q;
  power_1_values : list Q;
  power_2_values : list Q
}.

Definition no_data : series := mkSeries [] [] [] [] [] [] [] [].

Definition initialize_Keithley (resource_name : string)
    (compliance_current : Q) : M instrument :=
  print "----------RESOURCES-------------" ;;
  (fun en => print (list_resources en) en) ;;
  print newline ;;
  k2400 <- open_resource resource_name ;;
  print "----------INSTRUMENT-------------" ;;
  idn <- query k2400 (Literal "*IDN?") ;;
  print idn ;;
  print newline ;;
  write k2400 (Literal "*rst; status:preset;") ;;
  write k2400 (Literal ":SOUR:FUNC VOLT") ;;
  write k2400 (Literal ":SOUR:VOLT 0") ;;
  write k2400 (FString ":SENS:CURR:PROT " compliance_current) ;;
  write k2400 (Literal ":SENS:CURR:RANG:AUTO ON") ;;
  write k2400 (Literal (":SENS:FUNC " ++ dquote ++ "CURR" ++ dquote)) ;;
  ret k2400.

Definition params : Type :=
  (Q * Q * Q * Q * instrument * instrument * Q * Q)%type.

Definition progress_line (voltage current_1 : Q) : string :=
  "Voltage: " ++ Py.format_f 2 voltage ++ " V, Current: "
    ++ Py.format_e 6 current_1 ++ " A".

(** One round of the [for] loop of the sweep (lines 77 to 108). *)
Definition step (Vmin step_size : Q)
    (Volt_Supp_Instr Curr_Read_Instr : instrument) (start_time : Q)
    (i : Z) (d : series) : M series :=
  let voltage := (Vmin + inject_Z i * step_size)%Q in
  write Volt_Supp_Instr (FString ":SOUR:VOLT " voltage) ;;
  time_sleep (5 # 100) ;;
  now <- time_time ;;
  let t := (now - start_time)%Q in
  reading <- query_ascii_values Volt_Supp_Instr (Literal ":READ?") ;;
  current <- index reading 1 ;;
  let power := (voltage * current)%Q in
  reading_1 <- query_ascii_values Curr_Read_Instr (Literal ":READ?") ;;
  voltage_1 <- index reading_1 0 ;;
  reading_2 <- query_ascii_values Curr_Read_Instr (Literal ":READ?") ;;
  current_1 <- index reading_2 1 ;;
  let power_1 := (voltage_1 * current_1)%Q in
  let power_2 := (voltage * current_1)%Q in
  let d' := mkSeries (t_values d ++ [t])%list
                     (voltage_values d ++ [voltage])%list
                     (current_values d ++ [current])%list
                     (power_values d ++ [power])%list
                     (voltage_1_values d ++ [voltage_1])%list
                     (current_1_values d ++ [current_1])%list
                     (power_1_values d ++ [power_1])%list
                     (power_2_values d ++ [power_2])%list in
  (if Py.is_whole voltage then print (progress_line voltage current_1)
   else ret tt) ;;
  ret d'.

(** Lines 54 to 75: the number of points, the data holders, output on for
    both instruments, the static bias and compliance of the second one, and
    the start of the clock. *)
Definition start_sweep (p : params) : M (Z * Q) :=
  let '(Vmin, Vmax, step_size, compliance_current, Volt_Supp_Instr,
        Curr_Read_Instr, read_bias, compliance_read) := p in
  points <- count_points Vmin Vmax step_size ;;
  write Volt_Supp_Instr (Literal ":OUTP ON") ;;
  write Curr_Read_Instr (Literal ":OUTP ON") ;;
  write Curr_Read_Instr (FString ":SOUR:VOLT " read_bias) ;;
  write Curr_Read_Instr (FString ":SENS:CURR:PROT " compliance_read) ;;
  start_time <- time_time ;;
  ret (points, start_time).

(** Lines 76 to 108: the loop over the voltage range. *)
Definition stepping (p : params) (points : Z) (start_time : Q) : M series :=
  let '(Vmin, Vmax, step_size, compliance_current, Volt_Supp_Instr,
        Curr_Read_Instr, read_bias, compliance_read) := p in
  for_range (range_len points) 0
            (step Vmin step_size Volt_Supp_Instr Curr_Read_Instr start_time)
            no_data.

(** Lines 110 to 116: both instruments back to 0 V, then both outputs off. *)
Definition shutdown (p : params) : M unit :=
  let '(Vmin, Vmax, step_size, compliance_current, Volt_Supp_Instr,
        Curr_Read_Instr, read_bias, compliance_read) := p in
  write Volt_Supp_Instr (Literal ":SOUR:VOLT 0") ;;
  write Curr_Read_Instr (Literal ":SOUR:VOLT 0") ;;
  write Volt_Supp_Instr (Literal ":OUTP OFF") ;;
  write Curr_Read_Instr (Literal ":OUTP OFF").

(** Lines 50 to 116: everything the function does with the instruments. *)
Definition acquire (p : params) : M (Z * series) :=
  '(points, start_time) <- start_sweep p ;;
  d <- stepping p points start_time ;;
  shutdown p ;;
  ret (points, d).

Definition directory : string := "C:\semspace\Saved GC Data".

Definition banner : string :=
  "*! Laptop Compatible " ++ dquote ++ "Mobile" ++ dquote
    ++ " Version of QKeithleyControlMaster" ++ newline.

Definition header : string :=
  "t" ++ tab ++ tab ++ "V" ++ tab ++ tab ++ "I" ++ tab ++ tab ++ "P"
    ++ tab ++ tab ++ "V1" ++ tab ++ tab ++ "I1" ++ tab ++ tab ++ "P1"
    ++ tab ++ tab ++ "P2" ++ newline.

(** The text of data line [i] (lines 139 and 140). *)
Definition data_line (d : series) (i : Z) : M string :=
  t <- index (t_values d) (Z.to_nat i) ;;
  v <- index (voltage_values d) (Z.to_nat i) ;;
  c <- index (current_values d) (Z.to_nat i) ;;
  p <- index (power_values d) (Z.to_nat i) ;;
  v1 <- index (voltage_1_values d) (Z.to_nat i) ;;
  c1 <- index (current_1_values d) (Z.to_nat i) ;;
  p1 <- index (power_1_values d) (Z.to_nat i) ;;
  p2 <- index (power_2_values d) (Z.to_nat i) ;;
  ret (Py.format_f 6 t ++ tab ++ Py.format_f 2 v ++ tab
         ++ Py.format_e 6 c ++ tab ++ Py.format_e 6 p ++ tab
         ++ Py.format_f 2 v1 ++ tab ++ Py.format_e 6 c1 ++ tab
         ++ Py.format_e 6 p1 ++ tab ++ Py.format_e 6 p2 ++ newline).

(** Lines 118 to 142: the file of the sweep. *)
Definition save (points : Z) (d : series) : M unit :=
  filename <- input "Enter filename: " ;;
  let filename := filename ++ ".txt" in
  with_open directory filename
    (f_write banner ;;
     f_write ("*! Project = Fill project details here" ++ newline) ;;
     f_write ("#! Fluence / Dose / Condition = Fill measurement details here"
                ++ newline) ;;
     f_write ("#! Type = pv-sweep" ++ newline) ;;
     f_write newline ;;
     f_write header ;;
     for_range (range_len points) 0
       (fun i _ => line <- data_line d i ;; f_write line) tt) ;;
  print "Data saved successfully.".

(** Lines 144 to 154: the curve; [resource_name] is the address the handle
    was opened with. *)
Definition plot (Volt_Supp_Instr Curr_Read_Instr : instrument) (d : series)
  : M unit :=
  fun _ s =>
    (Ok tt, [EPlot ("V-I Curve (" ++ Volt_Supp_Instr ++ " vs. "
                      ++ Curr_Read_Instr ++ ")")
               (voltage_values d) (map Qabs (current_1_values d))], s).

Definition Keithley_VOLTAGE_SWEEP (p : params) : M unit :=
  '(points, d) <- acquire p ;;
  save points d ;;
  let '(_, _, _, _, Volt_Supp_Instr, Curr_Read_Instr, _, _) := p in
  plot Volt_Supp_Instr Curr_Read_Instr d.

(** The parameters at the foot of the script. *)
Definition Vmin : Q := 0.
Definition Vmax : Q := 12.
Definition step_size : Q := 1 # 10.
Definition compliance_current : Q := 35 # 100.
Definition read_bias : Q := 0.
Definition compliance_read : Q := 1 # 10.

Definition main : M unit :=
  Volt_Supp_Instr <- initialize_Keithley "GPIB0::16::INSTR" compliance_current ;;
  Curr_Read_Instr <- initialize_Keithley "GPIB0::14::INSTR" compliance_read ;;
  let sweep_params :=
    (Vmin, Vmax, step_size, compliance_current, Volt_Supp_Instr,
     Curr_Read_Instr, read_bias, compliance_read) in
  Keithley_VOLTAGE_SWEEP sweep_params ;;
  close Volt_Supp_Instr ;;
  close Curr_Read_Instr.

(** A sample point: the entries of one index of the eight data holders. *)
Record sample_point : Type := mkPoint {
  at_t : Q;
  at_V : Q;
  at_I : Q;
  at_P : Q;
  at_V1 : Q;
  at_I1 : Q;
  at_P1 : Q;
  at_P2 : Q
}.

Definition sample_at (d : series) (i : nat) : option sample_point :=
  match nth_error (t_values d) i, nth_error (voltage_values d) i,
        nth_error (current_values d) i, nth_error (power_values d) i,
        nth_error (voltage_1_values d) i, nth_error (current_1_values d) i,
        nth_error (power_1_values d) i, nth_error (power_2_values d) i with
  | Some t, Some v, Some c, Some p, Some v1, Some c1, Some p1, Some p2 =>
      Some (mkPoint t v c p v1 c1 p1 p2)
  | _, _, _, _, _, _, _, _ => None
  end.

Definition samples_between (d : series) (from count : nat)
  : list sample_point :=
  flat_map (fun i => match sample_at d i with Some p => [p] | None => [] end)
           (seq from count).

(** The sample points of a series, in the order they were recorded. *)
Definition samples (d : series) : list sample_point :=
  samples_between d 0 (length (t_values d)).

(** All eight data holders of [d] have at least [n] entries. *)
Definition filled (d : series) (n : nat) : Prop :=
  (n <= length (t_values d))%nat
  /\ (n <= length (voltage_values d))%nat
  /\ (n <= length (current_values d))%nat
  /\ (n <= length (power_values d))%nat
  /\ (n <= length (voltage_1_values d))%nat
  /\ (n <= length (current_1_values d))%nat
  /\ (n <= length (power_1_values d))%nat
  /\ (n <= length (power_2_values d))%nat.

(** The row of a sample point as the file format describes it: [t] with six
    decimal places, [V] and [V1] with two, the currents and powers in
    scientific notation with six decimal digits, separated by tabs. *)
Definition row_text (p : sample_point) : string :=
  Py.format_f 6 (at_t p) ++ tab ++ Py.format_f 2 (at_V p) ++ tab
    ++ Py.format_e 6 (at_I p) ++ tab ++ Py.format_e 6 (at_P p) ++ tab
    ++ Py.format_f 2 (at_V1 p) ++ tab ++ Py.format_e 6 (at_I1 p) ++ tab
    ++ Py.format_e 6 (at_P1 p) ++ tab ++ Py.format_e 6 (at_P2 p) ++ newline.

(** The lines before the rows. *)
Definition preamble : list string :=
  [banner;
   "*! Project = Fill project details here" ++ newline;
   "#! Fluence / Dose / Condition = Fill measurement details here" ++ newline;
   "#! Type = pv-sweep" ++ newline;
   newline;
   header].

End PV.

(** * Reading event lists *)

(** A bus operation: a command written to, or a query of, an instrument. *)
Definition is_bus (ev : event) : bool :=
  match ev with
  | EWrite _ _ _ | EQuery _ _ _ | EQueryAscii _ _ _ => true
  | _ => false
  end.

(** A bus operation addressed to instrument [k]. *)
Definition addressed (k : instrument) (ev : event) : bool :=
  match ev with
  | EWrite k' _ _ | EQuery k' _ _ | EQueryAscii k' _ _ => String.eqb k' k
  | _ => false
  end.



(** A command written to instrument [k] (a query is not a write). *)
Definition is_write_to (k : instrument) (ev : event) : bool :=
  match ev with
  | EWrite k' _ _ => String.eqb k' k
  | _ => false
  end.

(** The bus operation [ev] was answered by exception [e]. *)
Definition failed (ev : event) (e : exn) : Prop :=
  match ev with
  | EWrite _ _ (Raise e') => e' = e
  | EQuery _ _ (Raise e') => e' = e
  | EQueryAscii _ _ (Raise e') => e' = e
  | _ => False
  end.

(** One of the two commands of the shutdown sequence. *)
Definition is_shutdown_write (ev : event) : bool :=
  match ev with
  | EWrite _ (Literal text) _ =>
      String.eqb text ":SOUR:VOLT 0" || String.eqb text ":OUTP OFF"
  | _ => false
  end.

(** The commands written to instrument [k], in order. *)
Fixpoint writes_to (k : instrument) (evs : list event) : list scpi :=
  match evs with
  | [] => []
  | EWrite k' c _ :: rest =>
      if String.eqb k' k then c :: writes_to k rest else writes_to k rest
  | _ :: rest => writes_to k rest
  end.

(** The values of the formatted [:SOUR:VOLT] commands, in order. *)
Fixpoint voltage_writes (evs : list event) : list Q :=
  match evs with
  | [] => []
  | EWrite _ (FString prefix v) _ :: rest =>
      if String.eqb prefix ":SOUR:VOLT " then v :: voltage_writes rest
      else voltage_writes rest
  | _ :: rest => voltage_writes rest
  end.



(** A bus operation as the instrument receives it, without the answer. *)
Inductive request : Type :=
| Written (k : instrument) (c : scpi)
| Asked (k : instrument) (c : scpi).

(** The bus operations of a run, in order. *)
Fixpoint requests (evs : list event) : list request :=
  match evs with
  | [] => []
  | EWrite k c _ :: rest => Written k c :: requests rest
  | EQuery k c _ :: rest => Asked k c :: requests rest
  | EQueryAscii k c _ :: rest => Asked k c :: requests rest
  | _ :: rest => requests rest
  end.

(** The waits of a run, in seconds, in order. *)
Fixpoint sleeps (evs : list event) : list Q :=
  match evs with
  | [] => []
  | ESleep seconds :: rest => seconds :: sleeps rest
  | _ :: rest => sleeps rest
  end.

(** The handles closed during a run, in order. *)
Fixpoint closed (evs : list event) : list instrument :=
  match evs with
  | [] => []
  | EClose k :: rest => k :: closed rest
  | _ :: rest => closed rest
  end.

(** The indices [i, i+1, ..., i+n-1] of a [range]. *)
Fixpoint zseq (i : Z) (n : nat) : list Z :=
  match n with
  | O => []
  | S n' => i :: zseq (i + 1) n'
  end.

(** A number is whole when it is the value of an integer. *)
Definition whole (x : Q) : Prop := exists z : Z, x == inject_Z z.

(** Successive values never decrease. *)
Fixpoint non_decreasing (ts : list Q) : Prop :=
  match ts with
  | [] => True
  | t :: rest =>
      match rest with
      | [] => True
      | t' :: _ => t <= t' /\ non_decreasing rest
      end
  end.



(** A compliance command carries the value configured for the instrument
    it is written to: [cP] for [P], [cR] for [R]; no literal command sets a
    compliance. *)
Definition compliance_as_configured (P R : instrument) (cP cR : Q)
    (ev : event) : Prop :=
  match ev with
  | EWrite k (FString prefix v) _ =>
      prefix = ":SENS:CURR:PROT " -> (k = P /\ v = cP) \/ (k = R /\ v = cR)
  | EWrite _ (Literal text) _ => String.prefix ":SENS:CURR:PROT" text = false
  | _ => True
  end.

(** ** Reading printed numbers *)

Definition is_digit (c : ascii) : bool :=
  ((48 <=? nat_of_ascii c) && (nat_of_ascii c <=? 57))%nat.

Fixpoint all_digits (text : string) : bool :=
  match text with
  | EmptyString => true
  | String c rest => is_digit c && all_digits rest
  end.



(** The number a decimal digit stands for. *)
Definition digit_value (c : ascii) : Z := (Z.of_nat (nat_of_ascii c) - 48)%Z.

(** The number that a run of digits denotes when it follows digits that
    denote [acc]. *)
Fixpoint digits_number (acc : Z) (text : string) : Z :=
  match text with
  | EmptyString => acc
  | String c rest => digits_number (10 * acc + digit_value c) rest
  end.

(** Reading a decimal numeral from left to right: [acc] is the number read
    so far, [scale] the power of ten by which it must be divided once the
    point has been read.  The result is a numerator and a denominator. *)
Fixpoint read_digits (text : string) (acc : Z) (scale : option Z)
  : option (Z * Z) :=
  match text with
  | EmptyString =>
      Some (acc, match scale with Some k => k | None => 1%Z end)
  | String c rest =>
      if is_digit c
      then read_digits rest (10 * acc + digit_value c)
                       (option_map (Z.mul 10) scale)
      else if Ascii.eqb c "."
           then match scale with
                | None => read_digits rest acc (Some 1%Z)
                | Some _ => None
                end
           else None
  end.

(** The number that a text in fixed notation denotes: an optional minus
    sign, digits, and possibly a point followed by digits. *)
Definition read_decimal (text : string) : option Q :=
  match text with
  | EmptyString => None
  | String c rest =>
      if Ascii.eqb c "-"
      then match read_digits rest 0 None with
           | Some (n, k) => Some (- (n # Z.to_pos k))
           | None => None
           end
      else match read_digits text 0 None with
           | Some (n, k) => Some (n # Z.to_pos k)
           | None => None
           end
  end.

(** The texts before and after the first [e]. *)
Fixpoint split_at_e (text : string) : option (string * string) :=
  match text with
  | EmptyString => None
  | String c rest =>
      if Ascii.eqb c "e" then Some (EmptyString, rest)
      else match split_at_e rest with
           | Some (mantissa, exponent) => Some (String c mantissa, exponent)
           | None => None
           end
  end.

(** The number that an exponent field denotes: a sign followed by digits. *)
Definition read_exponent (text : string) : option Z :=
  match text with
  | EmptyString => None
  | String c rest =>
      if all_digits rest
      then if Ascii.eqb c "+" then Some (digits_number 0 rest)
           else if Ascii.eqb c "-" then Some (- digits_number 0 rest)%Z
                else None
      else None
  end.

(** The number that a text in scientific notation denotes. *)
Definition read_scientific (text : string) : option Q :=
  match split_at_e text with
  | Some (mantissa, exponent) =>
      match read_decimal mantissa, read_exponent exponent with
      | Some m, Some e => Some (m * Py.qpow10 e)
      | _, _ => None
      end
  | None => None
  end.

(** ** Reading the rows of the file *)

(** No character of [text] is [c]. *)
Fixpoint free_of (c : ascii) (text : string) : bool :=
  match text with
  | EmptyString => true
  | String c' rest => negb (Ascii.eqb c' c) && free_of c rest
  end.

(** The fields of a line: the texts between its tabs. *)
Fixpoint fields (text : string) : list string :=
  match text with
  | EmptyString => [EmptyString]
  | String c rest =>
      if Ascii.eqb c "009"
      then EmptyString :: fields rest
      else match fields rest with
           | field :: others => String c field :: others
           | [] => [String c EmptyString]
           end
  end.

(** A line without the newline that ends it. *)
Fixpoint chomp (text : string) : option string :=
  match text with
  | EmptyString => None
  | String c rest =>
      if Ascii.eqb c "010"
      then match rest with EmptyString => Some EmptyString | _ => None end
      else match chomp rest with
           | Some body => Some (String c body)
           | None => None
           end
  end.

(** Reading a data row of the single-instrument file. *)
Definition IV_read_row (line : string) : option IV.sample_point :=
  match chomp line with
  | Some body =>
      match fields body with
      | [t; v; i; p] =>
          match read_decimal t, read_decimal v,
                read_scientific i, read_scientific p with
          | Some t', Some v', Some i', Some p' => Some (IV.mkPoint t' v' i' p')
          | _, _, _, _ => None
          end
      | _ => None
      end
  | None => None
  end.

(** Reading a data row of the dual-instrument file. *)
Definition PV_read_row (line : string) : option PV.sample_point :=
  match chomp line with
  | Some body =>
      match fields body with
      | [t; v; i; p; v1; i1; p1; p2] =>
          match read_decimal t, read_decimal v,
                read_scientific i, read_scientific p,
                read_decimal v1, read_scientific i1,
                read_scientific p1, read_scientific p2 with
          | Some t', Some v', Some i', Some p',
            Some v1', Some i1', Some p1', Some p2' =>
              Some (PV.mkPoint t' v' i' p' v1' i1' p1' p2')
          | _, _, _, _, _, _, _, _ => None
          end
      | _ => None
      end
  | None => None
  end.

(** ** Properties of runs *)

(** Every event of every run of [m] satisfies [Q]. *)
Definition emits (Q : event -> Prop) {A} (m : M A) : Prop :=
  forall en s r evs s', run m en s = (r, evs, s') -> Forall Q evs.

(** In [evs], a failed bus operation is the last event, and its exception
    is the outcome. *)
Definition stops {A} (r : outcome A) (evs : list event) : Prop :=
  forall pre ev post e,
    evs = (pre ++ ev :: post)%list -> failed ev e -> post = [] /\ r = Raise e.

(** Every run of [m] stops at its first failed bus operation. *)
Definition failstop {A} (m : M A) : Prop :=
  forall en s r evs s', run m en s = (r, evs, s') -> stops r evs.

(** In world [en], [m] never raises [IndexError], and its results satisfy
    [Post]. *)
Definition safe (en : env) {A} (m : M A) (Post : A -> Prop) : Prop :=
  forall s r evs s',
    run m en s = (r, evs, s') ->
    match r with
    | Ok a => Post a
    | Raise e => e <> IndexError
    end.

(** ** Environments and parameters of the examples *)

(** A world in which every operation succeeds: query [n] answers the two
    values [n] and [1/1000], the clock reads [n] at its [n]-th reading. *)
Definition calm : env :=
  mkEnv "()" (fun _ => Reply tt) (fun _ => Reply tt)
        (fun _ => Reply "KEITHLEY 2400")
        (fun n => Reply [inject_Z (Z.of_nat n); 1 # 1000])
        (fun n => inject_Z (Z.of_nat n)) "run1" None.

Definition idle : counters := mkCounters 0 0.

(** The same world, but its wall clock is set back by two seconds between
    the second and the third reading: 100, 105, 103, 103, ... *)
Definition clock_set_back : env :=
  mkEnv "()" (fun _ => Reply tt) (fun _ => Reply tt)
        (fun _ => Reply "KEITHLEY 2400")
        (fun n => Reply [inject_Z (Z.of_nat n); 1 # 1000])
        (fun n => match n with O => 100 | S O => 105 | _ => 103 end)
        "run1" None.

(** The same world, but bus operation [k] times out (status
    [VI_ERROR_TMO]). *)
Definition timeout_at (k : nat) : env :=
  mkEnv "()" (fun _ => Reply tt)
        (fun n => if Nat.eqb n k then BusError (-1073807339) else Reply tt)
        (fun _ => Reply "KEITHLEY 2400")
        (fun n => if Nat.eqb n k then BusError (-1073807339)
                  else Reply [inject_Z (Z.of_nat n); 1 # 1000])
        (fun n => inject_Z (Z.of_nat n)) "run1" None.

(** The same world, but bus operation [k] is answered by one value only. *)
Definition one_value_at (k : nat) : env :=
  mkEnv "()" (fun _ => Reply tt) (fun _ => Reply tt)
        (fun _ => Reply "KEITHLEY 2400")
        (fun n => if Nat.eqb n k then Reply [5]
                  else Reply [inject_Z (Z.of_nat n); 1 # 1000])
        (fun n => inject_Z (Z.of_nat n)) "run1" None.

(** The same world, but the directory of the data files does not exist:
    [open] fails with [ENOENT]. *)
Definition no_directory : env :=
  mkEnv "()" (fun _ => Reply tt) (fun _ => Reply tt)
        (fun _ => Reply "KEITHLEY 2400")
        (fun n => Reply [inject_Z (Z.of_nat n); 1 # 1000])
        (fun n => inject_Z (Z.of_nat n)) "run1" (Some 2%Z).

(** The same world, but no instrument answers at the addresses of the
    scripts (status [VI_ERROR_RSRC_NFOUND]). *)
Definition unplugged : env :=
  mkEnv "()" (fun _ => BusError (-1073807343)) (fun _ => Reply tt)
        (fun _ => Reply "KEITHLEY 2400")
        (fun n => Reply [inject_Z (Z.of_nat n); 1 # 1000])
        (fun n => inject_Z (Z.of_nat n)) "run1" None.

(** One recorded point of each script, with a time and currents that the
    file cannot hold exactly. *)
Definition iv_sample : IV.series :=
  IV.mkSeries [1 # 3] [1 # 2] [- (1 # 3000)] [- (1 # 6000)].

Definition pv_sample : PV.series :=
  PV.mkSeries [1 # 3] [1 # 2] [- (1 # 3000)] [- (1 # 6000)]
              [2 # 3] [1 # 7000] [2 # 21000] [1 # 14000].

(** Three points: 0 V, 0.5 V, 1 V. *)
Definition iv_demo : IV.params := (0, 1, 1 # 2, 1 # 10, "GPIB0::12::INSTR").

Definition pv_demo : PV.params :=
  (0, 1, 1 # 2, 35 # 100, "GPIB0::16::INSTR", "GPIB0::14::INSTR", 0, 1 # 10).

(** * Lemmas *)

(** ** Running a sequence *)

Lemma run_bind_inv {A B} {m : M A} {f : A -> M B} {en s r evs s'} :
  run (bind m f) en s = (r, evs, s') ->
  (exists a e1 s1 e2,
      run m en s = (Ok a, e1, s1) /\ run (f a) en s1 = (r, e2, s')
      /\ evs = (e1 ++ e2)%list)
  \/ (exists e, run m en s = (Raise e, evs, s') /\ r = Raise e).
Proof.
  unfold run, bind. destruct (m en s) as [[[a | e] e1] s1].
  - destruct (f a en s1) as [[r2 e2] s2] eqn:Hf. intros H.
    injection H as <- <- <-. left. now exists a, e1, s1, e2.
  - intros H. injection H as <- <- <-. right. now exists e.
Qed.

Lemma run_bind_ok {A B} {m : M A} (f : A -> M B) {en s a e1 s1} :
  run m en s = (Ok a, e1, s1) ->
  run (bind m f) en s =
    (let '(r, e2, s2) := run (f a) en s1 in (r, (e1 ++ e2)%list, s2)).
Proof.
  unfold run, bind. intros ->. now destruct (f a en s1) as [[r e2] s2].
Qed.

Lemma run_bind_raise {A B} {m : M A} (f : A -> M B) {en s e e1 s1} :
  run m en s = (Raise e, e1, s1) ->
  run (bind m f) en s = (Raise e, e1, s1).
Proof. unfold run, bind. now intros ->. Qed.

(** Split the run [H] of a sequence into the run of its head, [Hhead], and
    the run of the rest, which keeps the name [H]; when the head raised,
    only [Hhead] remains. *)
Ltac split_run H :=
  let a := fresh "a" in
  let e1 := fresh "evs" in
  let s1 := fresh "s" in
  let e2 := fresh "evs" in
  let e := fresh "e" in
  let H1 := fresh "Hhead" in
  let H2 := fresh "Hrest" in
  let Hev := fresh "Hevs" in
  let Hr := fresh "Hout" in
  apply run_bind_inv in H;
  destruct H as [(a & e1 & s1 & e2 & H1 & H2 & Hev) | (e & H1 & Hr)];
  [ rename H2 into H; try subst
  | try discriminate Hr; try (injection Hr as Hr); try subst ].

(** A primitive step [H] gives its outcome, event and counters. *)
Ltac prim H :=
  unfold run, write, query, query_ascii_values, time_time, time_sleep, print,
    input, f_write, close, ret, raise, answered in H;
  injection H; clear H; intros; subst.

(** ** What a successful primitive step did *)

Lemma write_ok {k c en s a evs s'} :
  run (write k c) en s = (Ok a, evs, s') ->
  write_reply en (bus_ops s) = Reply tt
  /\ evs = [EWrite k c (Ok tt)] /\ s' = next_bus s.
Proof.
  unfold run, write, answered. intros H. injection H as Hr <- <-.
  destruct (write_reply en (bus_ops s)) as [[] |]; [auto | discriminate].
Qed.

Lemma query_ascii_ok {k c en s vals evs s'} :
  run (query_ascii_values k c) en s = (Ok vals, evs, s') ->
  ascii_reply en (bus_ops s) = Reply vals
  /\ evs = [EQueryAscii k c (Ok vals)] /\ s' = next_bus s.
Proof.
  unfold run, query_ascii_values, answered. intros H. injection H as Hr <- <-.
  destruct (ascii_reply en (bus_ops s)); [| discriminate].
  injection Hr as ->. auto.
Qed.

Lemma query_ok {k c en s text evs s'} :
  run (query k c) en s = (Ok text, evs, s') ->
  query_reply en (bus_ops s) = Reply text
  /\ evs = [EQuery k c (Ok text)] /\ s' = next_bus s.
Proof.
  unfold run, query, answered. intros H. injection H as Hr <- <-.
  destruct (query_reply en (bus_ops s)); [| discriminate].
  injection Hr as ->. auto.
Qed.

Lemma time_ok {en s now evs s'} :
  run time_time en s = (Ok now, evs, s') ->
  now = clock en (clock_reads s) /\ evs = [ETime now] /\ s' = next_clock s.
Proof. unfold run, time_time. intros H. injection H as <- <- <-. auto. Qed.

Lemma sleep_ok {x en s a evs s'} :
  run (time_sleep x) en s = (Ok a, evs, s') -> evs = [ESleep x] /\ s' = s.
Proof. unfold run, time_sleep. intros H. injection H as _ <- <-. auto. Qed.

Lemma print_ok {line en s a evs s'} :
  run (print line) en s = (Ok a, evs, s') -> evs = [EPrint line] /\ s' = s.
Proof. unfold run, print. intros H. injection H as _ <- <-. auto. Qed.

Lemma ret_ok {A} {x : A} {en s a evs s'} :
  run (ret x) en s = (Ok a, evs, s') -> a = x /\ evs = [] /\ s' = s.
Proof. unfold run, ret. intros H. injection H as <- <- <-. auto. Qed.

Lemma index_ok {A} {xs : list A} {i en s x evs s'} :
  run (index xs i) en s = (Ok x, evs, s') ->
  nth_error xs i = Some x /\ evs = [] /\ s' = s.
Proof.
  unfold run, index. destruct (nth_error xs i) as [y |]; [| discriminate].
  unfold ret. intros H. injection H as <- <- <-. auto.
Qed.

Lemma index_raise {A} {xs : list A} {i en s e evs s'} :
  run (index xs i) en s = (Raise e, evs, s') ->
  nth_error xs i = None /\ e = IndexError /\ evs = [] /\ s' = s.
Proof.
  unfold run, index. destruct (nth_error xs i) as [y |]; [discriminate |].
  unfold raise. intros H. injection H as <- <- <-. auto.
Qed.

Lemma print_resources_ok {en s a evs s'} :
  run (fun en => print (list_resources en) en) en s = (Ok a, evs, s') ->
  evs = [EPrint (list_resources en)] /\ s' = s.
Proof. unfold run, print. intros H. injection H as _ <- <-. auto. Qed.

Lemma open_resource_ok {name en s k evs s'} :
  run (open_resource name) en s = (Ok k, evs, s') ->
  k = name /\ evs = [EOpenResource name (Ok tt)] /\ s' = s.
Proof.
  unfold run, open_resource.
  destruct (raised (open_resource_reply en name)); [| discriminate].
  intros H. injection H as <- <- <-. auto.
Qed.

(** Read off a successful primitive step [H]. *)
Ltac ok_step H :=
  first
    [ apply write_ok in H; destruct H as (? & ? & ?)
    | apply query_ascii_ok in H; destruct H as (? & ? & ?)
    | apply query_ok in H; destruct H as (? & ? & ?)
    | apply open_resource_ok in H; destruct H as (? & ? & ?)
    | apply time_ok in H; destruct H as (? & ? & ?)
    | apply sleep_ok in H; destruct H as (? & ?)
    | apply print_ok in H; destruct H as (? & ?)
    | apply print_resources_ok in H; destruct H as (? & ?)
    | apply index_ok in H; destruct H as (? & ? & ?)
    | apply ret_ok in H; destruct H as (? & ? & ?) ];
  subst.

(** ** Events of a given kind only *)

Section Emits.

Variable Q : event -> Prop.

Lemma emits_ret A (a : A) : emits Q (ret a).
Proof. intros en s r evs s' H. prim H. constructor. Qed.

Lemma emits_raise A e : emits Q (@raise A e).
Proof. intros en s r evs s' H. prim H. constructor. Qed.

Lemma emits_bind A B (m : M A) (f : A -> M B) :
  emits Q m -> (forall a, emits Q (f a)) -> emits Q (bind m f).
Proof.
  intros Hm Hf en s r evs s' H. split_run H.
  - apply Forall_app. split; [eapply Hm | eapply Hf]; eassumption.
  - eapply Hm; eassumption.
Qed.

Lemma emits_write k c : (forall r, Q (EWrite k c r)) -> emits Q (write k c).
Proof. intros HQ en s r evs s' H. prim H. repeat constructor. apply HQ. Qed.

Lemma emits_query_ascii k c :
  (forall r, Q (EQueryAscii k c r)) -> emits Q (query_ascii_values k c).
Proof. intros HQ en s r evs s' H. prim H. repeat constructor. apply HQ. Qed.

Lemma emits_time : (forall now, Q (ETime now)) -> emits Q time_time.
Proof. intros HQ en s r evs s' H. prim H. repeat constructor. apply HQ. Qed.

Lemma emits_sleep x : Q (ESleep x) -> emits Q (time_sleep x).
Proof. intros HQ en s r evs s' H. prim H. now repeat constructor. Qed.

Lemma emits_print line : Q (EPrint line) -> emits Q (print line).
Proof. intros HQ en s r evs s' H. prim H. now repeat constructor. Qed.

Lemma emits_input prompt :
  (forall line, Q (EInput prompt line)) -> emits Q (input prompt).
Proof. intros HQ en s r evs s' H. prim H. repeat constructor. apply HQ. Qed.

Lemma emits_f_write text : Q (EFileWrite text) -> emits Q (f_write text).
Proof. intros HQ en s r evs s' H. prim H. now repeat constructor. Qed.

Lemma emits_query k c : (forall r, Q (EQuery k c r)) -> emits Q (query k c).
Proof. intros HQ en s r evs s' H. prim H. repeat constructor. apply HQ. Qed.

Lemma emits_open_resource name :
  (forall r, Q (EOpenResource name r)) -> emits Q (open_resource name).
Proof.
  intros HQ en s r evs s'. unfold run, open_resource.
  destruct (raised (open_resource_reply en name)); intros H;
    injection H as <- <- <-; repeat constructor; apply HQ.
Qed.

Lemma emits_close k : Q (EClose k) -> emits Q (close k).
Proof. intros HQ en s r evs s' H. prim H. now repeat constructor. Qed.

Lemma emits_print_resources :
  (forall line, Q (EPrint line)) ->
  emits Q (fun en => print (list_resources en) en).
Proof. intros HQ en s r evs s' H. prim H. repeat constructor. apply HQ. Qed.

Lemma emits_index A (xs : list A) i : emits Q (index xs i).
Proof.
  unfold index. destruct (nth_error xs i);
    [apply emits_ret | apply emits_raise].
Qed.

Lemma emits_count_points a b c : emits Q (count_points a b c).
Proof.
  unfold count_points. destruct (Qeq_bool c 0);
    [apply emits_raise | apply emits_ret].
Qed.

Lemma emits_with_open A dir name (body : M A) :
  (forall r, Q (EFileOpen dir name r)) -> Q EFileClose ->
  emits Q body -> emits Q (with_open dir name body).
Proof.
  intros Ho Hc Hb en s r evs s'. unfold run, with_open.
  destruct (open_reply en).
  - intros H. injection H as <- <- <-. repeat constructor. apply Ho.
  - destruct (body en s) as [[r2 e2] s2] eqn:Hrun. intros H.
    injection H as <- <- <-. constructor; [apply Ho |].
    apply Forall_app. split; [eapply Hb; eassumption | now repeat constructor].
Qed.

Lemma emits_for_range V (body : Z -> V -> M V) n :
  (forall i s, emits Q (body i s)) ->
  forall i s, emits Q (for_range n i body s).
Proof.
  intros Hb. induction n as [| n IH]; intros i s; simpl.
  - apply emits_ret.
  - apply emits_bind; [apply Hb | intros a; apply IH].
Qed.

End Emits.

(** ** Stopping at the first failed bus operation *)

Lemma stops_nil A (r : outcome A) : stops r [].
Proof. intros pre ev post e H. now destruct pre. Qed.

Lemma stops_single A (r : outcome A) ev :
  (forall e, failed ev e -> r = Raise e) -> stops r [ev].
Proof.
  intros Hr pre ev' post e H Hf. destruct pre as [| x pre].
  - injection H as <- <-. split; [reflexivity | now apply Hr].
  - injection H as _ H. now destruct pre.
Qed.

Lemma failstop_ret A (a : A) : failstop (ret a).
Proof. intros en s r evs s' H. prim H. apply stops_nil. Qed.

Lemma failstop_raise A e : failstop (@raise A e).
Proof. intros en s r evs s' H. prim H. apply stops_nil. Qed.

Lemma failstop_write k c : failstop (write k c).
Proof.
  intros en s r evs s' H. prim H. apply stops_single.
  simpl. destruct (write_reply en (bus_ops s)); simpl; [tauto | congruence].
Qed.

Lemma failstop_query_ascii k c : failstop (query_ascii_values k c).
Proof.
  intros en s r evs s' H. prim H. apply stops_single.
  simpl. destruct (ascii_reply en (bus_ops s)); simpl; [tauto | congruence].
Qed.

Lemma failstop_quiet A (m : M A) :
  emits (fun ev => is_bus ev = false) m -> failstop m.
Proof.
  intros Hq en s r evs s' H pre ev post e -> Hf.
  apply Hq in H. apply Forall_app in H as [_ H].
  inversion H as [| ? ? Hev _]; subst. now destruct ev.
Qed.

Lemma failstop_bind A B (m : M A) (f : A -> M B) :
  failstop m -> (forall a, failstop (f a)) -> failstop (bind m f).
Proof.
  intros Hm Hf en s r evs s' H. split_run H.
  - intros pre ev post e Heq Hfail.
    apply app_eq_app in Heq as [l [[-> Hl] | [-> Hl]]].
    + destruct l as [| x l].
      * simpl in Hl. apply (Hf _ _ _ _ _ _ H [] ev post e); auto.
      * simpl in Hl. injection Hl as <- ->.
        destruct (Hm _ _ _ _ _ Hhead pre ev l e eq_refl Hfail) as [_ Hr].
        discriminate Hr.
    + eapply Hf; [eassumption | exact Hl | eassumption].
  - intros pre ev post e' Heq Hfail.
    destruct (Hm _ _ _ _ _ Hhead pre ev post e' Heq Hfail) as [-> Hr].
    split; [reflexivity |]. congruence.
Qed.

Lemma failstop_for_range V (body : Z -> V -> M V) n :
  (forall i s, failstop (body i s)) ->
  forall i s, failstop (for_range n i body s).
Proof.
  intros Hb. induction n as [| n IH]; intros i s; simpl.
  - apply failstop_ret.
  - apply failstop_bind; [apply Hb | intros a; apply IH].
Qed.

(** ** Tactics and small facts *)

Ltac emits_steps :=
  repeat first
    [ apply emits_ret | apply emits_raise | apply emits_index
    | apply emits_count_points
    | apply emits_bind; [| intros ?]
    | apply emits_write; intros ?
    | apply emits_query_ascii; intros ?
    | apply emits_time; intros ?
    | apply emits_sleep | apply emits_print | apply emits_f_write
    | apply emits_input; intros ?
    | apply emits_query; intros ?
    | apply emits_open_resource; intros ?
    | apply emits_close
    | apply emits_print_resources; intros ?
    | apply emits_with_open; [intros ? | |]
    | apply emits_for_range; intros ? ?
    | match goal with
      | |- emits _ (if ?b then _ else _) => destruct b
      | |- emits _ (match ?x with (_, _) => _ end) => destruct x
      end ].

Ltac failstop_steps :=
  repeat first
    [ apply failstop_ret | apply failstop_raise | apply failstop_write
    | apply failstop_query_ascii
    | apply failstop_bind; [| intros ?]
    | apply failstop_for_range; intros ? ?
    | apply failstop_quiet; emits_steps; reflexivity
    | match goal with
      | |- failstop (if ?b then _ else _) => destruct b
      | |- failstop (match ?x with (_, _) => _ end) => destruct x
      end ].



(** ** The single-instrument script, phase by phase *)

Lemma IV_save_quiet points d :
  emits (fun ev => is_bus ev = false) (IV.save points d).
Proof. unfold IV.save, IV.data_line. emits_steps; reflexivity. Qed.

Lemma IV_plot_quiet d : emits (fun ev => is_bus ev = false) (IV.plot d).
Proof.
  intros en s r evs s' H. unfold run, IV.plot in H.
  injection H as <- <- <-. now repeat constructor.
Qed.

Lemma IV_shutdown_ok {Vmin Vmax step c K en s evs s'} :
  run (IV.shutdown (Vmin, Vmax, step, c, K)) en s = (Ok tt, evs, s') ->
  evs = [EWrite K (Literal ":SOUR:VOLT 0") (Ok tt);
         EWrite K (Literal ":OUTP OFF") (Ok tt)].
Proof.
  unfold IV.shutdown. intros H. split_run H.
  ok_step Hhead. ok_step H. reflexivity.
Qed.

Lemma IV_acquire_ok {Vmin Vmax step c K en s pts d evs s'} :
  run (IV.acquire (Vmin, Vmax, step, c, K)) en s = (Ok (pts, d), evs, s') ->
  exists start e0 s0 e1 s1,
    run (IV.start_sweep (Vmin, Vmax, step, c, K)) en s
      = (Ok (pts, start), e0, s0)
    /\ run (IV.stepping (Vmin, Vmax, step, c, K) pts start) en s0
      = (Ok d, e1, s1)
    /\ evs = (e0 ++ e1 ++ [EWrite K (Literal ":SOUR:VOLT 0") (Ok tt);
                           EWrite K (Literal ":OUTP OFF") (Ok tt)])%list.
Proof.
  unfold IV.acquire. intros H. split_run H. destruct a as [pts' start].
  split_run H. split_run H. prim H. destruct a0.
  apply IV_shutdown_ok in Hhead1. subst.
  do 5 eexists. split; [eassumption |]. split; [eassumption |]. reflexivity.
Qed.


(** ** The dual-instrument script, phase by phase *)

Lemma PV_save_quiet points d :
  emits (fun ev => is_bus ev = false) (PV.save points d).
Proof. unfold PV.save, PV.data_line. emits_steps; reflexivity. Qed.

Lemma PV_plot_quiet P R d :
  emits (fun ev => is_bus ev = false) (PV.plot P R d).
Proof.
  intros en s r evs s' H. unfold run, PV.plot in H.
  injection H as <- <- <-. now repeat constructor.
Qed.

Lemma PV_shutdown_ok {Vmin Vmax step c P R bias cr en s evs s'} :
  run (PV.shutdown (Vmin, Vmax, step, c, P, R, bias, cr)) en s
    = (Ok tt, evs, s') ->
  evs = [EWrite P (Literal ":SOUR:VOLT 0") (Ok tt);
         EWrite R (Literal ":SOUR:VOLT 0") (Ok tt);
         EWrite P (Literal ":OUTP OFF") (Ok tt);
         EWrite R (Literal ":OUTP OFF") (Ok tt)].
Proof.
  unfold PV.shutdown. intros H. do 3 split_run H.
  ok_step Hhead. ok_step Hhead0. ok_step Hhead1. ok_step H. reflexivity.
Qed.

Lemma PV_acquire_ok {Vmin Vmax step c P R bias cr en s pts d evs s'} :
  run (PV.acquire (Vmin, Vmax, step, c, P, R, bias, cr)) en s
    = (Ok (pts, d), evs, s') ->
  exists start e0 s0 e1 s1,
    run (PV.start_sweep (Vmin, Vmax, step, c, P, R, bias, cr)) en s
      = (Ok (pts, start), e0, s0)
    /\ run (PV.stepping (Vmin, Vmax, step, c, P, R, bias, cr) pts start) en s0
      = (Ok d, e1, s1)
    /\ evs = (e0 ++ e1 ++ [EWrite P (Literal ":SOUR:VOLT 0") (Ok tt);
                           EWrite R (Literal ":SOUR:VOLT 0") (Ok tt);
                           EWrite P (Literal ":OUTP OFF") (Ok tt);
                           EWrite R (Literal ":OUTP OFF") (Ok tt)])%list.
Proof.
  unfold PV.acquire. intros H. split_run H. destruct a as [pts' start].
  split_run H. split_run H. prim H. destruct a0.
  apply PV_shutdown_ok in Hhead1. subst.
  do 5 eexists. split; [eassumption |]. split; [eassumption |]. reflexivity.
Qed.


(** ** Every bus operation of the single-instrument sweep goes to its one
    instrument *)



(** ** One round of the loop *)

Lemma IV_step_ok {Vmin step K start i d en s d' evs s'} :
  run (IV.step Vmin step K start i d) en s = (Ok d', evs, s') ->
  let v := (Vmin + inject_Z i * step)%Q in
  let now := clock en (clock_reads s) in
  exists reading current,
    ascii_reply en (S (bus_ops s)) = Reply reading
    /\ nth_error reading 1 = Some current
    /\ evs = ([EWrite K (FString ":SOUR:VOLT " v) (Ok tt); ESleep (5 # 100);
              ETime now; EQueryAscii K (Literal ":READ?") (Ok reading)]
             ++ (if Py.is_whole v then [EPrint (IV.progress_line v current)]
                 else []))%list
    /\ d' = IV.mkSeries (IV.t_values d ++ [(now - start)%Q])
                        (IV.voltage_values d ++ [v])
                        (IV.current_values d ++ [current])
                        (IV.power_values d ++ [(v * current)%Q])
    /\ s' = mkCounters (S (S (bus_ops s))) (S (clock_reads s)).
Proof.
  intros H v now. unfold IV.step in H. fold v in H.
  do 6 split_run H.
  ok_step Hhead. ok_step Hhead0. ok_step Hhead1. ok_step Hhead2.
  ok_step Hhead3. ok_step H.
  destruct (Py.is_whole v); ok_step Hhead4;
    exists a2, a3; repeat split; solve [assumption | reflexivity].
Qed.

Lemma PV_step_ok {Vmin step P R start i d en s d' evs s'} :
  run (PV.step Vmin step P R start i d) en s = (Ok d', evs, s') ->
  let v := (Vmin + inject_Z i * step)%Q in
  let now := clock en (clock_reads s) in
  exists reading reading_1 reading_2 current voltage_1 current_1,
    ascii_reply en (1 + bus_ops s) = Reply reading
    /\ ascii_reply en (2 + bus_ops s) = Reply reading_1
    /\ ascii_reply en (3 + bus_ops s) = Reply reading_2
    /\ nth_error reading 1 = Some current
    /\ nth_error reading_1 0 = Some voltage_1
    /\ nth_error reading_2 1 = Some current_1
    /\ evs = ([EWrite P (FString ":SOUR:VOLT " v) (Ok tt); ESleep (5 # 100);
              ETime now;
              EQueryAscii P (Literal ":READ?") (Ok reading);
              EQueryAscii R (Literal ":READ?") (Ok reading_1);
              EQueryAscii R (Literal ":READ?") (Ok reading_2)]
             ++ (if Py.is_whole v then [EPrint (PV.progress_line v current_1)]
                 else []))%list
    /\ d' = PV.mkSeries (PV.t_values d ++ [(now - start)%Q])
                        (PV.voltage_values d ++ [v])
                        (PV.current_values d ++ [current])
                        (PV.power_values d ++ [(v * current)%Q])
                        (PV.voltage_1_values d ++ [voltage_1])
                        (PV.current_1_values d ++ [current_1])
                        (PV.power_1_values d ++ [(voltage_1 * current_1)%Q])
                        (PV.power_2_values d ++ [(v * current_1)%Q])
    /\ s' = mkCounters (4 + bus_ops s) (S (clock_reads s)).
Proof.
  intros H v now. unfold PV.step in H. fold v in H.
  do 10 split_run H.
  ok_step Hhead. ok_step Hhead0. ok_step Hhead1. ok_step Hhead2.
  ok_step Hhead3. ok_step Hhead4. ok_step Hhead5. ok_step Hhead6.
  ok_step Hhead7. ok_step H.
  destruct (Py.is_whole v); ok_step Hhead8;
    exists a2, a4, a6, a3, a5, a7; repeat split;
    solve [assumption | reflexivity].
Qed.

(** ** A loop that ran to its end *)

Lemma voltage_writes_app e1 e2 :
  voltage_writes (e1 ++ e2) = (voltage_writes e1 ++ voltage_writes e2)%list.
Proof.
  induction e1 as [| ev e1 IH]; simpl; [reflexivity |].
  destruct ev; try exact IH.
  destruct c; try exact IH.
  destruct (String.eqb prefix ":SOUR:VOLT "); simpl; now rewrite IH.
Qed.

Lemma IV_loop_ok n : forall Vmin step K start i d en s d' evs s',
  run (for_range n i (IV.step Vmin step K start) d) en s = (Ok d', evs, s') ->
  let volt := fun j => (Vmin + inject_Z j * step)%Q in
  voltage_writes evs = map volt (zseq i n)
  /\ IV.voltage_values d' = (IV.voltage_values d ++ map volt (zseq i n))%list
  /\ IV.t_values d'
     = (IV.t_values d
        ++ map (fun j => (clock en j - start)%Q) (seq (clock_reads s) n))%list
  /\ length (IV.current_values d') = (length (IV.current_values d) + n)%nat
  /\ length (IV.power_values d') = (length (IV.power_values d) + n)%nat.
Proof.
  induction n as [| n IH]; intros Vmin step K start i d en s d' evs s' H volt.
  - simpl in H. ok_step H. simpl. rewrite !app_nil_r, !Nat.add_0_r. auto.
  - simpl in H. split_run H.
    destruct (IV_step_ok Hhead) as (reading & current & _ & _ & -> & -> & ->).
    apply IH in H. simpl in H. destruct H as (Hw & Hv & Ht & Hc & Hp).
    rewrite voltage_writes_app, Hw, Hv, Ht, Hc, Hp. simpl.
    rewrite <- !app_assoc, !length_app. simpl.
    assert (Hsilent : voltage_writes
              (if Py.is_whole (Vmin + inject_Z i * step)
               then [EPrint (IV.progress_line (Vmin + inject_Z i * step)
                                              current)]
               else []) = []) by (now destruct (Py.is_whole _)).
    rewrite Hsilent. simpl.
    repeat split; try reflexivity; lia.
Qed.

Lemma PV_loop_ok n : forall Vmin step P R start i d en s d' evs s',
  run (for_range n i (PV.step Vmin step P R start) d) en s = (Ok d', evs, s') ->
  let volt := fun j => (Vmin + inject_Z j * step)%Q in
  voltage_writes evs = map volt (zseq i n)
  /\ PV.voltage_values d' = (PV.voltage_values d ++ map volt (zseq i n))%list
  /\ PV.t_values d'
     = (PV.t_values d
        ++ map (fun j => (clock en j - start)%Q) (seq (clock_reads s) n))%list
  /\ length (PV.current_values d') = (length (PV.current_values d) + n)%nat
  /\ length (PV.power_values d') = (length (PV.power_values d) + n)%nat
  /\ length (PV.voltage_1_values d')
     = (length (PV.voltage_1_values d) + n)%nat
  /\ length (PV.current_1_values d')
     = (length (PV.current_1_values d) + n)%nat
  /\ length (PV.power_1_values d') = (length (PV.power_1_values d) + n)%nat
  /\ length (PV.power_2_values d') = (length (PV.power_2_values d) + n)%nat.
Proof.
  induction n as [| n IH]; intros Vmin step P R start i d en s d' evs s' H volt.
  - simpl in H. ok_step H. simpl. rewrite !app_nil_r, !Nat.add_0_r.
    repeat split; reflexivity.
  - simpl in H. split_run H.
    destruct (PV_step_ok Hhead)
      as (r0 & r1 & r2 & c0 & v1 & c1 & _ & _ & _ & _ & _ & _ & -> & -> & ->).
    apply IH in H. simpl in H.
    destruct H as (Hw & Hv & Ht & Hc & Hp & Hv1 & Hc1 & Hp1 & Hp2).
    rewrite voltage_writes_app, Hw, Hv, Ht, Hc, Hp, Hv1, Hc1, Hp1, Hp2. simpl.
    rewrite <- !app_assoc, !length_app. simpl.
    assert (Hsilent : voltage_writes
              (if Py.is_whole (Vmin + inject_Z i * step)
               then [EPrint (PV.progress_line (Vmin + inject_Z i * step) c1)]
               else []) = []) by (now destruct (Py.is_whole _)).
    rewrite Hsilent. simpl.
    repeat split; try reflexivity; lia.
Qed.

(** ** The number of points *)

Lemma count_points_ok {Vmin Vmax step en s pts evs s'} :
  run (count_points Vmin Vmax step) en s = (Ok pts, evs, s') ->
  ~ step == 0
  /\ pts = (Py.int ((Vmax - Vmin) / step) + 1)%Z /\ evs = [] /\ s' = s.
Proof.
  unfold count_points. destruct (Qeq_bool step 0) eqn:Hz.
  - discriminate.
  - intros H. ok_step H. split; [| auto].
    intros Heq. apply Qeq_bool_iff in Heq. congruence.
Qed.




Lemma zseq_length i n : length (zseq i n) = n.
Proof. revert i. induction n as [| n IH]; intros i; simpl; auto. Qed.

Lemma zseq_nth n : forall i k,
  (k < n)%nat -> nth_error (zseq i n) k = Some (i + Z.of_nat k)%Z.
Proof.
  induction n as [| n IH]; intros i k Hk; [lia |].
  destruct k as [| k]; simpl.
  - f_equal. lia.
  - rewrite IH by lia. f_equal. lia.
Qed.



Lemma IV_start_sweep_ok {Vmin Vmax step c K en s pts start evs s'} :
  run (IV.start_sweep (Vmin, Vmax, step, c, K)) en s
    = (Ok (pts, start), evs, s') ->
  ~ step == 0
  /\ pts = (Py.int ((Vmax - Vmin) / step) + 1)%Z
  /\ evs = [EWrite K (Literal ":OUTP ON") (Ok tt); ETime start]
  /\ s' = next_clock (next_bus s).
Proof.
  unfold IV.start_sweep. intros H. do 3 split_run H.
  apply count_points_ok in Hhead. destruct Hhead as (Hz & -> & -> & ->).
  ok_step Hhead0. ok_step Hhead1.
  apply ret_ok in H. destruct H as (Heq & -> & ->). injection Heq as -> ->.
  auto.
Qed.

Lemma PV_start_sweep_ok
    {Vmin Vmax step c P R bias cr en s pts start evs s'} :
  run (PV.start_sweep (Vmin, Vmax, step, c, P, R, bias, cr)) en s
    = (Ok (pts, start), evs, s') ->
  ~ step == 0
  /\ pts = (Py.int ((Vmax - Vmin) / step) + 1)%Z
  /\ evs = [EWrite P (Literal ":OUTP ON") (Ok tt);
            EWrite R (Literal ":OUTP ON") (Ok tt);
            EWrite R (FString ":SOUR:VOLT " bias) (Ok tt);
            EWrite R (FString ":SENS:CURR:PROT " cr) (Ok tt);
            ETime start]
  /\ s' = next_clock (next_bus (next_bus (next_bus (next_bus s)))).
Proof.
  unfold PV.start_sweep. intros H. do 6 split_run H.
  apply count_points_ok in Hhead. destruct Hhead as (Hz & -> & -> & ->).
  ok_step Hhead0. ok_step Hhead1. ok_step Hhead2. ok_step Hhead3.
  ok_step Hhead4.
  apply ret_ok in H. destruct H as (Heq & -> & ->). injection Heq as -> ->.
  auto.
Qed.

(** ** Writes during the dual-instrument loop *)

Lemma writes_to_app k e1 e2 :
  writes_to k (e1 ++ e2) = (writes_to k e1 ++ writes_to k e2)%list.
Proof.
  induction e1 as [| ev e1 IH]; simpl; [reflexivity |].
  destruct ev; try exact IH.
  destruct (String.eqb k0 k); simpl; now rewrite IH.
Qed.

Lemma writes_to_none {k evs} :
  Forall (fun ev => is_write_to k ev = false) evs -> writes_to k evs = [].
Proof.
  induction 1 as [| ev evs Hev _ IH]; simpl; [reflexivity |].
  destruct ev; try exact IH. simpl in Hev. now rewrite Hev.
Qed.

Lemma PV_step_spares_second Vmin step P R start i d :
  P <> R ->
  emits (fun ev => is_write_to R ev = false)
        (PV.step Vmin step P R start i d).
Proof.
  intros Hne. unfold PV.step. emits_steps; simpl; try reflexivity.
  now apply String.eqb_neq.
Qed.

Lemma PV_step_reads_second Vmin step P R start i d :
  P <> R ->
  emits (fun ev => addressed R ev = true ->
                   exists vals, ev = EQueryAscii R (Literal ":READ?") vals)
        (PV.step Vmin step P R start i d).
Proof.
  intros Hne. apply String.eqb_neq in Hne.
  unfold PV.step. emits_steps; simpl; try discriminate;
    try (rewrite Hne; discriminate).
  all: intros _; eexists; reflexivity.
Qed.

(** ** Whole numbers *)


(** ** A loop that is cut short *)

Lemma IV_step_failstop Vmin step K start i d :
  failstop (IV.step Vmin step K start i d).
Proof. unfold IV.step. failstop_steps. Qed.

Lemma PV_step_failstop Vmin step P R start i d :
  failstop (PV.step Vmin step P R start i d).
Proof. unfold PV.step. failstop_steps. Qed.

Lemma IV_step_no_shutdown Vmin step K start i d :
  emits (fun ev => is_shutdown_write ev = false)
        (IV.step Vmin step K start i d).
Proof. unfold IV.step. emits_steps; reflexivity. Qed.

Lemma PV_step_no_shutdown Vmin step P R start i d :
  emits (fun ev => is_shutdown_write ev = false)
        (PV.step Vmin step P R start i d).
Proof. unfold PV.step. emits_steps; reflexivity. Qed.

Lemma IV_cut_short {p en s pts start e0 s0 e e1 s1} :
  run (IV.start_sweep p) en s = (Ok (pts, start), e0, s0) ->
  run (IV.stepping p pts start) en s0 = (Raise e, e1, s1) ->
  run (IV.Keithley_VOLTAGE_SWEEP p) en s = (Raise e, (e0 ++ e1)%list, s1).
Proof.
  intros H0 H1. unfold IV.Keithley_VOLTAGE_SWEEP.
  apply run_bind_raise. unfold IV.acquire.
  rewrite (run_bind_ok _ H0). now rewrite (run_bind_raise _ H1).
Qed.

Lemma PV_cut_short {p en s pts start e0 s0 e e1 s1} :
  run (PV.start_sweep p) en s = (Ok (pts, start), e0, s0) ->
  run (PV.stepping p pts start) en s0 = (Raise e, e1, s1) ->
  run (PV.Keithley_VOLTAGE_SWEEP p) en s = (Raise e, (e0 ++ e1)%list, s1).
Proof.
  intros H0 H1. unfold PV.Keithley_VOLTAGE_SWEEP.
  apply run_bind_raise. unfold PV.acquire.
  rewrite (run_bind_ok _ H0). now rewrite (run_bind_raise _ H1).
Qed.

(** ** Elapsed times *)

Lemma elapsed_non_decreasing (clk : nat -> Q) start n : forall a,
  (forall m, clk m <= clk (S m)) ->
  non_decreasing (map (fun j => (clk j - start)%Q) (seq a n)).
Proof.
  induction n as [| n IH]; intros a Hmono; [exact I |].
  change (seq a (S n)) with (a :: seq (S a) n). cbn [map non_decreasing].
  destruct n as [| n]; [exact I |].
  change (seq (S a) (S n)) with (S a :: seq (S (S a)) n) in *.
  cbn [map]. split.
  - unfold Qminus. apply Qplus_le_l. apply Hmono.
  - exact (IH (S a) Hmono).
Qed.

(** ** The shape of the printed numbers *)


Lemma text_length_append (a b : string) :
  String.length (a ++ b) = (String.length a + String.length b)%nat.
Proof. induction a as [| x a IH]; simpl; [reflexivity | now rewrite IH]. Qed.

Lemma all_digits_append (a b : string) :
  all_digits a = true -> all_digits b = true -> all_digits (a ++ b) = true.
Proof.
  induction a as [| x a IH]; simpl; [auto |].
  intros Ha Hb. apply andb_true_iff in Ha as [Hx Ha].
  now rewrite Hx, IH.
Qed.

Lemma digit_is_digit d : (0 <= d < 10)%Z -> is_digit (Py.digit d) = true.
Proof.
  intros Hd.
  assert (Hc : (d = 0 \/ d = 1 \/ d = 2 \/ d = 3 \/ d = 4 \/ d = 5 \/ d = 6
                \/ d = 7 \/ d = 8 \/ d = 9)%Z) by lia.
  repeat (destruct Hc as [-> | Hc]; [reflexivity |]). now subst.
Qed.

Lemma fixed_digits_length width : forall n,
  String.length (Py.fixed_digits width n) = width.
Proof.
  induction width as [| w IH]; intros n; simpl; [reflexivity |].
  rewrite text_length_append, IH. simpl. lia.
Qed.

Lemma fixed_digits_all_digits width : forall n,
  all_digits (Py.fixed_digits width n) = true.
Proof.
  induction width as [| w IH]; intros n; simpl; [reflexivity |].
  apply all_digits_append; [apply IH |]. cbn [all_digits].
  rewrite digit_is_digit; [reflexivity |]. apply Z.mod_pos_bound. lia.
Qed.

Lemma count_digits_positive fuel n : (1 <= Py.count_digits fuel n)%nat.
Proof.
  destruct fuel as [| f]; simpl; [lia |]. destruct (n <? 10)%Z; lia.
Qed.




Lemma round_half_even_nonneg x : (0 <= Qnum x)%Z -> (0 <= Py.round_half_even x)%Z.
Proof.
  intros Hx. unfold Py.round_half_even.
  assert (Hf : (0 <= Qnum x / Z.pos (Qden x))%Z)
    by (apply Z.div_pos; lia).
  destruct (2 * (Qnum x mod Z.pos (Qden x)) ?= Z.pos (Qden x))%Z;
    [destruct (Z.even _) | |]; lia.
Qed.

Lemma qpow10_num_positive e : (0 < Qnum (Py.qpow10 e))%Z.
Proof.
  pose proof (Z.pow_pos_nonneg 10) as Hpow.
  destruct e as [| p | p]; unfold Py.qpow10.
  - simpl. lia.
  - cbn [Qnum inject_Z]. apply Hpow; lia.
  - specialize (Hpow (Z.pos p)). unfold Qinv. cbn [Qnum Qden inject_Z].
    destruct (10 ^ Z.pos p)%Z eqn:Hq; cbn [Qnum]; lia.
Qed.

Lemma pow10_positive k : (0 < Py.pow10 k)%Z.
Proof. unfold Py.pow10. apply Z.pow_pos_nonneg; lia. Qed.

Lemma pow10_succ k : Py.pow10 (S k) = (10 * Py.pow10 k)%Z.
Proof.
  unfold Py.pow10. rewrite Nat2Z.inj_succ, Z.pow_succ_r; lia.
Qed.

Lemma sci_parts_lead prec x :
  (0 <= fst (Py.sci_parts prec x) / Py.pow10 prec < 10)%Z.
Proof.
  pose proof (pow10_positive prec) as Hpos.
  unfold Py.sci_parts. destruct (Qeq_bool x 0); simpl.
  - rewrite Z.div_0_l; lia.
  - set (m := Py.round_half_even _).
    assert (Hm : (0 <= m)%Z).
    { apply round_half_even_nonneg. simpl.
      pose proof (qpow10_num_positive
                    (Z.of_nat prec - Py.exponent10 (Qabs x))).
      apply Z.mul_nonneg_nonneg; [| lia].
      destruct x as [n d]. simpl. lia. }
    destruct (Py.pow10 (S prec) <=? m)%Z eqn:Hcap; simpl.
    + rewrite Z.div_same; lia.
    + apply Z.leb_gt in Hcap. rewrite pow10_succ in Hcap. split.
      * apply Z.div_pos; lia.
      * apply Z.div_lt_upper_bound; lia.
Qed.


(** ** The file of the sweep *)

Lemma nth_error_within {A} (xs : list A) {k} :
  (k < length xs)%nat -> exists x, nth_error xs k = Some x.
Proof.
  intros H. destruct (nth_error xs k) as [x |] eqn:Hx; [now exists x |].
  apply nth_error_None in Hx. lia.
Qed.






Lemma IV_data_line_ok {d k p} en s :
  IV.sample_at d k = Some p ->
  run (IV.data_line d (Z.of_nat k)) en s = (Ok (IV.row_text p), [], s).
Proof.
  unfold IV.sample_at, IV.data_line, IV.row_text, run, bind, index, ret.
  rewrite Nat2Z.id.
  destruct (nth_error (IV.t_values d) k); [| discriminate].
  destruct (nth_error (IV.voltage_values d) k); [| discriminate].
  destruct (nth_error (IV.current_values d) k); [| discriminate].
  destruct (nth_error (IV.power_values d) k); [| discriminate].
  intros H. injection H as <-. reflexivity.
Qed.

Lemma IV_sample_within d k :
  (k < length (IV.t_values d))%nat ->
  (k < length (IV.voltage_values d))%nat ->
  (k < length (IV.current_values d))%nat ->
  (k < length (IV.power_values d))%nat ->
  exists p, IV.sample_at d k = Some p.
Proof.
  intros Ht Hv Hc Hp. unfold IV.sample_at.
  destruct (nth_error_within _ Ht) as [t ->].
  destruct (nth_error_within _ Hv) as [v ->].
  destruct (nth_error_within _ Hc) as [c ->].
  destruct (nth_error_within _ Hp) as [p ->].
  eexists. reflexivity.
Qed.

Lemma IV_rows_written d en s n : forall k,
  (k + n <= length (IV.t_values d))%nat ->
  (k + n <= length (IV.voltage_values d))%nat ->
  (k + n <= length (IV.current_values d))%nat ->
  (k + n <= length (IV.power_values d))%nat ->
  run (for_range n (Z.of_nat k)
         (fun i _ => line <- IV.data_line d i ;; f_write line) tt) en s
  = (Ok tt, map EFileWrite (map IV.row_text (IV.samples_between d k n)), s)
  /\ length (IV.samples_between d k n) = n.
Proof.
  induction n as [| n IH]; intros k Ht Hv Hc Hp; [split; reflexivity |].
  destruct (IV_sample_within d k) as [p Hp']; try lia.
  destruct (IH (S k)) as [Hrun Hlen]; try lia.
  unfold IV.samples_between in *. cbn [seq flat_map for_range].
  rewrite Hp'. cbn [app map length]. split; [| now rewrite Hlen].
  rewrite (run_bind_ok _ (m := line <- IV.data_line d (Z.of_nat k) ;; f_write line)
             (a := tt) (e1 := [EFileWrite (IV.row_text p)]) (s1 := s)).
  - replace (Z.of_nat k + 1)%Z with (Z.of_nat (S k)) by lia.
    now rewrite Hrun.
  - now rewrite (run_bind_ok _ (IV_data_line_ok en s Hp')).
Qed.

Lemma IV_save_ok pts d en s :
  open_reply en = None ->
  length (IV.t_values d) = range_len pts ->
  length (IV.voltage_values d) = range_len pts ->
  length (IV.current_values d) = range_len pts ->
  length (IV.power_values d) = range_len pts ->
  run (IV.save pts d) en s
  = (Ok tt,
     ([EInput "Enter filename: " (input_reply en);
       EFileOpen IV.directory (input_reply en ++ ".txt") (Ok tt)]
      ++ map EFileWrite (IV.preamble ++ map IV.row_text (IV.samples d))
      ++ [EFileClose; EPrint "Data saved successfully."])%list,
     s)
  /\ length (IV.samples d) = range_len pts.
Proof.
  intros Hopen Ht Hv Hc Hp.
  destruct (IV_rows_written d en s (range_len pts) 0) as [Hrun Hlen]; try lia.
  unfold IV.samples. rewrite Ht. split; [| exact Hlen].
  unfold IV.save. simpl Z.of_nat in Hrun.
  set (loop := for_range _ _ _ _) in *.
  unfold run, bind, input, with_open, f_write, print in *.
  rewrite Hopen, Hrun.
  cbn [app map IV.preamble]. now rewrite <- app_assoc.
Qed.

Lemma PV_data_line_ok {d k p} en s :
  PV.sample_at d k = Some p ->
  run (PV.data_line d (Z.of_nat k)) en s = (Ok (PV.row_text p), [], s).
Proof.
  unfold PV.sample_at, PV.data_line, PV.row_text, run, bind, index, ret.
  rewrite Nat2Z.id.
  destruct (nth_error (PV.t_values d) k); [| discriminate].
  destruct (nth_error (PV.voltage_values d) k); [| discriminate].
  destruct (nth_error (PV.current_values d) k); [| discriminate].
  destruct (nth_error (PV.power_values d) k); [| discriminate].
  destruct (nth_error (PV.voltage_1_values d) k); [| discriminate].
  destruct (nth_error (PV.current_1_values d) k); [| discriminate].
  destruct (nth_error (PV.power_1_values d) k); [| discriminate].
  destruct (nth_error (PV.power_2_values d) k); [| discriminate].
  intros H. injection H as <-. reflexivity.
Qed.

Lemma PV_sample_within d k : PV.filled d (S k) -> exists p, PV.sample_at d k = Some p.
Proof.
  intros (H1 & H2 & H3 & H4 & H5 & H6 & H7 & H8). unfold PV.sample_at.
  destruct (nth_error_within (PV.t_values d) (k := k)) as [x1 ->]; [lia |].
  destruct (nth_error_within (PV.voltage_values d) (k := k)) as [x2 ->]; [lia |].
  destruct (nth_error_within (PV.current_values d) (k := k)) as [x3 ->]; [lia |].
  destruct (nth_error_within (PV.power_values d) (k := k)) as [x4 ->]; [lia |].
  destruct (nth_error_within (PV.voltage_1_values d) (k := k)) as [x5 ->]; [lia |].
  destruct (nth_error_within (PV.current_1_values d) (k := k)) as [x6 ->]; [lia |].
  destruct (nth_error_within (PV.power_1_values d) (k := k)) as [x7 ->]; [lia |].
  destruct (nth_error_within (PV.power_2_values d) (k := k)) as [x8 ->]; [lia |].
  eexists. reflexivity.
Qed.

Lemma PV_filled_less d n m : (m <= n)%nat -> PV.filled d n -> PV.filled d m.
Proof. unfold PV.filled. intros Hm H. repeat split; lia. Qed.

Lemma PV_rows_written d en s n : forall k,
  PV.filled d (k + n) ->
  run (for_range n (Z.of_nat k)
         (fun i _ => line <- PV.data_line d i ;; f_write line) tt) en s
  = (Ok tt, map EFileWrite (map PV.row_text (PV.samples_between d k n)), s)
  /\ length (PV.samples_between d k n) = n.
Proof.
  induction n as [| n IH]; intros k Hfill; [split; reflexivity |].
  destruct (PV_sample_within d k) as [p Hp'].
  { apply (PV_filled_less d (k + S n)); [lia | exact Hfill]. }
  destruct (IH (S k)) as [Hrun Hlen].
  { apply (PV_filled_less d (k + S n)); [lia | exact Hfill]. }
  unfold PV.samples_between in *. cbn [seq flat_map for_range].
  rewrite Hp'. cbn [app map length]. split; [| now rewrite Hlen].
  rewrite (run_bind_ok _ (m := line <- PV.data_line d (Z.of_nat k) ;; f_write line)
             (a := tt) (e1 := [EFileWrite (PV.row_text p)]) (s1 := s)).
  - replace (Z.of_nat k + 1)%Z with (Z.of_nat (S k)) by lia.
    now rewrite Hrun.
  - now rewrite (run_bind_ok _ (PV_data_line_ok en s Hp')).
Qed.

Lemma PV_save_ok pts d en s :
  open_reply en = None ->
  length (PV.t_values d) = range_len pts ->
  PV.filled d (range_len pts) ->
  run (PV.save pts d) en s
  = (Ok tt,
     ([EInput "Enter filename: " (input_reply en);
       EFileOpen PV.directory (input_reply en ++ ".txt") (Ok tt)]
      ++ map EFileWrite (PV.preamble ++ map PV.row_text (PV.samples d))
      ++ [EFileClose; EPrint "Data saved successfully."])%list,
     s)
  /\ length (PV.samples d) = range_len pts.
Proof.
  intros Hopen Ht Hfill.
  destruct (PV_rows_written d en s (range_len pts) 0 Hfill) as [Hrun Hlen].
  unfold PV.samples. rewrite Ht. split; [| exact Hlen].
  unfold PV.save. simpl Z.of_nat in Hrun.
  set (loop := for_range _ _ _ _) in *.
  unfold run, bind, input, with_open, f_write, print in *.
  rewrite Hopen, Hrun.
  cbn [app map PV.preamble]. now rewrite <- app_assoc.
Qed.



(** ** No index out of range *)

Section Safe.

Variable en : env.

(** Every query is answered by at least two values. *)
Hypothesis two_values :
  forall n vals, ascii_reply en n = Reply vals -> (2 <= length vals)%nat.

Lemma safe_ret {A} (a : A) (P : A -> Prop) : P a -> safe en (ret a) P.
Proof. intros HP s r evs s' H. prim H. exact HP. Qed.

Lemma safe_bind {A B} (m : M A) (f : A -> M B) P Q :
  safe en m P -> (forall a, P a -> safe en (f a) Q) -> safe en (bind m f) Q.
Proof.
  intros Hm Hf s r evs s' H. split_run H.
  - apply Hm in Hhead. exact (Hf _ Hhead _ _ _ _ H).
  - apply Hm in Hhead. exact Hhead.
Qed.

Lemma safe_write k c : safe en (write k c) (fun _ => True).
Proof.
  intros s r evs s' H. prim H.
  destruct (write_reply en (bus_ops s)); simpl; [exact I | discriminate].
Qed.

Lemma safe_query_ascii k c :
  safe en (query_ascii_values k c) (fun vals => (2 <= length vals)%nat).
Proof.
  intros s r evs s' H. prim H.
  destruct (ascii_reply en (bus_ops s)) eqn:Hr; simpl; [| discriminate].
  exact (two_values _ _ Hr).
Qed.

Lemma safe_quiet {A} (m : M A) :
  (forall s, exists a evs s', run m en s = (Ok a, evs, s')) ->
  safe en m (fun _ => True).
Proof.
  intros Hm s r evs s' H. destruct (Hm s) as (a & e1 & s1 & Ha).
  rewrite Ha in H. now injection H as <- _ _.
Qed.

Lemma safe_index {A} (xs : list A) i :
  (i < length xs)%nat -> safe en (index xs i) (fun _ => True).
Proof.
  intros Hi s r evs s' H. unfold index in H.
  destruct (nth_error_within xs Hi) as [x Hx]. rewrite Hx in H.
  prim H. exact I.
Qed.

Lemma safe_count_points a b c : safe en (count_points a b c) (fun _ => True).
Proof.
  intros s r evs s' H. unfold count_points in H.
  destruct (Qeq_bool c 0); prim H; [discriminate | exact I].
Qed.

Lemma safe_for_range {V} (body : Z -> V -> M V) n :
  (forall i s, safe en (body i s) (fun _ => True)) ->
  forall i s, safe en (for_range n i body s) (fun _ => True).
Proof.
  intros Hb. induction n as [| n IH]; intros i s; simpl.
  - now apply safe_ret.
  - eapply safe_bind; [apply Hb | intros a _; apply IH].
Qed.

Ltac safe_steps :=
  repeat first
    [ apply safe_ret; exact I
    | apply safe_count_points
    | apply safe_write
    | eapply safe_bind; [apply safe_write | intros ? _]
    | eapply safe_bind; [apply safe_query_ascii | cbv beta; intros ? ?]
    | eapply safe_bind; [apply safe_index; lia | intros ? _]
    | eapply safe_bind; [apply safe_count_points | intros ? _]
    | eapply safe_bind;
        [apply safe_quiet; intros ?; do 3 eexists; reflexivity | intros ? _]
    | match goal with
      | |- safe en (if ?b then _ else _) _ => destruct b
      end ].

Lemma IV_step_safe Vmin step K start i d :
  safe en (IV.step Vmin step K start i d) (fun _ => True).
Proof.
  unfold IV.step. safe_steps.
  eapply safe_bind; [| intros ? _; apply safe_ret; exact I].
  destruct (Py.is_whole _);
    [apply safe_quiet; intros ?; do 3 eexists; reflexivity
    | now apply safe_ret].
Qed.

Lemma PV_step_safe Vmin step P R start i d :
  safe en (PV.step Vmin step P R start i d) (fun _ => True).
Proof.
  unfold PV.step. safe_steps.
  eapply safe_bind; [| intros ? _; apply safe_ret; exact I].
  destruct (Py.is_whole _);
    [apply safe_quiet; intros ?; do 3 eexists; reflexivity
    | now apply safe_ret].
Qed.

Lemma IV_acquire_safe p : safe en (IV.acquire p) (fun _ => True).
Proof.
  destruct p as [[[[Vmin Vmax] step] c] K].
  unfold IV.acquire, IV.start_sweep, IV.stepping, IV.shutdown.
  eapply safe_bind with (P := fun _ => True).
  - safe_steps.
  - intros [pts start] _.
    eapply safe_bind;
      [apply safe_for_range; intros; apply IV_step_safe | intros ? _].
    eapply safe_bind with (P := fun _ => True); [| intros ? _]; safe_steps.
Qed.

Lemma PV_acquire_safe p : safe en (PV.acquire p) (fun _ => True).
Proof.
  destruct p as [[[[[[[Vmin Vmax] step] c] P] R] bias] cr].
  unfold PV.acquire, PV.start_sweep, PV.stepping, PV.shutdown.
  eapply safe_bind with (P := fun _ => True).
  - safe_steps.
  - intros [pts start] _.
    eapply safe_bind;
      [apply safe_for_range; intros; apply PV_step_safe | intros ? _].
    eapply safe_bind with (P := fun _ => True); [| intros ? _]; safe_steps.
Qed.

End Safe.

(** ** A round that is cut short *)

Lemma write_raise {k c en s e evs s'} :
  run (write k c) en s = (Raise e, evs, s') -> evs = [EWrite k c (Raise e)].
Proof.
  unfold run, write, answered. intros H. injection H as Hr <- _.
  now rewrite Hr.
Qed.

Lemma query_ascii_raise {k c en s e evs s'} :
  run (query_ascii_values k c) en s = (Raise e, evs, s') ->
  evs = [EQueryAscii k c (Raise e)].
Proof.
  unfold run, query_ascii_values, answered. intros H. injection H as Hr <- _.
  now rewrite Hr.
Qed.

(** What a round of the single-instrument loop did when it raised [e]: the
    write failed, or the query failed, or the answer had no index 1. *)
Lemma IV_step_raise {Vmin step K start i d en s e evs s'} :
  run (IV.step Vmin step K start i d) en s = (Raise e, evs, s') ->
  let v := (Vmin + inject_Z i * step)%Q in
  evs = [EWrite K (FString ":SOUR:VOLT " v) (Raise e)]
  \/ (exists now,
         evs = [EWrite K (FString ":SOUR:VOLT " v) (Ok tt); ESleep (5 # 100);
                ETime now; EQueryAscii K (Literal ":READ?") (Raise e)])
  \/ (exists now vals,
         evs = [EWrite K (FString ":SOUR:VOLT " v) (Ok tt); ESleep (5 # 100);
                ETime now; EQueryAscii K (Literal ":READ?") (Ok vals)]
         /\ nth_error vals 1 = None /\ e = IndexError).
Proof.
  intros H v. unfold IV.step in H. fold v in H.
  split_run H; [| left; exact (write_raise Hhead)]. ok_step Hhead.
  split_run H; [| discriminate Hhead]. ok_step Hhead.
  split_run H; [| discriminate Hhead]. ok_step Hhead.
  split_run H;
    [| right; left; eexists; now rewrite (query_ascii_raise Hhead)].
  ok_step Hhead.
  split_run H.
  - ok_step Hhead. split_run H.
    + discriminate H.
    + destruct (Py.is_whole v); discriminate Hhead.
  - apply index_raise in Hhead. destruct Hhead as (Hn & -> & -> & ->).
    right; right. do 2 eexists. repeat split. exact Hn.
Qed.

(** What a round of the dual-instrument loop did when it raised [e]: the
    write failed, or one of the three queries failed, or one of the three
    answers lacked the index taken from it. *)
Lemma PV_step_raise {Vmin step P R start i d en s e evs s'} :
  run (PV.step Vmin step P R start i d) en s = (Raise e, evs, s') ->
  let v := (Vmin + inject_Z i * step)%Q in
  let w := EWrite P (FString ":SOUR:VOLT " v) (Ok tt) in
  let z := ESleep (5 # 100) in
  let q k ans := EQueryAscii k (Literal ":READ?") ans in
  evs = [EWrite P (FString ":SOUR:VOLT " v) (Raise e)]
  \/ (exists now, evs = [w; z; ETime now; q P (Raise e)])
  \/ (exists now r0,
         evs = [w; z; ETime now; q P (Ok r0)]
         /\ nth_error r0 1 = None /\ e = IndexError)
  \/ (exists now r0,
         evs = [w; z; ETime now; q P (Ok r0); q R (Raise e)]
         /\ nth_error r0 1 <> None)
  \/ (exists now r0 r1,
         evs = [w; z; ETime now; q P (Ok r0); q R (Ok r1)]
         /\ nth_error r0 1 <> None
         /\ nth_error r1 0 = None /\ e = IndexError)
  \/ (exists now r0 r1,
         evs = [w; z; ETime now; q P (Ok r0); q R (Ok r1); q R (Raise e)]
         /\ nth_error r0 1 <> None /\ nth_error r1 0 <> None)
  \/ (exists now r0 r1 r2,
         evs = [w; z; ETime now; q P (Ok r0); q R (Ok r1); q R (Ok r2)]
         /\ nth_error r0 1 <> None /\ nth_error r1 0 <> None
         /\ nth_error r2 1 = None /\ e = IndexError).
Proof.
  intros H v w z q. unfold PV.step in H. fold v in H.
  split_run H; [| left; exact (write_raise Hhead)]. ok_step Hhead.
  split_run H; [| discriminate Hhead]. ok_step Hhead.
  split_run H; [| discriminate Hhead]. ok_step Hhead.
  split_run H;
    [| right; left; eexists; now rewrite (query_ascii_raise Hhead)].
  ok_step Hhead.
  split_run H.
  2:{ apply index_raise in Hhead. destruct Hhead as (Hn & -> & -> & ->).
      do 2 right; left. do 2 eexists. repeat split. exact Hn. }
  ok_step Hhead.
  split_run H.
  2:{ do 3 right; left. do 2 eexists.
      rewrite (query_ascii_raise Hhead). split; [reflexivity | congruence]. }
  ok_step Hhead.
  split_run H.
  2:{ apply index_raise in Hhead. destruct Hhead as (Hn & -> & -> & ->).
      do 4 right; left. do 3 eexists.
      split; [reflexivity |]. split; [congruence | auto]. }
  ok_step Hhead.
  split_run H.
  2:{ do 5 right; left. do 3 eexists.
      rewrite (query_ascii_raise Hhead).
      split; [reflexivity |]. split; congruence. }
  ok_step Hhead.
  split_run H.
  2:{ apply index_raise in Hhead. destruct Hhead as (Hn & -> & -> & ->).
      do 6 right. do 4 eexists.
      split; [reflexivity |]. repeat split; congruence. }
  ok_step Hhead. split_run H.
  - discriminate H.
  - destruct (Py.is_whole v); discriminate Hhead.
Qed.

(** ** The data holders after the instrument phase *)

Lemma IV_acquire_lengths {p en s pts d evs s'} :
  run (IV.acquire p) en s = (Ok (pts, d), evs, s') ->
  length (IV.t_values d) = range_len pts
  /\ length (IV.voltage_values d) = range_len pts
  /\ length (IV.current_values d) = range_len pts
  /\ length (IV.power_values d) = range_len pts.
Proof.
  destruct p as [[[[Vmin Vmax] step] c] K]. intros Hacq.
  destruct (IV_acquire_ok Hacq) as (start & ea & sa & eb & sb & _ & H1 & _).
  unfold IV.stepping in H1.
  destruct (IV_loop_ok _ _ _ _ _ _ _ _ _ _ _ _ H1) as (_ & Hv & Ht & Hc & Hp).
  simpl in Hv, Ht, Hc, Hp.
  rewrite Ht, Hv, !length_map, length_seq, zseq_length. auto.
Qed.

Lemma PV_acquire_lengths {p en s pts d evs s'} :
  run (PV.acquire p) en s = (Ok (pts, d), evs, s') ->
  length (PV.t_values d) = range_len pts /\ PV.filled d (range_len pts).
Proof.
  destruct p as [[[[[[[Vmin Vmax] step] c] P] R] bias] cr]. intros Hacq.
  destruct (PV_acquire_ok Hacq) as (start & ea & sa & eb & sb & _ & H1 & _).
  unfold PV.stepping in H1.
  destruct (PV_loop_ok _ _ _ _ _ _ _ _ _ _ _ _ _ H1)
    as (_ & Hv & Ht & Hc & Hp & Hv1 & Hc1 & Hp1 & Hp2).
  simpl in Hv, Ht, Hc, Hp, Hv1, Hc1, Hp1, Hp2.
  assert (Lt : length (PV.t_values d) = range_len pts)
    by (now rewrite Ht, length_map, length_seq).
  assert (Lv : length (PV.voltage_values d) = range_len pts)
    by (now rewrite Hv, length_map, zseq_length).
  split; [exact Lt |]. unfold PV.filled. repeat split; lia.
Qed.

Lemma IV_save_refused pts d en s errno :
  open_reply en = Some errno ->
  fst (fst (run (IV.save pts d) en s)) = Raise (OSError errno).
Proof.
  intros Hopen. unfold IV.save, run, bind, input, with_open.
  now rewrite Hopen.
Qed.

Lemma PV_save_refused pts d en s errno :
  open_reply en = Some errno ->
  fst (fst (run (PV.save pts d) en s)) = Raise (OSError errno).
Proof.
  intros Hopen. unfold PV.save, run, bind, input, with_open.
  now rewrite Hopen.
Qed.

Lemma IV_sweep_safe en p :
  (forall n vals, ascii_reply en n = Reply vals -> (2 <= length vals)%nat) ->
  forall s r evs s',
    run (IV.Keithley_VOLTAGE_SWEEP p) en s = (r, evs, s') ->
    r <> Raise IndexError.
Proof.
  intros Htwo s r evs s' H. unfold IV.Keithley_VOLTAGE_SWEEP in H.
  split_run H.
  - destruct a as [pts d].
    destruct (IV_acquire_lengths Hhead) as (Lt & Lv & Lc & Lp).
    split_run H.
    + unfold run, IV.plot in H. now injection H as <- _ _.
    + destruct (open_reply en) as [errno |] eqn:Hopen.
      * pose proof (IV_save_refused pts d en s0 errno Hopen) as Hr.
        rewrite Hhead0 in Hr. simpl in Hr. congruence.
      * destruct (IV_save_ok pts d en s0 Hopen Lt Lv Lc Lp) as [Hok _].
        congruence.
  - pose proof (IV_acquire_safe en Htwo p _ _ _ _ Hhead) as Hs.
    simpl in Hs. congruence.
Qed.

Lemma PV_sweep_safe en p :
  (forall n vals, ascii_reply en n = Reply vals -> (2 <= length vals)%nat) ->
  forall s r evs s',
    run (PV.Keithley_VOLTAGE_SWEEP p) en s = (r, evs, s') ->
    r <> Raise IndexError.
Proof.
  intros Htwo s r evs s' H. unfold PV.Keithley_VOLTAGE_SWEEP in H.
  split_run H.
  - destruct a as [pts d].
    destruct (PV_acquire_lengths Hhead) as (Lt & Hfill).
    destruct p as [[[[[[[Vmin Vmax] step] c] P] R] bias] cr].
    split_run H.
    + unfold run, PV.plot in H. now injection H as <- _ _.
    + destruct (open_reply en) as [errno |] eqn:Hopen.
      * pose proof (PV_save_refused pts d en s0 errno Hopen) as Hr.
        rewrite Hhead0 in Hr. simpl in Hr. congruence.
      * destruct (PV_save_ok pts d en s0 Hopen Lt Hfill) as [Hok _].
        congruence.
  - pose proof (PV_acquire_safe en Htwo p _ _ _ _ Hhead) as Hs.
    simpl in Hs. congruence.
Qed.

Lemma short_has_no_index_1 {A} (vals : list A) :
  (length vals < 2)%nat -> nth_error vals 1 = None.
Proof. intros H. apply nth_error_None. lia. Qed.

(** ** The initializers *)

Lemma IV_plot_formats_nothing d :
  emits (fun ev => match ev with
                   | EWrite _ (FString prefix _) _ => prefix = ":SOUR:VOLT "
                   | _ => True
                   end) (IV.plot d).
Proof.
  intros en s r evs s' H. unfold run, IV.plot in H.
  injection H as <- <- <-. now repeat constructor.
Qed.

Lemma IV_main_formats_voltages_only :
  emits (fun ev => match ev with
                   | EWrite _ (FString prefix _) _ => prefix = ":SOUR:VOLT "
                   | _ => True
                   end) IV.main.
Proof.
  unfold IV.main, IV.initialize_Keithley, IV.Keithley_VOLTAGE_SWEEP,
    IV.acquire, IV.start_sweep, IV.stepping, IV.shutdown, IV.step, IV.save,
    IV.data_line.
  emits_steps; try exact I; try reflexivity.
  all: apply IV_plot_formats_nothing.
Qed.

(** The initializer of the dual-instrument script, when it runs to its end,
    returns the handle of the address it was given, after the reset, source
    function, zero voltage, the compliance current it was given,
    auto-ranging and measurement function. *)
Lemma PV_initialize_Keithley_ok {name c en s k evs s'} :
  run (PV.initialize_Keithley name c) en s = (Ok k, evs, s') ->
  k = name
  /\ exists idn,
      evs = [EPrint "----------RESOURCES-------------";
             EPrint (list_resources en);
             EPrint newline;
             EOpenResource name (Ok tt);
             EPrint "----------INSTRUMENT-------------";
             EQuery name (Literal "*IDN?") (Ok idn);
             EPrint idn;
             EPrint newline;
             EWrite name (Literal "*rst; status:preset;") (Ok tt);
             EWrite name (Literal ":SOUR:FUNC VOLT") (Ok tt);
             EWrite name (Literal ":SOUR:VOLT 0") (Ok tt);
             EWrite name (FString ":SENS:CURR:PROT " c) (Ok tt);
             EWrite name (Literal ":SENS:CURR:RANG:AUTO ON") (Ok tt);
             EWrite name (Literal (":SENS:FUNC " ++ dquote ++ "CURR" ++ dquote))
                    (Ok tt)].
Proof.
  unfold PV.initialize_Keithley. intros H.
  split_run H. ok_step Hhead.
  split_run H. ok_step Hhead.
  split_run H. ok_step Hhead.
  split_run H. ok_step Hhead.
  split_run H. ok_step Hhead.
  split_run H. ok_step Hhead.
  split_run H. ok_step Hhead.
  split_run H. ok_step Hhead.
  split_run H. ok_step Hhead.
  split_run H. ok_step Hhead.
  split_run H. ok_step Hhead.
  split_run H. ok_step Hhead.
  split_run H. ok_step Hhead.
  split_run H. ok_step Hhead. ok_step H.
  split; [reflexivity |]. eexists. reflexivity.
Qed.

(** ** Truncation toward zero *)




(** ** Running the phases forward *)








(** ** Events of a loop whose rounds depend on the index *)


Lemma emits_bind_post (Q : event -> Prop) {A B} (m : M A) (f : A -> M B)
    (Post : A -> Prop) :
  emits Q m ->
  (forall en s a evs s', run m en s = (Ok a, evs, s') -> Post a) ->
  (forall a, Post a -> emits Q (f a)) ->
  emits Q (bind m f).
Proof.
  intros Hm Hpost Hf en s r evs s' H. split_run H.
  - apply Forall_app. split; [eapply Hm; eassumption |].
    eapply Hf; [eapply Hpost |]; eassumption.
  - eapply Hm; eassumption.
Qed.




(** ** The commanded voltages lie between the two ends of the range *)






(** ** What each round of a completed loop recorded *)

Lemma IV_loop_rows n : forall Vmin step K start i d en s d' evs s',
  run (for_range n i (IV.step Vmin step K start) d) en s = (Ok d', evs, s') ->
  s' = mkCounters (bus_ops s + 2 * n) (clock_reads s + n)
  /\ exists cs ps,
      IV.current_values d' = (IV.current_values d ++ cs)%list
      /\ IV.power_values d' = (IV.power_values d ++ ps)%list
      /\ forall k, (k < n)%nat ->
           exists reading current,
             ascii_reply en (S (bus_ops s) + 2 * k) = Reply reading
             /\ nth_error reading 1 = Some current
             /\ nth_error cs k = Some current
             /\ nth_error ps k
                = Some ((Vmin + inject_Z (i + Z.of_nat k) * step) * current).
Proof.
  induction n as [| n IH]; intros Vmin step K start i d en s d' evs s' H.
  - simpl in H. ok_step H. split.
    + destruct s. simpl. now rewrite !Nat.add_0_r.
    + exists [], []. rewrite !app_nil_r.
      split; [reflexivity |]. split; [reflexivity |]. intros k Hk. lia.
  - cbn [for_range] in H. split_run H.
    destruct (IV_step_ok Hhead)
      as (reading & current & Hreply & Hcur & -> & -> & ->).
    apply IH in H. destruct H as (-> & cs & ps & Hc & Hp & Hrows).
    cbn [bus_ops clock_reads IV.current_values IV.power_values] in *.
    split; [f_equal; lia |].
    exists (current :: cs), (((Vmin + inject_Z i * step) * current)%Q :: ps).
    rewrite Hc, Hp, <- !app_assoc.
    split; [reflexivity |]. split; [reflexivity |].
    intros [| k] Hk.
    + exists reading, current.
      replace (S (bus_ops s) + 2 * 0)%nat with (S (bus_ops s)) by lia.
      replace (i + Z.of_nat 0)%Z with i by lia. auto.
    + destruct (Hrows k) as (rd & cu & H1 & H2 & H3 & H4); [lia |].
      exists rd, cu.
      replace (S (bus_ops s) + 2 * S k)%nat
        with (S (S (S (bus_ops s))) + 2 * k)%nat by lia.
      replace (i + Z.of_nat (S k))%Z with (i + 1 + Z.of_nat k)%Z by lia.
      auto.
Qed.

Lemma PV_loop_rows n : forall Vmin step P R start i d en s d' evs s',
  run (for_range n i (PV.step Vmin step P R start) d) en s = (Ok d', evs, s') ->
  s' = mkCounters (bus_ops s + 4 * n) (clock_reads s + n)
  /\ exists cs ps vs1 cs1 ps1 ps2,
      PV.current_values d' = (PV.current_values d ++ cs)%list
      /\ PV.power_values d' = (PV.power_values d ++ ps)%list
      /\ PV.voltage_1_values d' = (PV.voltage_1_values d ++ vs1)%list
      /\ PV.current_1_values d' = (PV.current_1_values d ++ cs1)%list
      /\ PV.power_1_values d' = (PV.power_1_values d ++ ps1)%list
      /\ PV.power_2_values d' = (PV.power_2_values d ++ ps2)%list
      /\ forall k, (k < n)%nat ->
           exists reading reading_1 reading_2 current voltage_1 current_1,
             ascii_reply en (1 + bus_ops s + 4 * k) = Reply reading
             /\ ascii_reply en (2 + bus_ops s + 4 * k) = Reply reading_1
             /\ ascii_reply en (3 + bus_ops s + 4 * k) = Reply reading_2
             /\ nth_error reading 1 = Some current
             /\ nth_error reading_1 0 = Some voltage_1
             /\ nth_error reading_2 1 = Some current_1
             /\ nth_error cs k = Some current
             /\ nth_error ps k
                = Some ((Vmin + inject_Z (i + Z.of_nat k) * step) * current)
             /\ nth_error vs1 k = Some voltage_1
             /\ nth_error cs1 k = Some current_1
             /\ nth_error ps1 k = Some (voltage_1 * current_1)
             /\ nth_error ps2 k
                = Some ((Vmin + inject_Z (i + Z.of_nat k) * step) * current_1).
Proof.
  induction n as [| n IH]; intros Vmin step P R start i d en s d' evs s' H.
  - simpl in H. ok_step H. split.
    + destruct s. simpl. now rewrite !Nat.add_0_r.
    + exists [], [], [], [], [], []. rewrite !app_nil_r.
      do 6 (split; [reflexivity |]). intros k Hk. lia.
  - cbn [for_range] in H. split_run H.
    destruct (PV_step_ok Hhead)
      as (r0 & r1 & r2 & c0 & v1 & c1 & Hr0 & Hr1 & Hr2 & Hc0 & Hv1 & Hc1
          & -> & -> & ->).
    apply IH in H.
    destruct H as (-> & cs & ps & vs1 & cs1 & ps1 & ps2
                   & Hc & Hp & Hvs1 & Hcs1 & Hps1 & Hps2 & Hrows).
    cbn [bus_ops clock_reads PV.current_values PV.power_values
         PV.voltage_1_values PV.current_1_values PV.power_1_values
         PV.power_2_values] in *.
    split; [f_equal; lia |].
    exists (c0 :: cs), (((Vmin + inject_Z i * step) * c0)%Q :: ps),
      (v1 :: vs1), (c1 :: cs1), ((v1 * c1)%Q :: ps1),
      (((Vmin + inject_Z i * step) * c1)%Q :: ps2).
    rewrite Hc, Hp, Hvs1, Hcs1, Hps1, Hps2, <- !app_assoc.
    do 6 (split; [reflexivity |]).
    intros [| k] Hk.
    + exists r0, r1, r2, c0, v1, c1.
      replace (1 + bus_ops s + 4 * 0)%nat with (1 + bus_ops s)%nat by lia.
      replace (2 + bus_ops s + 4 * 0)%nat with (2 + bus_ops s)%nat by lia.
      replace (3 + bus_ops s + 4 * 0)%nat with (3 + bus_ops s)%nat by lia.
      replace (i + Z.of_nat 0)%Z with i by lia.
      repeat split; assumption.
    + destruct (Hrows k)
        as (q0 & q1 & q2 & d0 & w1 & d1 & H1 & H2 & H3 & H4 & H5 & H6 & H7
            & H8 & H9 & H10 & H11 & H12); [lia |].
      exists q0, q1, q2, d0, w1, d1.
      replace (1 + bus_ops s + 4 * S k)%nat
        with (1 + (4 + bus_ops s) + 4 * k)%nat by lia.
      replace (2 + bus_ops s + 4 * S k)%nat
        with (2 + (4 + bus_ops s) + 4 * k)%nat by lia.
      replace (3 + bus_ops s + 4 * S k)%nat
        with (3 + (4 + bus_ops s) + 4 * k)%nat by lia.
      replace (i + Z.of_nat (S k))%Z with (i + 1 + Z.of_nat k)%Z by lia.
      repeat split; assumption.
Qed.

Lemma nth_error_map_seq {A} (f : nat -> A) a n i :
  (i < n)%nat -> nth_error (map f (seq a n)) i = Some (f (a + i)%nat).
Proof.
  intros Hi. rewrite nth_error_map.
  rewrite (nth_error_nth' (seq a n) 0%nat) by (now rewrite length_seq).
  simpl. now rewrite seq_nth.
Qed.

Lemma IV_start_sweep_clock {Vmin Vmax step c K en s pts start evs s'} :
  run (IV.start_sweep (Vmin, Vmax, step, c, K)) en s
    = (Ok (pts, start), evs, s') ->
  start = clock en (clock_reads s).
Proof.
  unfold IV.start_sweep. intros H. do 3 split_run H.
  apply count_points_ok in Hhead. destruct Hhead as (Hz & -> & -> & ->).
  ok_step Hhead0. apply time_ok in Hhead1. destruct Hhead1 as (-> & _).
  apply ret_ok in H. destruct H as (Heq & _). now injection Heq as _ <-.
Qed.

Lemma PV_start_sweep_clock
    {Vmin Vmax step c P R bias cr en s pts start evs s'} :
  run (PV.start_sweep (Vmin, Vmax, step, c, P, R, bias, cr)) en s
    = (Ok (pts, start), evs, s') ->
  start = clock en (clock_reads s).
Proof.
  unfold PV.start_sweep. intros H. do 6 split_run H.
  apply count_points_ok in Hhead. destruct Hhead as (Hz & -> & -> & ->).
  ok_step Hhead0. ok_step Hhead1. ok_step Hhead2. ok_step Hhead3.
  apply time_ok in Hhead4. destruct Hhead4 as (-> & _).
  apply ret_ok in H. destruct H as (Heq & _). now injection Heq as _ <-.
Qed.

(** ** The bus operations and the waits of a run *)

Lemma requests_app e1 e2 :
  requests (e1 ++ e2) = (requests e1 ++ requests e2)%list.
Proof.
  induction e1 as [| ev e1 IH]; simpl; [reflexivity |].
  destruct ev; simpl; now rewrite ?IH.
Qed.

Lemma sleeps_app e1 e2 : sleeps (e1 ++ e2) = (sleeps e1 ++ sleeps e2)%list.
Proof.
  induction e1 as [| ev e1 IH]; simpl; [reflexivity |].
  destruct ev; simpl; now rewrite ?IH.
Qed.

(** An event that is neither a bus operation nor a wait. *)
Lemma silent_events evs :
  Forall (fun ev => requests [ev] = [] /\ sleeps [ev] = []) evs ->
  requests evs = [] /\ sleeps evs = [].
Proof.
  induction 1 as [| ev evs [Hr Hs] _ [IHr IHs]]; [split; reflexivity |].
  change (ev :: evs) with ([ev] ++ evs)%list.
  now rewrite requests_app, sleeps_app, Hr, Hs, IHr, IHs.
Qed.

Lemma IV_after_acquire_silent {p en s pts d e0 s0 r evs s'} :
  run (IV.acquire p) en s = (Ok (pts, d), e0, s0) ->
  run (IV.Keithley_VOLTAGE_SWEEP p) en s = (r, evs, s') ->
  requests evs = requests e0 /\ sleeps evs = sleeps e0.
Proof.
  intros Hacq Hrun. unfold IV.Keithley_VOLTAGE_SWEEP in Hrun.
  rewrite (run_bind_ok _ Hacq) in Hrun.
  destruct (run (IV.save pts d ;; IV.plot d) en s0) as [[r2 e2] s2] eqn:Hrest.
  injection Hrun as <- <- <-.
  assert (Hsilent : Forall (fun ev => requests [ev] = [] /\ sleeps [ev] = [])
                           e2).
  { revert Hrest. apply emits_bind.
    - unfold IV.save, IV.data_line. emits_steps; split; reflexivity.
    - intros _ en' s' r' evs' s'' H. unfold run, IV.plot in H.
      injection H as <- <- <-. repeat constructor. }
  destruct (silent_events _ Hsilent) as [Hr Hs].
  now rewrite requests_app, sleeps_app, Hr, Hs, !app_nil_r.
Qed.

Lemma PV_after_acquire_silent {p en s pts d e0 s0 r evs s'} :
  run (PV.acquire p) en s = (Ok (pts, d), e0, s0) ->
  run (PV.Keithley_VOLTAGE_SWEEP p) en s = (r, evs, s') ->
  requests evs = requests e0 /\ sleeps evs = sleeps e0.
Proof.
  intros Hacq Hrun. unfold PV.Keithley_VOLTAGE_SWEEP in Hrun.
  rewrite (run_bind_ok _ Hacq) in Hrun.
  destruct p as [[[[[[[Vmin Vmax] step] c] P] R] bias] cr].
  destruct (run (PV.save pts d ;; PV.plot P R d) en s0)
    as [[r2 e2] s2] eqn:Hrest.
  injection Hrun as <- <- <-.
  assert (Hsilent : Forall (fun ev => requests [ev] = [] /\ sleeps [ev] = [])
                           e2).
  { revert Hrest. apply emits_bind.
    - unfold PV.save, PV.data_line. emits_steps; split; reflexivity.
    - intros _ en' s' r' evs' s'' H. unfold run, PV.plot in H.
      injection H as <- <- <-. repeat constructor. }
  destruct (silent_events _ Hsilent) as [Hr Hs].
  now rewrite requests_app, sleeps_app, Hr, Hs, !app_nil_r.
Qed.

Lemma IV_loop_traffic n : forall Vmin step K start i d en s d' evs s',
  run (for_range n i (IV.step Vmin step K start) d) en s = (Ok d', evs, s') ->
  requests evs
  = flat_map (fun j => [Written K (FString ":SOUR:VOLT "
                                           (Vmin + inject_Z j * step));
                        Asked K (Literal ":READ?")])
             (zseq i n)
  /\ sleeps evs = repeat (5 # 100) n.
Proof.
  induction n as [| n IH]; intros Vmin step K start i d en s d' evs s' H.
  - simpl in H. ok_step H. split; reflexivity.
  - cbn [for_range] in H. split_run H.
    destruct (IV_step_ok Hhead) as (reading & current & _ & _ & -> & _ & _).
    apply IH in H. destruct H as [Hr Hs].
    rewrite requests_app, sleeps_app, Hr, Hs.
    destruct (Py.is_whole (Vmin + inject_Z i * step)); split; reflexivity.
Qed.

Lemma PV_loop_traffic n : forall Vmin step P R start i d en s d' evs s',
  run (for_range n i (PV.step Vmin step P R start) d) en s = (Ok d', evs, s') ->
  requests evs
  = flat_map (fun j => [Written P (FString ":SOUR:VOLT "
                                           (Vmin + inject_Z j * step));
                        Asked P (Literal ":READ?");
                        Asked R (Literal ":READ?");
                        Asked R (Literal ":READ?")])
             (zseq i n)
  /\ sleeps evs = repeat (5 # 100) n.
Proof.
  induction n as [| n IH]; intros Vmin step P R start i d en s d' evs s' H.
  - simpl in H. ok_step H. split; reflexivity.
  - cbn [for_range] in H. split_run H.
    destruct (PV_step_ok Hhead)
      as (r0 & r1 & r2 & c0 & v1 & c1 & _ & _ & _ & _ & _ & _ & -> & _ & _).
    apply IH in H. destruct H as [Hr Hs].
    rewrite requests_app, sleeps_app, Hr, Hs.
    destruct (Py.is_whole (Vmin + inject_Z i * step)); split; reflexivity.
Qed.

(** ** The whole scripts *)

Lemma failstop_query k c : failstop (query k c).
Proof.
  intros en s r evs s' H. prim H. apply stops_single.
  simpl. destruct (query_reply en (bus_ops s)); simpl; [tauto | congruence].
Qed.

Lemma query_raise {k c en s e evs s'} :
  run (query k c) en s = (Raise e, evs, s') -> evs = [EQuery k c (Raise e)].
Proof.
  unfold run, query, answered. intros H. injection H as Hr <- _.
  now rewrite Hr.
Qed.

Lemma open_resource_raise {name en s e evs s'} :
  run (open_resource name) en s = (Raise e, evs, s') ->
  evs = [EOpenResource name (Raise e)].
Proof.
  unfold run, open_resource.
  destruct (raised (open_resource_reply en name)); [discriminate |].
  intros H. now injection H as <- <- _.
Qed.

Lemma IV_initialize_failstop : failstop IV.initialize_Keithley.
Proof.
  unfold IV.initialize_Keithley. failstop_steps; apply failstop_query.
Qed.

Lemma PV_initialize_failstop name c : failstop (PV.initialize_Keithley name c).
Proof.
  unfold PV.initialize_Keithley. failstop_steps; apply failstop_query.
Qed.

Lemma IV_sweep_failstop p : failstop (IV.Keithley_VOLTAGE_SWEEP p).
Proof.
  unfold IV.Keithley_VOLTAGE_SWEEP. apply failstop_bind.
  - unfold IV.acquire, IV.start_sweep, IV.stepping, IV.shutdown, IV.step.
    failstop_steps.
  - intros [pts d]. apply failstop_quiet.
    apply emits_bind; [apply IV_save_quiet | intros _; apply IV_plot_quiet].
Qed.

Lemma PV_sweep_failstop p : failstop (PV.Keithley_VOLTAGE_SWEEP p).
Proof.
  unfold PV.Keithley_VOLTAGE_SWEEP. apply failstop_bind.
  - unfold PV.acquire, PV.start_sweep, PV.stepping, PV.shutdown, PV.step.
    failstop_steps.
  - intros [pts d]. destruct p as [[[[[[[Vmin Vmax] step] c] P] R] bias] cr].
    apply failstop_quiet.
    apply emits_bind; [apply PV_save_quiet | intros _; apply PV_plot_quiet].
Qed.

Lemma failstop_close k : failstop (close k).
Proof. apply failstop_quiet. emits_steps. reflexivity. Qed.

Lemma closed_app e1 e2 : closed (e1 ++ e2) = (closed e1 ++ closed e2)%list.
Proof.
  induction e1 as [| ev e1 IH]; simpl; [reflexivity |].
  destruct ev; simpl; now rewrite ?IH.
Qed.

Lemma closed_none evs :
  Forall (fun ev => closed [ev] = []) evs -> closed evs = [].
Proof.
  induction 1 as [| ev evs Hev _ IH]; [reflexivity |].
  change (ev :: evs) with ([ev] ++ evs)%list.
  now rewrite closed_app, Hev, IH.
Qed.

Lemma IV_initialize_never_closes :
  emits (fun ev => closed [ev] = []) IV.initialize_Keithley.
Proof. unfold IV.initialize_Keithley. emits_steps; reflexivity. Qed.

Lemma PV_initialize_never_closes name c :
  emits (fun ev => closed [ev] = []) (PV.initialize_Keithley name c).
Proof. unfold PV.initialize_Keithley. emits_steps; reflexivity. Qed.

Lemma IV_sweep_never_closes p :
  emits (fun ev => closed [ev] = []) (IV.Keithley_VOLTAGE_SWEEP p).
Proof.
  unfold IV.Keithley_VOLTAGE_SWEEP, IV.acquire, IV.start_sweep, IV.stepping,
    IV.shutdown, IV.step, IV.save, IV.data_line.
  emits_steps; try reflexivity.
  intros ? ? ? ? ? H. unfold run, IV.plot in H.
  injection H as <- <- <-. now repeat constructor.
Qed.

Lemma PV_sweep_never_closes p :
  emits (fun ev => closed [ev] = []) (PV.Keithley_VOLTAGE_SWEEP p).
Proof.
  unfold PV.Keithley_VOLTAGE_SWEEP, PV.acquire, PV.start_sweep, PV.stepping,
    PV.shutdown, PV.step, PV.save, PV.data_line.
  emits_steps; try reflexivity.
  intros ? ? ? ? ? H. unfold run, PV.plot in H.
  injection H as <- <- <-. now repeat constructor.
Qed.

Lemma IV_initialize_Keithley_ok {en s k evs s'} :
  run IV.initialize_Keithley en s = (Ok k, evs, s') ->
  k = "GPIB0::12::INSTR"
  /\ exists idn,
      evs = [EPrint "----------RESOURCES-------------";
             EPrint (list_resources en);
             EPrint newline;
             EOpenResource k (Ok tt);
             EPrint "----------INSTRUMENT-------------";
             EQuery k (Literal "*IDN?") (Ok idn);
             EPrint idn;
             EPrint newline;
             EWrite k (Literal "*rst; status:preset;") (Ok tt);
             EWrite k (Literal ":SOUR:FUNC VOLT") (Ok tt);
             EWrite k (Literal ":SOUR:VOLT 0") (Ok tt);
             EWrite k (Literal ":SENS:CURR:PROT 150E-3") (Ok tt);
             EWrite k (Literal ":SENS:CURR:RANG:AUTO ON") (Ok tt);
             EWrite k (Literal (":SENS:FUNC " ++ dquote ++ "CURR" ++ dquote))
                    (Ok tt)].
Proof.
  unfold IV.initialize_Keithley. intros H.
  do 14 (split_run H; ok_step Hhead). ok_step H.
  split; [reflexivity |]. eexists. reflexivity.
Qed.

(** Walk through the run [H] of a sequence of prints, queries and writes:
    every step either succeeded, and the walk goes on, or raised, and its
    event is the last one. *)
Ltac walk_step H :=
  let a := fresh "a" in
  let e1 := fresh "evs" in
  let s1 := fresh "s" in
  let e2 := fresh "evs" in
  let e := fresh "e" in
  let Hh := fresh "Hstep" in
  let H2 := fresh "Hrest" in
  let Hev := fresh "Hevs" in
  let Hr := fresh "Hout" in
  apply run_bind_inv in H;
  destruct H as [(a & e1 & s1 & e2 & Hh & H2 & Hev) | (e & Hh & Hr)];
  [ rename H2 into H; try subst; ok_step Hh
  | try subst;
    first [ apply write_raise in Hh
          | apply query_raise in Hh
          | apply open_resource_raise in Hh
          | unfold run, print in Hh; discriminate Hh ];
    try subst ].

Ltac walk H := repeat walk_step H.

Lemma open_resource_refused {name en s status} :
  open_resource_reply en name = BusError status ->
  run (open_resource name) en s
  = (Raise (VisaIOError status),
     [EOpenResource name (Raise (VisaIOError status))], s).
Proof. unfold run, open_resource. now intros ->. Qed.

(** ** The compliance commands of the dual-instrument script *)

Lemma PV_initialize_compliance name c P R cP cR :
  (name = P /\ c = cP) \/ (name = R /\ c = cR) ->
  emits (compliance_as_configured P R cP cR) (PV.initialize_Keithley name c).
Proof.
  intros Hcase. unfold PV.initialize_Keithley.
  do 3 (apply emits_bind; [emits_steps; exact I | intros _]).
  apply emits_bind_post with (Post := fun k => k = name).
  - emits_steps. exact I.
  - intros en s a evs s' H. now destruct (open_resource_ok H).
  - intros k ->. emits_steps; simpl; try exact I; try reflexivity.
    intros _. exact Hcase.
Qed.

Lemma PV_sweep_compliance Vmin Vmax step c P R bias cr cP :
  emits (compliance_as_configured P R cP cr)
        (PV.Keithley_VOLTAGE_SWEEP (Vmin, Vmax, step, c, P, R, bias, cr)).
Proof.
  unfold PV.Keithley_VOLTAGE_SWEEP, PV.acquire, PV.start_sweep, PV.stepping,
    PV.shutdown, PV.step, PV.save, PV.data_line.
  emits_steps; simpl; try exact I; try reflexivity; try discriminate.
  - intros _. right. split; reflexivity.
  - intros ? ? ? ? ? H. unfold run, PV.plot in H.
    injection H as <- <- <-. now repeat constructor.
Qed.

(** ** The number that a printed text denotes *)

Lemma digit_value_digit d : (0 <= d < 10)%Z -> digit_value (Py.digit d) = d.
Proof.
  intros H. unfold digit_value, Py.digit.
  rewrite nat_ascii_embedding by lia. lia.
Qed.

Lemma read_digits_run text : forall rest acc scale,
  all_digits text = true ->
  read_digits (text ++ rest) acc scale
  = read_digits rest (digits_number acc text)
      (option_map (Z.mul (10 ^ Z.of_nat (String.length text))) scale).
Proof.
  induction text as [| c text IH]; intros rest acc scale Hd.
  - simpl. destruct scale as [k |]; simpl; [| reflexivity].
    f_equal. f_equal. destruct k; reflexivity.
  - simpl in Hd. apply andb_prop in Hd as [Hc Hd].
    cbn [append read_digits]. rewrite Hc, IH by exact Hd.
    cbn [digits_number]. f_equal.
    destruct scale as [k |]; cbn [option_map]; [| reflexivity].
    f_equal. cbn [String.length]. rewrite Nat2Z.inj_succ, Z.pow_succ_r by lia.
    ring.
Qed.

Lemma digits_number_append a : forall b acc,
  digits_number acc (a ++ b) = digits_number (digits_number acc a) b.
Proof.
  induction a as [| c a IH]; intros b acc; simpl; [reflexivity |].
  apply IH.
Qed.

Lemma digits_number_fixed width : forall n acc,
  (0 <= n)%Z ->
  digits_number acc (Py.fixed_digits width n)
  = (acc * 10 ^ Z.of_nat width + n mod 10 ^ Z.of_nat width)%Z.
Proof.
  induction width as [| w IH]; intros n acc Hn.
  - simpl. rewrite Z.mod_1_r. lia.
  - cbn [Py.fixed_digits]. rewrite digits_number_append, IH
      by (apply Z.div_pos; lia).
    cbn [digits_number].
    rewrite digit_value_digit by (apply Z.mod_pos_bound; lia).
    rewrite Nat2Z.inj_succ, Z.pow_succ_r by lia.
    rewrite (Z.rem_mul_r n 10 (10 ^ Z.of_nat w)) by lia.
    ring.
Qed.

Lemma count_digits_enough fuel : forall n,
  (0 <= n < 2 ^ Z.of_nat (S fuel))%Z ->
  (n < 10 ^ Z.of_nat (Py.count_digits fuel n))%Z.
Proof.
  induction fuel as [| f IH]; intros n Hn.
  - simpl in *. lia.
  - cbn [Py.count_digits]. destruct (n <? 10)%Z eqn:Hlt.
    + apply Z.ltb_lt in Hlt. simpl. lia.
    + apply Z.ltb_ge in Hlt.
      assert (Hq : (0 <= n / 10 < 2 ^ Z.of_nat (S f))%Z).
      { split; [apply Z.div_pos; lia |].
        apply Z.div_lt_upper_bound; [lia |].
        rewrite (Nat2Z.inj_succ (S f)), Z.pow_succ_r in Hn by lia. lia. }
      specialize (IH _ Hq).
      rewrite Nat2Z.inj_succ, Z.pow_succ_r by lia.
      pose proof (Z.div_mod n 10 ltac:(lia)) as Hdm.
      pose proof (Z.mod_pos_bound n 10 ltac:(lia)). lia.
Qed.

Lemma num_digits_enough n :
  (0 <= n)%Z -> (n < 10 ^ Z.of_nat (Py.num_digits n))%Z.
Proof.
  intros Hn. unfold Py.num_digits. apply count_digits_enough.
  split; [exact Hn |].
  rewrite Nat2Z.inj_succ, Z2Nat.id by apply Z.log2_nonneg.
  destruct (Z.eq_dec n 0) as [-> | Hz]; [reflexivity |].
  apply Z.log2_spec. lia.
Qed.

Lemma digits_number_decimal n :
  (0 <= n)%Z -> digits_number 0 (Py.decimal n) = n.
Proof.
  intros Hn. unfold Py.decimal. rewrite digits_number_fixed by exact Hn.
  rewrite Z.mod_small; [lia |]. split; [exact Hn | now apply num_digits_enough].
Qed.

Lemma decimal_all_digits n : (0 <= n)%Z -> all_digits (Py.decimal n) = true.
Proof. intros Hn. now apply fixed_digits_all_digits. Qed.

Lemma round_half_even_close x :
  (0 <= Qnum x)%Z -> Qabs (inject_Z (Py.round_half_even x) - x) <= 1 # 2.
Proof.
  destruct x as [n d]. cbn [Qnum]. intros Hn. apply Qabs_Qle_condition.
  unfold Py.round_half_even. cbn [Qnum Qden].
  pose proof (Z.div_mod n (Z.pos d) ltac:(lia)) as Hdm.
  pose proof (Z.mod_pos_bound n (Z.pos d) ltac:(lia)) as Hr.
  set (f := (n / Z.pos d)%Z) in *. set (r := (n mod Z.pos d)%Z) in *.
  destruct (Z.compare_spec (2 * r) (Z.pos d)) as [Hc | Hc | Hc];
    [destruct (Z.even f) | |];
    unfold Qle, Qminus, Qplus, Qopp, inject_Z; cbn [Qnum Qden];
    rewrite ?Pos.mul_1_l; split; lia.
Qed.

Lemma text_append_empty (a : string) : a ++ "" = a.
Proof. induction a as [| c a IH]; simpl; [reflexivity | now rewrite IH]. Qed.

Lemma read_point rest acc :
  read_digits ("." ++ rest) acc None = read_digits rest acc (Some 1%Z).
Proof. reflexivity. Qed.

Lemma read_unsigned whole places frac :
  (0 <= whole)%Z -> (0 <= frac < 10 ^ Z.of_nat places)%Z ->
  read_digits (Py.decimal whole ++ "." ++ Py.fixed_digits places frac) 0 None
  = Some ((whole * 10 ^ Z.of_nat places + frac)%Z,
          (10 ^ Z.of_nat places * 1)%Z).
Proof.
  intros Hw Hf. rewrite read_digits_run by (now apply decimal_all_digits).
  rewrite digits_number_decimal by exact Hw.
  cbn [option_map]. rewrite read_point.
  rewrite <- (text_append_empty (Py.fixed_digits places frac)).
  rewrite read_digits_run by apply fixed_digits_all_digits.
  rewrite digits_number_fixed, fixed_digits_length by lia.
  cbn [read_digits option_map]. rewrite Z.mod_small by exact Hf. reflexivity.
Qed.

Lemma decimal_starts_with_digit n :
  exists c rest, Py.decimal n = String c rest /\ is_digit c = true.
Proof.
  unfold Py.decimal.
  pose proof (fixed_digits_length (Py.num_digits n) n) as Hlen.
  pose proof (fixed_digits_all_digits (Py.num_digits n) n) as Hall.
  pose proof (count_digits_positive (Z.to_nat (Z.log2 n)) n) as Hpos.
  fold (Py.num_digits n) in Hpos.
  destruct (Py.fixed_digits (Py.num_digits n) n) as [| c rest].
  - simpl in Hlen. lia.
  - exists c, rest. split; [reflexivity |].
    simpl in Hall. now apply andb_prop in Hall as [Hc _].
Qed.

Lemma digit_is_no_sign c : is_digit c = true -> Ascii.eqb c "-" = false.
Proof.
  intros Hc. destruct (Ascii.eqb_spec c "-") as [-> | _];
    [discriminate Hc | reflexivity].
Qed.

Lemma scaled_back n k :
  (0 < k)%Z -> (n # Z.to_pos (k * 1)) * inject_Z k == inject_Z n.
Proof.
  intros Hk. replace (k * 1)%Z with k by lia.
  unfold Qeq, Qmult, inject_Z. cbn [Qnum Qden].
  rewrite Pos.mul_1_r, Z2Pos.id by exact Hk. ring.
Qed.

Lemma format_f_close prec x :
  exists y,
    read_decimal (Py.format_f (S prec) x) = Some y
    /\ Qabs (y - x) * inject_Z (Py.pow10 (S prec)) <= 1 # 2.
Proof.
  unfold Py.format_f.
  set (t := Py.pow10 (S prec)).
  set (a := Qabs x * inject_Z t).
  set (sc := Py.round_half_even a).
  pose proof (pow10_positive (S prec)) as Ht. fold t in Ht.
  assert (Ha : (0 <= Qnum a)%Z).
  { unfold a. destruct x as [n d]. cbn [Qabs Qmult Qnum inject_Z]. nia. }
  pose proof (round_half_even_nonneg a Ha) as Hsc. fold sc in Hsc.
  pose proof (round_half_even_close a Ha) as Hclose. fold sc in Hclose.
  apply Qabs_Qle_condition in Hclose.
  assert (Hread : read_digits
                    (Py.decimal (sc / t)
                       ++ "." ++ Py.fixed_digits (S prec) (sc mod t)) 0 None
                  = Some (sc, (t * 1)%Z)).
  { unfold t, Py.pow10. rewrite read_unsigned.
    - do 2 f_equal. rewrite Z.mul_comm. symmetry. apply Z.div_mod.
      unfold t, Py.pow10 in Ht. lia.
    - apply Z.div_pos; [exact Hsc | exact Ht].
    - apply Z.mod_pos_bound. exact Ht. }
  pose proof (scaled_back sc t Ht) as Hback.
  unfold Py.sign_text. destruct (Qlt_le_dec x 0) as [Hneg | Hpos].
  - exists (- (sc # Z.to_pos (t * 1))). split.
    + cbn [append read_decimal]. simpl Ascii.eqb. cbv iota.
      cbn [append] in Hread. now rewrite Hread.
    + assert (Hx : a == - x * inject_Z t).
      { unfold a. rewrite Qabs_neg by (apply Qlt_le_weak; exact Hneg).
        reflexivity. }
      assert (H0 : 0 <= inject_Z t)
        by (change 0 with (inject_Z 0); rewrite <- Zle_Qle; lia).
      apply Qabs_case; intros Hs; nra.
  - exists (sc # Z.to_pos (t * 1)). split.
    + cbn [append].
      destruct (decimal_starts_with_digit (sc / t)) as (c & rest & E & Hc).
      rewrite E in *. cbn [append read_decimal].
      rewrite (digit_is_no_sign c Hc). cbn [append] in Hread.
      now rewrite Hread.
    + assert (Hx : a == x * inject_Z t).
      { unfold a. rewrite Qabs_pos by exact Hpos. reflexivity. }
      assert (H0 : 0 <= inject_Z t)
        by (change 0 with (inject_Z 0); rewrite <- Zle_Qle; lia).
      apply Qabs_case; intros Hs; nra.
Qed.

(** ** Powers of ten and the decimal exponent *)

Lemma qpow10_power z : Py.qpow10 z == 10 ^ z.
Proof.
  destruct z as [| p | p]; unfold Py.qpow10.
  - reflexivity.
  - now rewrite Zpower_Qpower by lia.
  - rewrite Zpower_Qpower by lia. reflexivity.
Qed.

Lemma qpow10_plus a b : Py.qpow10 (a + b) == Py.qpow10 a * Py.qpow10 b.
Proof.
  rewrite !qpow10_power. apply Qpower_plus. discriminate.
Qed.

Lemma qpow10_positive z : 0 < Py.qpow10 z.
Proof. rewrite qpow10_power. now apply Qpower_0_lt. Qed.

Lemma qpow10_nat k : Py.qpow10 (Z.of_nat k) == inject_Z (Py.pow10 k).
Proof.
  unfold Py.pow10. rewrite qpow10_power, Zpower_Qpower by lia. reflexivity.
Qed.

Lemma qpow10_nonneg z : (0 <= z)%Z -> Py.qpow10 z == inject_Z (10 ^ z).
Proof.
  intros Hz. rewrite qpow10_power, Zpower_Qpower by exact Hz. reflexivity.
Qed.

Lemma qpow10_inverse z : Py.qpow10 (- z) * Py.qpow10 z == 1.
Proof.
  rewrite <- qpow10_plus. replace (- z + z)%Z with 0%Z by lia. reflexivity.
Qed.

Lemma count_digits_at_least fuel : forall n,
  (1 <= n)%Z -> (10 ^ (Z.of_nat (Py.count_digits fuel n) - 1) <= n)%Z.
Proof.
  induction fuel as [| f IH]; intros n Hn.
  - simpl. lia.
  - cbn [Py.count_digits]. destruct (n <? 10)%Z eqn:Hlt.
    + simpl. lia.
    + apply Z.ltb_ge in Hlt.
      assert (Hq : (1 <= n / 10)%Z) by (apply Z.div_le_lower_bound; lia).
      specialize (IH _ Hq).
      pose proof (count_digits_positive f (n / 10)) as Hpos.
      replace (Z.of_nat (S (Py.count_digits f (n / 10))) - 1)%Z
        with (Z.succ (Z.of_nat (Py.count_digits f (n / 10)) - 1))%Z by lia.
      rewrite Z.pow_succ_r by lia.
      pose proof (Z.div_mod n 10 ltac:(lia)) as Hdm.
      pose proof (Z.mod_pos_bound n 10 ltac:(lia)). lia.
Qed.

Lemma first_unit_spec x fuel : forall k,
  x * Py.qpow10 (k - 1) < 1 ->
  1 <= x * Py.qpow10 (k + Z.of_nat fuel) ->
  let found := Py.first_unit fuel x k in
  (k <= found)%Z
  /\ 1 <= x * Py.qpow10 found
  /\ x * Py.qpow10 (found - 1) < 1.
Proof.
  induction fuel as [| f IH]; intros k Hbelow Hend; cbn [Py.first_unit].
  - replace (k + Z.of_nat 0)%Z with k in Hend by lia.
    split; [lia |]. split; assumption.
  - destruct (Qle_bool 1 (x * Py.qpow10 k)) eqn:Hk.
    + apply Qle_bool_iff in Hk. split; [lia |]. split; assumption.
    + assert (Hnot : x * Py.qpow10 k < 1).
      { apply Qnot_le_lt. intros H. apply Qle_bool_iff in H. congruence. }
      destruct (IH (k + 1)%Z) as (H1 & H2 & H3).
      * now replace (k + 1 - 1)%Z with k by lia.
      * now replace (k + 1 + Z.of_nat f)%Z with (k + Z.of_nat (S f))%Z by lia.
      * split; [lia |]. split; assumption.
Qed.

Lemma small_number_reaches_one x :
  0 < x ->
  1 <= x * Py.qpow10 (1 + Z.of_nat (S (Z.to_nat (Z.log2 (Z.pos (Qden x)))))).
Proof.
  destruct x as [n d]. unfold Qlt. cbn [Qnum Qden]. intros Hn.
  set (l := Z.log2 (Z.pos d)).
  assert (Hl : (0 <= l)%Z) by apply Z.log2_nonneg.
  rewrite qpow10_nonneg by lia.
  replace (1 + Z.of_nat (S (Z.to_nat l)))%Z with (l + 2)%Z by lia.
  assert (Hd : (Z.pos d < 2 ^ (l + 1))%Z).
  { replace (l + 1)%Z with (Z.succ l) by lia. apply Z.log2_spec. lia. }
  assert (H2 : (2 ^ (l + 1) <= 10 ^ (l + 2))%Z).
  { apply Z.le_trans with (2 ^ (l + 2))%Z.
    - apply Z.pow_le_mono_r; lia.
    - apply Z.pow_le_mono_l. lia. }
  unfold Qle, Qmult, inject_Z. cbn [Qnum Qden].
  rewrite Pos.mul_1_r. nia.
Qed.

(** The decimal exponent of a positive number brackets it. *)
Lemma exponent10_spec x :
  0 < x ->
  Py.qpow10 (Py.exponent10 x) <= x /\ x < Py.qpow10 (Py.exponent10 x + 1).
Proof.
  intros Hx. unfold Py.exponent10. destruct (Qle_bool 1 x) eqn:Hone.
  - apply Qle_bool_iff in Hone.
    set (n := Qfloor x).
    assert (Hn : (1 <= n)%Z).
    { unfold n. change 1%Z with (Qfloor 1). now apply Qfloor_resp_le. }
    pose proof (count_digits_at_least (Z.to_nat (Z.log2 n)) n Hn) as Hlow.
    pose proof (num_digits_enough n ltac:(lia)) as Hhigh.
    fold (Py.num_digits n) in Hlow.
    pose proof (count_digits_positive (Z.to_nat (Z.log2 n)) n) as Hpos.
    fold (Py.num_digits n) in Hpos.
    rewrite !qpow10_nonneg by lia.
    replace (Z.of_nat (Py.num_digits n) - 1 + 1)%Z
      with (Z.of_nat (Py.num_digits n)) by lia.
    split.
    + apply Qle_trans with (inject_Z n);
        [rewrite <- Zle_Qle; exact Hlow | apply Qfloor_le].
    + apply Qlt_le_trans with (inject_Z (n + 1));
        [apply Qlt_floor | rewrite <- Zle_Qle; lia].
  - assert (Hlt : x < 1).
    { apply Qnot_le_lt. intros H. apply Qle_bool_iff in H. congruence. }
    destruct (first_unit_spec x (S (Z.to_nat (Z.log2 (Z.pos (Qden x))))) 1)
      as (Hk & Hfound & Hprev).
    + change (Py.qpow10 (1 - 1)) with 1. lra.
    + now apply small_number_reaches_one.
    + set (k := Py.first_unit _ x 1) in *.
      pose proof (qpow10_inverse k) as Hinv.
      pose proof (qpow10_positive (- k)) as Hp.
      pose proof (qpow10_inverse (k - 1)) as Hinv'.
      pose proof (qpow10_positive (- (k - 1))) as Hp'.
      replace (- k + 1)%Z with (- (k - 1))%Z by lia.
      split; nra.
Qed.

(** The mantissa and the exponent of scientific notation give the number
    back to half a unit of the last place of the mantissa. *)
Lemma sci_parts_close prec x :
  Qabs (inject_Z (fst (Py.sci_parts prec x))
        * Py.qpow10 (snd (Py.sci_parts prec x) - Z.of_nat prec)
        - Qabs x)
  * inject_Z (Py.pow10 prec)
  <= (1 # 2) * Qabs x.
Proof.
  unfold Py.sci_parts. destruct (Qeq_bool x 0) eqn:Hzero.
  - apply Qeq_bool_iff in Hzero. cbn [fst snd]. rewrite Hzero.
    change (Qabs 0) with 0.
    setoid_replace (inject_Z 0 * Py.qpow10 (0 - Z.of_nat prec) - 0) with 0
      by ring.
    change (Qabs 0) with 0. lra.
  - assert (Hx : 0 < Qabs x).
    { destruct (Qlt_le_dec 0 (Qabs x)) as [H | H]; [exact H |].
      pose proof (Qabs_nonneg x) as H0.
      assert (Hz : Qabs x == 0) by lra.
      assert (Hx0 : x == 0).
      { destruct (Qlt_le_dec x 0) as [Hn | Hp].
        - rewrite Qabs_neg in Hz by lra. lra.
        - rewrite Qabs_pos in Hz by exact Hp. exact Hz. }
      apply Qeq_bool_iff in Hx0. congruence. }
    set (a := Qabs x) in *.
    destruct (exponent10_spec a Hx) as [Hlow Hhigh].
    set (e0 := Py.exponent10 a) in *.
    set (P := Z.of_nat prec).
    set (s := a * Py.qpow10 (P - e0)).
    set (m0 := Py.round_half_even s).
    assert (Hs : (0 <= Qnum s)%Z).
    { unfold s. cbn [Qmult Qnum].
      pose proof (qpow10_num_positive (P - e0)) as Hq.
      assert (0 <= Qnum a)%Z by (unfold a; destruct x; simpl; lia). nia. }
    pose proof (round_half_even_close s Hs) as Hclose. fold m0 in Hclose.
    apply Qabs_Qle_condition in Hclose. destruct Hclose as [Hc1 Hc2].
    pose proof (qpow10_positive (P - e0)) as Hu.
    pose proof (qpow10_positive (e0 - P)) as Hw.
    pose proof (qpow10_positive e0) as Hg.
    assert (Huw : Py.qpow10 (P - e0) * Py.qpow10 (e0 - P) == 1).
    { rewrite <- qpow10_plus. now replace (P - e0 + (e0 - P))%Z with 0%Z by lia. }
    assert (HT : inject_Z (Py.pow10 prec) == Py.qpow10 P)
      by (symmetry; apply qpow10_nat).
    assert (Hgw : Py.qpow10 (e0 - P) * Py.qpow10 P == Py.qpow10 e0).
    { rewrite <- qpow10_plus. now replace (e0 - P + P)%Z with e0 by lia. }
    assert (Hh : Py.qpow10 (e0 + 1) == 10 * Py.qpow10 e0).
    { rewrite qpow10_plus. change (Py.qpow10 1) with 10. ring. }
    assert (HT1 : inject_Z (Py.pow10 (S prec)) == 10 * Py.qpow10 P).
    { rewrite pow10_succ, inject_Z_mult, HT. reflexivity. }
    assert (Hgu : Py.qpow10 e0 * Py.qpow10 (P - e0) == Py.qpow10 P).
    { rewrite <- qpow10_plus. now replace (e0 + (P - e0))%Z with P by lia. }
    pose proof (qpow10_positive P) as HP.
    assert (Hsmall : s < inject_Z (Py.pow10 (S prec))).
    { rewrite HT1. unfold s. nra. }
    assert (Hm0 : (m0 <= Py.pow10 (S prec))%Z).
    { apply Z.lt_succ_r. rewrite Zlt_Qlt. unfold Z.succ.
      rewrite inject_Z_plus. change (inject_Z 1) with 1. lra. }
    assert (Hsame :
      inject_Z (fst (if (Py.pow10 (S prec) <=? m0)%Z
                     then (Py.pow10 prec, (e0 + 1)%Z) else (m0, e0)))
      * Py.qpow10 (snd (if (Py.pow10 (S prec) <=? m0)%Z
                        then (Py.pow10 prec, (e0 + 1)%Z) else (m0, e0)) - P)
      == inject_Z m0 * Py.qpow10 (e0 - P)).
    { destruct (Py.pow10 (S prec) <=? m0)%Z eqn:Hcap; cbn [fst snd].
      - apply Z.leb_le in Hcap.
        assert (Heq : m0 = Py.pow10 (S prec)) by lia.
        rewrite Heq, HT1, HT.
        replace (e0 + 1 - P)%Z with (1 + (e0 - P))%Z by lia.
        rewrite qpow10_plus. change (Py.qpow10 1) with 10. ring.
      - reflexivity. }
    rewrite Hsame, HT.
    assert (Ha : a == s * Py.qpow10 (e0 - P)).
    { unfold s. rewrite <- Qmult_assoc, Huw. ring. }
    apply Qabs_case; intros Hsign; nra.
Qed.

(** ** Reading scientific notation *)

Lemma digit_is_no_e c : is_digit c = true -> Ascii.eqb c "e" = false.
Proof.
  intros Hc. destruct (Ascii.eqb_spec c "e") as [-> | _];
    [discriminate Hc | reflexivity].
Qed.

Lemma split_at_e_digits text : forall rest,
  all_digits text = true ->
  split_at_e (text ++ String "e" rest) = Some (text, rest).
Proof.
  induction text as [| c text IH]; intros rest Hd.
  - reflexivity.
  - simpl in Hd. apply andb_prop in Hd as [Hc Hd].
    cbn [append split_at_e]. now rewrite (digit_is_no_e c Hc), IH.
Qed.

Lemma decimal_of_digit d :
  (0 <= d < 10)%Z -> Py.decimal d = String (Py.digit d) EmptyString.
Proof.
  intros Hd. unfold Py.decimal, Py.num_digits.
  assert (Hone : Py.count_digits (Z.to_nat (Z.log2 d)) d = 1%nat).
  { destruct (Z.to_nat (Z.log2 d)); cbn [Py.count_digits]; [reflexivity |].
    destruct (d <? 10)%Z eqn:E; [reflexivity |]. apply Z.ltb_ge in E. lia. }
  rewrite Hone. cbn [Py.fixed_digits append]. now rewrite Z.mod_small.
Qed.

Lemma read_exponent_text e : read_exponent (Py.exponent_text e) = Some e.
Proof.
  unfold Py.exponent_text.
  set (pad := if (Z.abs e <? 10)%Z then "0" else "").
  assert (Hall : all_digits (pad ++ Py.decimal (Z.abs e)) = true).
  { apply all_digits_append; [unfold pad; now destruct (Z.abs e <? 10)%Z |].
    apply decimal_all_digits. lia. }
  assert (Hnum : digits_number 0 (pad ++ Py.decimal (Z.abs e)) = Z.abs e).
  { rewrite digits_number_append.
    replace (digits_number 0 pad) with 0%Z
      by (unfold pad; now destruct (Z.abs e <? 10)%Z).
    apply digits_number_decimal. lia. }
  destruct (e <? 0)%Z eqn:Hneg; cbn [append read_exponent];
    rewrite Hall, Hnum; simpl Ascii.eqb; cbv iota; f_equal.
  - apply Z.ltb_lt in Hneg. lia.
  - apply Z.ltb_ge in Hneg. lia.
Qed.

Lemma split_mantissa sign d frac ex :
  sign = "" \/ sign = "-" -> is_digit d = true -> all_digits frac = true ->
  split_at_e (sign ++ String d (String "." (frac ++ String "e" ex)))
  = Some (sign ++ String d (String "." frac), ex).
Proof.
  intros [-> | ->] Hd Hf; cbn [append split_at_e]; simpl Ascii.eqb; cbv iota;
    now rewrite (digit_is_no_e d Hd), (split_at_e_digits frac ex Hf).
Qed.

Lemma read_mantissa sign lead places frac :
  sign = "" \/ sign = "-" ->
  (0 <= lead < 10)%Z -> (0 <= frac < 10 ^ Z.of_nat places)%Z ->
  read_decimal (sign ++ String (Py.digit lead)
                          (String "." (Py.fixed_digits places frac)))
  = Some ((if String.eqb sign "-" then Qopp else fun q => q)
            ((lead * 10 ^ Z.of_nat places + frac)
             # Z.to_pos (10 ^ Z.of_nat places * 1))).
Proof.
  intros Hsign Hlead Hfrac.
  pose proof (read_unsigned lead places frac ltac:(lia) Hfrac) as Hread.
  rewrite (decimal_of_digit lead Hlead) in Hread. cbn [append] in Hread.
  pose proof (digit_is_digit lead Hlead) as Hd.
  destruct Hsign as [-> | ->]; cbn [append read_decimal].
  - now rewrite (digit_is_no_sign _ Hd), Hread.
  - simpl Ascii.eqb. cbv iota. now rewrite Hread.
Qed.

Lemma format_e_close prec x :
  exists y,
    read_scientific (Py.format_e (S prec) x) = Some y
    /\ Qabs (y - x) * inject_Z (Py.pow10 (S prec)) <= (1 # 2) * Qabs x.
Proof.
  pose proof (sci_parts_lead (S prec) x) as Hlead.
  pose proof (sci_parts_close (S prec) x) as Hclose.
  unfold Py.format_e. destruct (Py.sci_parts (S prec) x) as [M E].
  cbn [fst snd] in Hlead, Hclose.
  set (t := Py.pow10 (S prec)) in *.
  pose proof (pow10_positive (S prec)) as Ht. fold t in Ht.
  assert (HM : (0 <= M)%Z).
  { destruct (Z_lt_le_dec M 0) as [Hneg | Hpos]; [| exact Hpos].
    assert (M / t < 0)%Z by (apply Z.div_lt_upper_bound; lia). lia. }
  assert (Hsign : Py.sign_text x = "" \/ Py.sign_text x = "-").
  { unfold Py.sign_text. destruct (Qlt_le_dec x 0); auto. }
  change (Py.sign_text x ++ String (Py.digit (M / t)) ""
            ++ ("." ++ Py.fixed_digits (S prec) (M mod t))
            ++ "e" ++ Py.exponent_text E)
    with (Py.sign_text x
            ++ String (Py.digit (M / t))
                 (String "." (Py.fixed_digits (S prec) (M mod t)
                                ++ String "e" (Py.exponent_text E)))).
  unfold read_scientific.
  rewrite (split_mantissa _ _ _ _ Hsign (digit_is_digit _ Hlead)
             (fixed_digits_all_digits _ _)).
  assert (Hfrac : (0 <= M mod t < 10 ^ Z.of_nat (S prec))%Z)
    by (apply Z.mod_pos_bound; exact Ht).
  rewrite (read_mantissa _ _ _ _ Hsign Hlead Hfrac), read_exponent_text.
  replace (M / t * 10 ^ Z.of_nat (S prec) + M mod t)%Z with M
    by (change (10 ^ Z.of_nat (S prec))%Z with t;
        pose proof (Z.div_mod M t ltac:(lia)); lia).
  fold (Py.pow10 (S prec)). fold t.
  eexists. split; [reflexivity |].
  pose proof (scaled_back M t Ht) as Hback.
  set (A := M # Z.to_pos (t * 1)) in *.
  assert (HT : inject_Z t == Py.qpow10 (Z.of_nat (S prec)))
    by (symmetry; apply qpow10_nat).
  assert (HE : Py.qpow10 (E - Z.of_nat (S prec))
               * Py.qpow10 (Z.of_nat (S prec)) == Py.qpow10 E).
  { rewrite <- qpow10_plus.
    now replace (E - Z.of_nat (S prec) + Z.of_nat (S prec))%Z with E by lia. }
  assert (Hv : A * Py.qpow10 E
               == inject_Z M * Py.qpow10 (E - Z.of_nat (S prec))).
  { rewrite <- HE, <- HT, <- Hback. ring. }
  unfold Py.sign_text. destruct (Qlt_le_dec x 0) as [Hneg | Hpos].
  - change (String.eqb "-" "-") with true. cbv iota.
    assert (Hx : x == - Qabs x)
      by (rewrite Qabs_neg by (apply Qlt_le_weak; exact Hneg); ring).
    setoid_replace (- A * Py.qpow10 E - x)
      with (- (inject_Z M * Py.qpow10 (E - Z.of_nat (S prec)) - Qabs x))
      by (rewrite <- Hv; rewrite Hx at 1; ring).
    rewrite Qabs_opp. exact Hclose.
  - change (String.eqb "" "-") with false. cbv iota.
    assert (Hx : x == Qabs x) by (now rewrite Qabs_pos).
    setoid_replace (A * Py.qpow10 E - x)
      with (inject_Z M * Py.qpow10 (E - Z.of_nat (S prec)) - Qabs x)
      by (rewrite <- Hv; rewrite Hx at 1; ring).
    exact Hclose.
Qed.

(** ** Reading a row back *)

Lemma free_of_append c a b : free_of c (a ++ b) = free_of c a && free_of c b.
Proof.
  induction a as [| x a IH]; simpl; [reflexivity |].
  now rewrite IH, andb_assoc.
Qed.

Lemma free_of_digits c text :
  is_digit c = false -> all_digits text = true -> free_of c text = true.
Proof.
  intros Hc. induction text as [| x text IH]; simpl; [reflexivity |].
  intros Hd. apply andb_prop in Hd as [Hx Hd]. rewrite IH by exact Hd.
  destruct (Ascii.eqb_spec x c) as [-> | _]; [congruence | reflexivity].
Qed.

Lemma fields_plain text : free_of "009" text = true -> fields text = [text].
Proof.
  induction text as [| c text IH]; simpl; [reflexivity |].
  intros H. apply andb_prop in H as [Hc H].
  apply negb_true_iff in Hc. now rewrite Hc, IH.
Qed.

Lemma fields_append a : forall rest,
  free_of "009" a = true ->
  fields (a ++ String "009" rest) = a :: fields rest.
Proof.
  induction a as [| c a IH]; intros rest H; [reflexivity |].
  simpl in H. apply andb_prop in H as [Hc H]. apply negb_true_iff in Hc.
  cbn [append fields]. now rewrite Hc, IH.
Qed.

Lemma chomp_append a : forall rest,
  free_of "010" a = true ->
  chomp (a ++ rest)
  = match chomp rest with Some body => Some (a ++ body) | None => None end.
Proof.
  induction a as [| c a IH]; intros rest H.
  - simpl. now destruct (chomp rest).
  - simpl in H. apply andb_prop in H as [Hc H]. apply negb_true_iff in Hc.
    cbn [append chomp]. rewrite Hc, IH by exact H. now destruct (chomp rest).
Qed.

Lemma format_f_free c prec x :
  is_digit c = false -> Ascii.eqb "-" c = false -> Ascii.eqb "." c = false ->
  free_of c (Py.format_f prec x) = true.
Proof.
  intros Hd Hm Hp. unfold Py.format_f, Py.sign_text.
  rewrite !free_of_append.
  rewrite (free_of_digits c (Py.decimal _) Hd)
    by apply fixed_digits_all_digits.
  assert (Hsign : free_of c (if Qlt_le_dec x 0 then "-" else "") = true).
  { destruct (Qlt_le_dec x 0); cbn [free_of]; [now rewrite Hm | reflexivity]. }
  rewrite Hsign. destruct prec as [| prec]; [reflexivity |].
  rewrite free_of_append, (free_of_digits c (Py.fixed_digits _ _) Hd)
    by apply fixed_digits_all_digits.
  cbn [free_of]. now rewrite Hp.
Qed.

Lemma format_e_free c prec x :
  is_digit c = false -> Ascii.eqb "-" c = false -> Ascii.eqb "." c = false ->
  Ascii.eqb "e" c = false -> Ascii.eqb "+" c = false ->
  free_of c (Py.format_e prec x) = true.
Proof.
  intros Hd Hm Hp He Hplus. unfold Py.format_e, Py.sign_text.
  pose proof (sci_parts_lead prec x) as Hlead.
  destruct (Py.sci_parts prec x) as [m e]. cbn [fst] in Hlead.
  rewrite !free_of_append.
  assert (Hsign : free_of c (if Qlt_le_dec x 0 then "-" else "") = true).
  { destruct (Qlt_le_dec x 0); cbn [free_of]; [now rewrite Hm | reflexivity]. }
  assert (Hdigit : free_of c (String (Py.digit (m / Py.pow10 prec)) "") = true).
  { apply free_of_digits; [exact Hd |]. cbn [all_digits].
    now rewrite (digit_is_digit _ Hlead). }
  assert (Hfrac : free_of c match prec with
                            | O => ""
                            | S _ => "." ++ Py.fixed_digits prec
                                                  (m mod Py.pow10 prec)
                            end = true).
  { destruct prec as [| prec]; [reflexivity |].
    rewrite free_of_append, (free_of_digits c (Py.fixed_digits _ _) Hd)
      by apply fixed_digits_all_digits.
    cbn [free_of]. now rewrite Hp. }
  assert (Hexp : free_of c (Py.exponent_text e) = true).
  { unfold Py.exponent_text. rewrite !free_of_append.
    rewrite (free_of_digits c (Py.decimal _) Hd)
      by apply fixed_digits_all_digits.
    assert (Hzero : Ascii.eqb "0" c = false).
    { destruct (Ascii.eqb_spec "0" c) as [<- | _];
        [discriminate Hd | reflexivity]. }
    destruct (e <? 0)%Z; destruct (Z.abs e <? 10)%Z; cbn [free_of];
      rewrite ?Hm, ?Hplus, ?Hzero; reflexivity. }
  rewrite Hsign, Hdigit, Hfrac, Hexp. cbn [free_of]. now rewrite He.
Qed.

Lemma IV_read_row_text t v i p :
  IV_read_row
    (Py.format_f 6 t ++ tab ++ Py.format_f 2 v ++ tab
       ++ Py.format_e 6 i ++ tab ++ Py.format_e 6 p ++ newline)
  = match read_decimal (Py.format_f 6 t), read_decimal (Py.format_f 2 v),
          read_scientific (Py.format_e 6 i),
          read_scientific (Py.format_e 6 p) with
    | Some t', Some v', Some i', Some p' => Some (IV.mkPoint t' v' i' p')
    | _, _, _, _ => None
    end.
Proof.
  unfold IV_read_row.
  repeat rewrite chomp_append
    by first [ apply format_f_free; reflexivity
             | apply format_e_free; reflexivity | reflexivity ].
  change (chomp newline) with (Some ""). cbv iota.
  rewrite text_append_empty. change tab with (String "009" "").
  cbn [append].
  repeat rewrite fields_append
    by first [ apply format_f_free; reflexivity
             | apply format_e_free; reflexivity ].
  rewrite fields_plain by (apply format_e_free; reflexivity).
  reflexivity.
Qed.

Lemma PV_read_row_text t v i p v1 i1 p1 p2 :
  PV_read_row
    (Py.format_f 6 t ++ tab ++ Py.format_f 2 v ++ tab
       ++ Py.format_e 6 i ++ tab ++ Py.format_e 6 p ++ tab
       ++ Py.format_f 2 v1 ++ tab ++ Py.format_e 6 i1 ++ tab
       ++ Py.format_e 6 p1 ++ tab ++ Py.format_e 6 p2 ++ newline)
  = match read_decimal (Py.format_f 6 t), read_decimal (Py.format_f 2 v),
          read_scientific (Py.format_e 6 i),
          read_scientific (Py.format_e 6 p),
          read_decimal (Py.format_f 2 v1),
          read_scientific (Py.format_e 6 i1),
          read_scientific (Py.format_e 6 p1),
          read_scientific (Py.format_e 6 p2) with
    | Some t', Some v', Some i', Some p',
      Some v1', Some i1', Some p1', Some p2' =>
        Some (PV.mkPoint t' v' i' p' v1' i1' p1' p2')
    | _, _, _, _, _, _, _, _ => None
    end.
Proof.
  unfold PV_read_row.
  repeat rewrite chomp_append
    by first [ apply format_f_free; reflexivity
             | apply format_e_free; reflexivity | reflexivity ].
  change (chomp newline) with (Some ""). cbv iota.
  rewrite text_append_empty. change tab with (String "009" "").
  cbn [append].
  repeat rewrite fields_append
    by first [ apply format_f_free; reflexivity
             | apply format_e_free; reflexivity ].
  rewrite fields_plain by (apply format_e_free; reflexivity).
  reflexivity.
Qed.

Lemma format_f_6_close x :
  exists y, read_decimal (Py.format_f 6 x) = Some y
            /\ Qabs (y - x) <= 5 # 10000000.
Proof.
  destruct (format_f_close 5 x) as (y & Hy & Hclose).
  exists y. split; [exact Hy |].
  change (inject_Z (Py.pow10 6)) with 1000000 in Hclose. lra.
Qed.

Lemma format_f_2_close x :
  exists y, read_decimal (Py.format_f 2 x) = Some y
            /\ Qabs (y - x) <= 5 # 1000.
Proof.
  destruct (format_f_close 1 x) as (y & Hy & Hclose).
  exists y. split; [exact Hy |].
  change (inject_Z (Py.pow10 2)) with 100 in Hclose. lra.
Qed.

Lemma format_e_6_close x :
  exists y, read_scientific (Py.format_e 6 x) = Some y
            /\ Qabs (y - x) <= (5 # 10000000) * Qabs x.
Proof.
  destruct (format_e_close 5 x) as (y & Hy & Hclose).
  exists y. split; [exact Hy |].
  change (inject_Z (Py.pow10 6)) with 1000000 in Hclose. lra.
Qed.

(** * The claims *)



(** C2, where the single-instrument script departs from it.  Its
    initializer takes no compliance current: it writes the reset, the source
    function, zero voltage, the fixed compliance command
    [:SENS:CURR:PROT 150E-3], auto-ranging and the measurement function,
    whereas the compliance current set at the foot of the script is 0.10;
    and the script never writes a formatted command other than the voltages
    of the sweep, so the value 0.10 never reaches the instrument. *)
Theorem C2_single_initializer_fixed_compliance :
  writes_to "GPIB0::12::INSTR"
            (snd (fst (run IV.initialize_Keithley calm idle)))
  = [Literal "*rst; status:preset;";
     Literal ":SOUR:FUNC VOLT";
     Literal ":SOUR:VOLT 0";
     Literal ":SENS:CURR:PROT 150E-3";
     Literal ":SENS:CURR:RANG:AUTO ON";
     Literal (":SENS:FUNC " ++ dquote ++ "CURR" ++ dquote)]
  /\ IV.compliance_current == 1 # 10
  /\ ~ IV.compliance_current == 150 # 1000
  /\ forall en s,
       Forall (fun ev => match ev with
                         | EWrite _ (FString prefix _) _ =>
                             prefix = ":SOUR:VOLT "
                         | _ => True
                         end)
              (snd (fst (run IV.main en s))).
Proof.
  split; [vm_compute; reflexivity |].
  split; [reflexivity |]. split; [discriminate |].
  intros en s. destruct (run IV.main en s) as [[r evs] s'] eqn:H.
  exact (IV_main_formats_voltages_only en s r evs s' H).
Qed.



(** C4.  A round of the dual-instrument loop that runs to its end writes the
    swept voltage to the first instrument, waits, reads the clock, queries
    the first instrument and takes the current at index 1, then queries the
    second instrument twice, two bus operations of their own, taking the
    voltage at index 0 of the first answer and the current at index 1 of the
    second answer; it appends one entry to each of the eight data holders,
    with power = voltage * current, power_1 = voltage_1 * current_1 and
    power_2 = voltage * current_1. *)
Theorem C4_dual_round :
  forall en Vmin step P R start i d s d' evs s',
    run (PV.step Vmin step P R start i d) en s = (Ok d', evs, s') ->
    let voltage := (Vmin + inject_Z i * step)%Q in
    exists now reading reading_1 reading_2 current voltage_1 current_1 progress,
      evs = ([EWrite P (FString ":SOUR:VOLT " voltage) (Ok tt);
              ESleep (5 # 100);
              ETime now;
              EQueryAscii P (Literal ":READ?") (Ok reading);
              EQueryAscii R (Literal ":READ?") (Ok reading_1);
              EQueryAscii R (Literal ":READ?") (Ok reading_2)]
             ++ progress)%list
      /\ Forall (fun ev => is_bus ev = false) progress
      /\ ascii_reply en (1 + bus_ops s) = Reply reading
      /\ ascii_reply en (2 + bus_ops s) = Reply reading_1
      /\ ascii_reply en (3 + bus_ops s) = Reply reading_2
      /\ nth_error reading 1 = Some current
      /\ nth_error reading_1 0 = Some voltage_1
      /\ nth_error reading_2 1 = Some current_1
      /\ d' = PV.mkSeries
                (PV.t_values d ++ [(now - start)%Q])
                (PV.voltage_values d ++ [voltage])
                (PV.current_values d ++ [current])
                (PV.power_values d ++ [(voltage * current)%Q])
                (PV.voltage_1_values d ++ [voltage_1])
                (PV.current_1_values d ++ [current_1])
                (PV.power_1_values d ++ [(voltage_1 * current_1)%Q])
                (PV.power_2_values d ++ [(voltage * current_1)%Q]).
Proof.
  intros en Vmin step P R start i d s d' evs s' H voltage.
  destruct (PV_step_ok H)
    as (r0 & r1 & r2 & c0 & v1 & c1 & Ha & Hb & Hc & H0 & H1 & H2 & He & Hd & _).
  exists (clock en (clock_reads s)), r0, r1, r2, c0, v1, c1.
  eexists. split; [exact He |].
  split; [| now repeat split].
  destruct (Py.is_whole _); now repeat constructor.
Qed.

Lemma C4_dual_round_witness :
  exists d' evs s',
    run (PV.step 0 (1 # 2) "GPIB0::16::INSTR" "GPIB0::14::INSTR" 0 1 PV.no_data)
        calm idle = (Ok d', evs, s')
    /\ exists now current voltage_1 current_1,
        nth_error [1; 1 # 1000] 1 = Some current
        /\ nth_error [2; 1 # 1000] 0 = Some voltage_1
        /\ nth_error [3; 1 # 1000] 1 = Some current_1
        /\ d' = PV.mkSeries
                  [now - 0]
                  [0 + inject_Z 1 * (1 # 2)]
                  [current]
                  [(0 + inject_Z 1 * (1 # 2)) * current]
                  [voltage_1]
                  [current_1]
                  [voltage_1 * current_1]
                  [(0 + inject_Z 1 * (1 # 2)) * current_1].
Proof.
  eassert (Hrun : run (PV.step 0 (1 # 2) "GPIB0::16::INSTR" "GPIB0::14::INSTR"
                               0 1 PV.no_data) calm idle = (Ok _, _, _))
    by (vm_compute; reflexivity).
  destruct (C4_dual_round _ _ _ _ _ _ _ _ _ _ _ _ Hrun)
    as (now & r0 & r1 & r2 & c0 & v1 & c1 & pr & _ & _ & Ha & Hb & Hc
        & H0 & H1 & H2 & Hd).
  injection Ha as <-. injection Hb as <-. injection Hc as <-.
  do 3 eexists. split; [exact Hrun |].
  exists now, c0, v1, c1. split; [exact H0 |]. split; [exact H1 |].
  split; [exact H2 | exact Hd].
Defined.

(** C5.  In the dual-instrument script, driven through two different
    handles: before the loop the function enables the output of both
    instruments, writes the static bias to the second instrument and sets
    its compliance current, in this order; the loop, however it ends, writes
    no command to the second instrument and addresses it with [:READ?]
    queries only; so up to the end of the loop the commands written to the
    second instrument are exactly these three and its bias is written
    once. *)
Theorem C5_second_instrument_bias_fixed :
  forall en Vmin Vmax step c P R bias cr s pts start e0 s0 r e1 s1,
    P <> R ->
    run (PV.start_sweep (Vmin, Vmax, step, c, P, R, bias, cr)) en s
      = (Ok (pts, start), e0, s0) ->
    run (PV.stepping (Vmin, Vmax, step, c, P, R, bias, cr) pts start) en s0
      = (r, e1, s1) ->
    e0 = [EWrite P (Literal ":OUTP ON") (Ok tt);
          EWrite R (Literal ":OUTP ON") (Ok tt);
          EWrite R (FString ":SOUR:VOLT " bias) (Ok tt);
          EWrite R (FString ":SENS:CURR:PROT " cr) (Ok tt);
          ETime start]
    /\ Forall (fun ev => is_write_to R ev = false) e1
    /\ Forall (fun ev => addressed R ev = true ->
                         exists vals,
                           ev = EQueryAscii R (Literal ":READ?") vals) e1
    /\ writes_to R (e0 ++ e1)
       = [Literal ":OUTP ON"; FString ":SOUR:VOLT " bias;
          FString ":SENS:CURR:PROT " cr].
Proof.
  intros en Vmin Vmax step c P R bias cr s pts start e0 s0 r e1 s1 Hne H0 H1.
  destruct (PV_start_sweep_ok H0) as (_ & _ & -> & _).
  unfold PV.stepping in H1.
  assert (Hspare : Forall (fun ev => is_write_to R ev = false) e1).
  { revert H1. apply emits_for_range. intros j a.
    now apply PV_step_spares_second. }
  split; [reflexivity |]. split; [exact Hspare |]. split.
  - revert H1. apply emits_for_range. intros j a.
    now apply PV_step_reads_second.
  - rewrite writes_to_app, (writes_to_none Hspare). simpl.
    apply String.eqb_neq in Hne. now rewrite Hne, String.eqb_refl.
Qed.

Lemma C5_second_instrument_bias_fixed_witness :
  "GPIB0::16::INSTR" <> "GPIB0::14::INSTR"
  /\ exists e0 s0 r e1 s1,
      run (PV.start_sweep pv_demo) calm idle = (Ok (3%Z, 0), e0, s0)
      /\ run (PV.stepping pv_demo 3 0) calm s0 = (r, e1, s1)
      /\ writes_to "GPIB0::14::INSTR" (e0 ++ e1)
         = [Literal ":OUTP ON"; FString ":SOUR:VOLT " 0;
            FString ":SENS:CURR:PROT " (1 # 10)].
Proof.
  split; [discriminate |].
  do 5 eexists. split; [vm_compute; reflexivity |].
  split; [vm_compute; reflexivity |].
  apply (C5_second_instrument_bias_fixed calm 0 1 (1 # 2) (35 # 100)
           "GPIB0::16::INSTR" "GPIB0::14::INSTR" 0 (1 # 10) idle 3 0
           _ _ _ _ _ ltac:(discriminate) eq_refl eq_refl).
Defined.





(** C8.  Take a sweep whose loop has begun, and a write or query of the
    loop that the transport answers by an exception.  Then that operation is
    the last event of the loop, the function ends there by raising this
    very exception, having caused the events before the loop and those of
    the loop and nothing else, and none of these events is a command of the
    shutdown sequence.  First part: single-instrument script; second part:
    dual-instrument script. *)
Theorem C8_failure_skips_shutdown :
  (forall en Vmin Vmax step c K s pts start e0 s0 r e1 s1 pre ev post e,
      let p := (Vmin, Vmax, step, c, K) in
      run (IV.start_sweep p) en s = (Ok (pts, start), e0, s0) ->
      run (IV.stepping p pts start) en s0 = (r, e1, s1) ->
      e1 = (pre ++ ev :: post)%list -> failed ev e ->
      post = []
      /\ run (IV.Keithley_VOLTAGE_SWEEP p) en s
         = (Raise e, (e0 ++ pre ++ [ev])%list, s1)
      /\ Forall (fun x => is_shutdown_write x = false) (e0 ++ pre ++ [ev]))
  /\
  (forall en Vmin Vmax step c P R bias cr s pts start e0 s0 r e1 s1
          pre ev post e,
      let p := (Vmin, Vmax, step, c, P, R, bias, cr) in
      run (PV.start_sweep p) en s = (Ok (pts, start), e0, s0) ->
      run (PV.stepping p pts start) en s0 = (r, e1, s1) ->
      e1 = (pre ++ ev :: post)%list -> failed ev e ->
      post = []
      /\ run (PV.Keithley_VOLTAGE_SWEEP p) en s
         = (Raise e, (e0 ++ pre ++ [ev])%list, s1)
      /\ Forall (fun x => is_shutdown_write x = false) (e0 ++ pre ++ [ev])).
Proof.
  split.
  - intros en Vmin Vmax step c K s pts start e0 s0 r e1 s1 pre ev post e p
      H0 H1 He Hfail.
    assert (Hstop : failstop (IV.stepping p pts start)).
    { apply failstop_for_range. intros j a. apply IV_step_failstop. }
    destruct (Hstop _ _ _ _ _ H1 pre ev post e He Hfail) as [-> ->].
    subst e1. split; [reflexivity |]. split.
    + exact (IV_cut_short H0 H1).
    + apply Forall_app. split.
      * destruct (IV_start_sweep_ok H0) as (_ & _ & -> & _).
        now repeat constructor.
      * revert H1. apply emits_for_range. intros j a.
        apply IV_step_no_shutdown.
  - intros en Vmin Vmax step c P R bias cr s pts start e0 s0 r e1 s1
      pre ev post e p H0 H1 He Hfail.
    assert (Hstop : failstop (PV.stepping p pts start)).
    { apply failstop_for_range. intros j a. apply PV_step_failstop. }
    destruct (Hstop _ _ _ _ _ H1 pre ev post e He Hfail) as [-> ->].
    subst e1. split; [reflexivity |]. split.
    + exact (PV_cut_short H0 H1).
    + apply Forall_app. split.
      * destruct (PV_start_sweep_ok H0) as (_ & _ & -> & _).
        now repeat constructor.
      * revert H1. apply emits_for_range. intros j a.
        apply PV_step_no_shutdown.
Qed.

Lemma C8_failure_skips_shutdown_witness :
  (exists e0 s0 r e1 s1 pre ev,
      run (IV.start_sweep iv_demo) (timeout_at 4) idle = (Ok (3%Z, 0), e0, s0)
      /\ run (IV.stepping iv_demo 3 0) (timeout_at 4) s0 = (r, e1, s1)
      /\ e1 = (pre ++ [ev])%list
      /\ failed ev (VisaIOError (-1073807339))
      /\ run (IV.Keithley_VOLTAGE_SWEEP iv_demo) (timeout_at 4) idle
         = (Raise (VisaIOError (-1073807339)), (e0 ++ pre ++ [ev])%list, s1))
  /\ (exists e0 s0 r e1 s1 pre ev,
      run (PV.start_sweep pv_demo) (timeout_at 6) idle = (Ok (3%Z, 0), e0, s0)
      /\ run (PV.stepping pv_demo 3 0) (timeout_at 6) s0 = (r, e1, s1)
      /\ e1 = (pre ++ [ev])%list
      /\ failed ev (VisaIOError (-1073807339))
      /\ run (PV.Keithley_VOLTAGE_SWEEP pv_demo) (timeout_at 6) idle
         = (Raise (VisaIOError (-1073807339)), (e0 ++ pre ++ [ev])%list, s1)).
Proof.
  split.
  - eassert (H0 : run (IV.start_sweep iv_demo) (timeout_at 4) idle
                  = (Ok (3%Z, 0), _, _)) by (vm_compute; reflexivity).
    match type of H0 with
    | _ = (_, _, ?s0) =>
        eassert (H1 : run (IV.stepping iv_demo 3 0) (timeout_at 4) s0 = (_, _, _))
          by (vm_compute; reflexivity)
    end.
    match type of H1 with
    | _ = (_, ?e1, _) =>
        assert (He : e1 = (removelast e1 ++ [last e1 EFileClose])%list)
          by (vm_compute; reflexivity);
        assert (Hf : failed (last e1 EFileClose) (VisaIOError (-1073807339)))
          by (vm_compute; reflexivity)
    end.
    destruct (proj1 C8_failure_skips_shutdown _ _ _ _ _ _ _ _ _ _ _ _ _ _ _ _ _
                _ H0 H1 He Hf) as (_ & Hrun & _).
    do 7 eexists. split; [exact H0 |]. split; [exact H1 |].
    split; [exact He |]. split; [exact Hf |]. exact Hrun.
  - eassert (H0 : run (PV.start_sweep pv_demo) (timeout_at 6) idle
                  = (Ok (3%Z, 0), _, _)) by (vm_compute; reflexivity).
    match type of H0 with
    | _ = (_, _, ?s0) =>
        eassert (H1 : run (PV.stepping pv_demo 3 0) (timeout_at 6) s0 = (_, _, _))
          by (vm_compute; reflexivity)
    end.
    match type of H1 with
    | _ = (_, ?e1, _) =>
        assert (He : e1 = (removelast e1 ++ [last e1 EFileClose])%list)
          by (vm_compute; reflexivity);
        assert (Hf : failed (last e1 EFileClose) (VisaIOError (-1073807339)))
          by (vm_compute; reflexivity)
    end.
    destruct (proj2 C8_failure_skips_shutdown _ _ _ _ _ _ _ _ _ _ _ _ _ _ _ _
                _ _ _ _ _ H0 H1 He Hf) as (_ & Hrun & _).
    do 7 eexists. split; [exact H0 |]. split; [exact H1 |].
    split; [exact He |]. split; [exact Hf |]. exact Hrun.
Defined.

(** C9, as the script has it.  The elapsed times are differences of readings
    of the wall clock: as long as the wall clock does not go back between two
    successive readings, the elapsed times recorded by a sweep that runs to
    its end never decrease.  First part: single-instrument script; second
    part: dual-instrument script. *)
Theorem C9_elapsed_time_with_steady_clock :
  (forall en p s pts d evs s',
      (forall m, clock en m <= clock en (S m)) ->
      run (IV.acquire p) en s = (Ok (pts, d), evs, s') ->
      non_decreasing (IV.t_values d))
  /\
  (forall en p s pts d evs s',
      (forall m, clock en m <= clock en (S m)) ->
      run (PV.acquire p) en s = (Ok (pts, d), evs, s') ->
      non_decreasing (PV.t_values d)).
Proof.
  split.
  - intros en [[[[Vmin Vmax] step] c] K] s pts d evs s' Hmono Hacq.
    destruct (IV_acquire_ok Hacq) as (start & e0 & s0 & e1 & s1 & _ & H1 & _).
    unfold IV.stepping in H1.
    destruct (IV_loop_ok _ _ _ _ _ _ _ _ _ _ _ _ H1) as (_ & _ & Ht & _).
    rewrite Ht. simpl. now apply elapsed_non_decreasing.
  - intros en [[[[[[[Vmin Vmax] step] c] P] R] bias] cr] s pts d evs s'
      Hmono Hacq.
    destruct (PV_acquire_ok Hacq) as (start & e0 & s0 & e1 & s1 & _ & H1 & _).
    unfold PV.stepping in H1.
    destruct (PV_loop_ok _ _ _ _ _ _ _ _ _ _ _ _ _ H1) as (_ & _ & Ht & _).
    rewrite Ht. simpl. now apply elapsed_non_decreasing.
Qed.

Lemma calm_clock_steady : forall m, clock calm m <= clock calm (S m).
Proof.
  intros m. unfold calm, clock, Qle. simpl. lia.
Defined.

Lemma C9_elapsed_time_with_steady_clock_witness :
  (forall m, clock calm m <= clock calm (S m))
  /\ (exists d evs s',
        run (IV.acquire iv_demo) calm idle = (Ok (3%Z, d), evs, s')
        /\ non_decreasing (IV.t_values d))
  /\ (exists d evs s',
        run (PV.acquire pv_demo) calm idle = (Ok (3%Z, d), evs, s')
        /\ non_decreasing (PV.t_values d)).
Proof.
  split; [exact calm_clock_steady |]. split.
  - eassert (Hrun : run (IV.acquire iv_demo) calm idle = (Ok (3%Z, _), _, _))
      by (vm_compute; reflexivity).
    do 3 eexists. split; [exact Hrun |].
    exact (proj1 C9_elapsed_time_with_steady_clock _ _ _ _ _ _ _
             calm_clock_steady Hrun).
  - eassert (Hrun : run (PV.acquire pv_demo) calm idle = (Ok (3%Z, _), _, _))
      by (vm_compute; reflexivity).
    do 3 eexists. split; [exact Hrun |].
    exact (proj2 C9_elapsed_time_with_steady_clock _ _ _ _ _ _ _
             calm_clock_steady Hrun).
Defined.

(** C9, as the claim has it, fails: when the wall clock is set back during
    the sweep, a later sample point carries a smaller elapsed time. *)
Lemma C9_counterexample :
  exists d evs s',
    run (IV.acquire iv_demo) clock_set_back idle = (Ok (3%Z, d), evs, s')
    /\ IV.t_values d = [5; 3; 3]
    /\ ~ non_decreasing (IV.t_values d).
Proof.
  do 3 eexists. split; [vm_compute; reflexivity |].
  split; [reflexivity |].
  simpl. intros [H _]. revert H. unfold Qle. simpl. lia.
Qed.

(** C10, as the scripts have it.  Every current is the entry of index 1 of
    the answer to a [:READ?] query, and in the dual-instrument script the
    voltage of the second instrument is the entry of index 0 of the answer
    to a query of its own.  A round fails with [IndexError], at the query
    and before anything is appended, when the answer to a current query has
    fewer than two values or when the answer to the voltage query of the
    second instrument is empty.  When every answer has at least two values,
    the function never raises [IndexError].  Parts 1 and 2: the
    single-instrument script; parts 3 and 4: the dual-instrument script. *)
Theorem C10_index_of_the_answers :
  (forall en Vmin step K start i d s r evs s',
      run (IV.step Vmin step K start i d) en s = (r, evs, s') ->
      forall vals,
        In (EQueryAscii K (Literal ":READ?") (Ok vals)) evs ->
        ((length vals < 2)%nat ->
         r = Raise IndexError
         /\ exists pre,
             evs = (pre ++ [EQueryAscii K (Literal ":READ?") (Ok vals)])%list)
        /\ (forall d', r = Ok d' ->
              exists current,
                nth_error vals 1 = Some current
                /\ IV.current_values d'
                   = (IV.current_values d ++ [current])%list))
  /\
  (forall en p s r evs s',
      (forall n vals, ascii_reply en n = Reply vals -> (2 <= length vals)%nat) ->
      run (IV.Keithley_VOLTAGE_SWEEP p) en s = (r, evs, s') ->
      r <> Raise IndexError)
  /\
  (forall en Vmin step P R start i d s r evs s',
      run (PV.step Vmin step P R start i d) en s = (r, evs, s') ->
      (forall vals,
          nth_error evs 3 = Some (EQueryAscii P (Literal ":READ?") (Ok vals)) ->
          ((length vals < 2)%nat -> r = Raise IndexError /\ length evs = 4%nat)
          /\ (forall d', r = Ok d' ->
                exists current,
                  nth_error vals 1 = Some current
                  /\ PV.current_values d'
                     = (PV.current_values d ++ [current])%list))
      /\ (forall vals,
          nth_error evs 4 = Some (EQueryAscii R (Literal ":READ?") (Ok vals)) ->
          (vals = [] -> r = Raise IndexError /\ length evs = 5%nat)
          /\ (forall d', r = Ok d' ->
                exists voltage_1,
                  nth_error vals 0 = Some voltage_1
                  /\ PV.voltage_1_values d'
                     = (PV.voltage_1_values d ++ [voltage_1])%list))
      /\ (forall vals,
          nth_error evs 5 = Some (EQueryAscii R (Literal ":READ?") (Ok vals)) ->
          ((length vals < 2)%nat -> r = Raise IndexError /\ length evs = 6%nat)
          /\ (forall d', r = Ok d' ->
                exists current_1,
                  nth_error vals 1 = Some current_1
                  /\ PV.current_1_values d'
                     = (PV.current_1_values d ++ [current_1])%list)))
  /\
  (forall en p s r evs s',
      (forall n vals, ascii_reply en n = Reply vals -> (2 <= length vals)%nat) ->
      run (PV.Keithley_VOLTAGE_SWEEP p) en s = (r, evs, s') ->
      r <> Raise IndexError).
Proof.
  split; [| split; [| split]].
  - intros en Vmin step K start i d s r evs s' H vals Hin.
    destruct r as [d' | e].
    + destruct (IV_step_ok H) as (reading & current & _ & Hn & -> & -> & _).
      assert (Hv : vals = reading).
      { apply in_app_or in Hin. destruct Hin as [Hin | Hin].
        - simpl in Hin.
          destruct Hin as [Hin | [Hin | [Hin | [Hin | []]]]];
            try discriminate Hin. now injection Hin as <-.
        - destruct (Py.is_whole _); simpl in Hin;
            [destruct Hin as [Hin | []]; discriminate Hin | contradiction]. }
      subst vals. split.
      * intros Hshort. apply short_has_no_index_1 in Hshort. congruence.
      * intros d'' Hd. injection Hd as <-. exists current. now split.
    + split; [| discriminate].
      intros Hshort.
      destruct (IV_step_raise H) as [-> | [(now & ->) | (now & v0 & -> & Hn & ->)]].
      * simpl in Hin. destruct Hin as [Hin | []]. discriminate Hin.
      * simpl in Hin.
        destruct Hin as [Hin | [Hin | [Hin | [Hin | []]]]];
          discriminate Hin.
      * simpl in Hin.
        destruct Hin as [Hin | [Hin | [Hin | [Hin | []]]]];
          try discriminate Hin.
        injection Hin as ->. split; [reflexivity |].
        eexists [_; _; _]. reflexivity.
  - intros en p s r evs s' Htwo H. exact (IV_sweep_safe en p Htwo _ _ _ _ H).
  - intros en Vmin step P R start i d s r evs s' H.
    destruct r as [d' | e].
    + destruct (PV_step_ok H)
        as (r0 & r1 & r2 & c0 & v1 & c1 & _ & _ & _ & H0 & H1 & H2 & -> & -> & _).
      repeat split; intros; try discriminate.
      all: try match goal with
               | Hs : (length ?v < 2)%nat, Hn : nth_error _ _ = Some (EQueryAscii _ _ (Ok ?v)) |- _ =>
                   simpl in Hn; injection Hn as <-;
                   apply short_has_no_index_1 in Hs; congruence
               | Hs : ?v = [], Hn : nth_error _ _ = Some (EQueryAscii _ _ (Ok ?v)) |- _ =>
                   simpl in Hn; injection Hn as <-; subst; discriminate
               end.
      all: match goal with
           | Hn : nth_error _ _ = Some (EQueryAscii _ _ (Ok ?v)) |- _ =>
               simpl in Hn; injection Hn as <-
           end.
      all: match goal with
           | Hd : Ok _ = Ok _ |- _ => injection Hd as <-
           end.
      all: eexists; split; [eassumption | reflexivity].
    + destruct (PV_step_raise H)
        as [-> | [(now & ->) | [(now & r0 & -> & Hn0 & ->)
           | [(now & r0 & -> & Hn0) | [(now & r0 & r1 & -> & Hn0 & Hn1 & ->)
           | [(now & r0 & r1 & -> & Hn0 & Hn1)
           | (now & r0 & r1 & r2 & -> & Hn0 & Hn1 & Hn2 & ->)]]]]]].
      all: repeat split; intros; try discriminate.
      all: try match goal with
               | Hs : (length ?v < 2)%nat, Hn : nth_error _ _ = Some (EQueryAscii _ _ (Ok ?v)) |- _ =>
                   simpl in Hn; injection Hn as <-;
                   apply short_has_no_index_1 in Hs; congruence
               | Hs : ?v = [], Hn : nth_error _ _ = Some (EQueryAscii _ _ (Ok ?v)) |- _ =>
                   simpl in Hn; injection Hn as <-; subst; simpl in *; congruence
               end.
  - intros en p s r evs s' Htwo H. exact (PV_sweep_safe en p Htwo _ _ _ _ H).
Qed.

Lemma calm_two_values :
  forall n vals, ascii_reply calm n = Reply vals -> (2 <= length vals)%nat.
Proof.
  intros n vals H. simpl in H. injection H as <-. simpl. apply le_n.
Defined.

Lemma C10_index_of_the_answers_witness :
  (exists d' evs s',
      run (IV.step 0 (1 # 2) "GPIB0::12::INSTR" 0 1 IV.no_data) calm idle
      = (Ok d', evs, s')
      /\ In (EQueryAscii "GPIB0::12::INSTR" (Literal ":READ?")
                         (Ok [1; 1 # 1000])) evs
      /\ exists current,
          nth_error [1; 1 # 1000] 1 = Some current
          /\ IV.current_values d' = [current])
  /\ (forall n vals, ascii_reply calm n = Reply vals -> (2 <= length vals)%nat)
  /\ fst (fst (run (IV.Keithley_VOLTAGE_SWEEP iv_demo) calm idle))
     <> Raise IndexError
  /\ (exists evs s',
        run (PV.step 0 (1 # 2) "GPIB0::16::INSTR" "GPIB0::14::INSTR" 0 1
                     PV.no_data) (one_value_at 1) idle
        = (Raise IndexError, evs, s')
        /\ nth_error evs 3
           = Some (EQueryAscii "GPIB0::16::INSTR" (Literal ":READ?") (Ok [5]))
        /\ length evs = 4%nat)
  /\ fst (fst (run (PV.Keithley_VOLTAGE_SWEEP pv_demo) calm idle))
     <> Raise IndexError.
Proof.
  split; [| split; [exact calm_two_values | split; [| split]]].
  - eassert (Hrun : run (IV.step 0 (1 # 2) "GPIB0::12::INSTR" 0 1 IV.no_data)
                        calm idle = (Ok _, _, _))
      by (vm_compute; reflexivity).
    assert (Hin : In (EQueryAscii "GPIB0::12::INSTR" (Literal ":READ?")
                                  (Ok [1; 1 # 1000]))
                     (snd (fst (run (IV.step 0 (1 # 2) "GPIB0::12::INSTR" 0 1
                                             IV.no_data) calm idle))))
      by (vm_compute; tauto).
    rewrite Hrun in Hin.
    destruct (proj1 C10_index_of_the_answers _ _ _ _ _ _ _ _ _ _ _ Hrun _ Hin)
      as [_ Hok].
    do 3 eexists. split; [exact Hrun |]. split; [exact Hin |].
    exact (Hok _ eq_refl).
  - destruct (run (IV.Keithley_VOLTAGE_SWEEP iv_demo) calm idle)
      as [[r evs] s'] eqn:Hrun.
    exact (proj1 (proj2 C10_index_of_the_answers) _ _ _ _ _ _
             calm_two_values Hrun).
  - eassert (Hrun : run (PV.step 0 (1 # 2) "GPIB0::16::INSTR"
                                 "GPIB0::14::INSTR" 0 1 PV.no_data)
                        (one_value_at 1) idle = (_, _, _))
      by (vm_compute; reflexivity).
    destruct (proj1 (proj2 (proj2 C10_index_of_the_answers))
                _ _ _ _ _ _ _ _ _ _ _ _ Hrun) as (Hfirst & _ & _).
    destruct (Hfirst [5] eq_refl) as [Hshort _].
    destruct Hshort as [Hr Hlen]; [simpl; apply le_n |].
    do 2 eexists. split; [exact Hrun |]. split; [reflexivity | exact Hlen].
  - destruct (run (PV.Keithley_VOLTAGE_SWEEP pv_demo) calm idle)
      as [[r evs] s'] eqn:Hrun.
    exact (proj2 (proj2 (proj2 C10_index_of_the_answers)) _ _ _ _ _ _
             calm_two_values Hrun).
Defined.

(** C10, as the claim has it, fails in the dual-instrument script: when the
    voltage query of the second instrument is answered by one value only
    (fewer than two), the round does not fail; it takes index 0 of that
    answer and appends the sample point, and the sweep runs to its end.
    Here bus operation 6 is that query in the first round. *)
Lemma C10_counterexample :
  exists d evs s',
    run (PV.acquire pv_demo) (one_value_at 6) idle = (Ok (3%Z, d), evs, s')
    /\ In (EQueryAscii "GPIB0::14::INSTR" (Literal ":READ?") (Ok [5])) evs
    /\ (length [5%Q] < 2)%nat
    /\ nth_error evs 9
       = Some (EQueryAscii "GPIB0::14::INSTR" (Literal ":READ?") (Ok [5]))
    /\ PV.voltage_1_values d = [5; 10; 14]
    /\ length (PV.t_values d) = 3%nat.
Proof.
  do 3 eexists. split; [vm_compute; reflexivity |].
  split; [simpl; tauto |]. split; [apply le_n |]. repeat split; reflexivity.
Qed.

(** * Further properties of the scripts *)

(** ** The initializers *)

(** X1.  Every run of an initializer sends its bus operations in one fixed
    order and skips none: the identification query first, then the reset,
    the source function, the source voltage, the compliance, the
    auto-ranging and the measurement function; a run that fails has sent a
    beginning of that list.  The handle is returned only when all seven
    were accepted, and it is the handle of the address asked for.  When the
    resource cannot be opened, the initializer raises the transport's error
    without any bus operation.  First part: the single-instrument script,
    with its fixed address and compliance; second part: the dual-instrument
    script, with the address and the compliance it is given. *)
Theorem initializer_protocol :
  (forall en s r evs s',
      run IV.initialize_Keithley en s = (r, evs, s') ->
      let k := "GPIB0::12::INSTR" in
      let protocol :=
        [Asked k (Literal "*IDN?");
         Written k (Literal "*rst; status:preset;");
         Written k (Literal ":SOUR:FUNC VOLT");
         Written k (Literal ":SOUR:VOLT 0");
         Written k (Literal ":SENS:CURR:PROT 150E-3");
         Written k (Literal ":SENS:CURR:RANG:AUTO ON");
         Written k (Literal (":SENS:FUNC " ++ dquote ++ "CURR" ++ dquote))] in
      (exists m, requests evs = firstn m protocol)
      /\ (forall handle, r = Ok handle ->
                         handle = k /\ requests evs = protocol)
      /\ (forall status,
             open_resource_reply en k = BusError status ->
             r = Raise (VisaIOError status) /\ requests evs = []))
  /\
  (forall en s resource_name compliance_current r evs s',
      run (PV.initialize_Keithley resource_name compliance_current) en s
        = (r, evs, s') ->
      let k := resource_name in
      let protocol :=
        [Asked k (Literal "*IDN?");
         Written k (Literal "*rst; status:preset;");
         Written k (Literal ":SOUR:FUNC VOLT");
         Written k (Literal ":SOUR:VOLT 0");
         Written k (FString ":SENS:CURR:PROT " compliance_current);
         Written k (Literal ":SENS:CURR:RANG:AUTO ON");
         Written k (Literal (":SENS:FUNC " ++ dquote ++ "CURR" ++ dquote))] in
      (exists m, requests evs = firstn m protocol)
      /\ (forall handle, r = Ok handle ->
                         handle = k /\ requests evs = protocol)
      /\ (forall status,
             open_resource_reply en k = BusError status ->
             r = Raise (VisaIOError status) /\ requests evs = [])).
Proof.
  split.
  - intros en s r evs s' H k protocol. split; [| split].
    + unfold IV.initialize_Keithley in H. walk H; try prim H;
        first [ exists 0%nat; reflexivity | exists 1%nat; reflexivity
              | exists 2%nat; reflexivity | exists 3%nat; reflexivity
              | exists 4%nat; reflexivity | exists 5%nat; reflexivity
              | exists 6%nat; reflexivity | exists 7%nat; reflexivity ].
    + intros handle ->.
      destruct (IV_initialize_Keithley_ok H) as (-> & idn & ->).
      split; reflexivity.
    + intros status Hopen. unfold IV.initialize_Keithley in H.
      do 3 walk_step H.
      rewrite (run_bind_raise _ (open_resource_refused Hopen)) in H.
      injection H as <- <- _. split; reflexivity.
  - intros en s name c r evs s' H k protocol. split; [| split].
    + unfold PV.initialize_Keithley in H. walk H; try prim H;
        first [ exists 0%nat; reflexivity | exists 1%nat; reflexivity
              | exists 2%nat; reflexivity | exists 3%nat; reflexivity
              | exists 4%nat; reflexivity | exists 5%nat; reflexivity
              | exists 6%nat; reflexivity | exists 7%nat; reflexivity ].
    + intros handle ->.
      destruct (PV_initialize_Keithley_ok H) as (-> & idn & ->).
      split; reflexivity.
    + intros status Hopen. unfold PV.initialize_Keithley in H.
      do 3 walk_step H.
      rewrite (run_bind_raise _ (open_resource_refused Hopen)) in H.
      injection H as <- <- _. split; reflexivity.
Qed.

Lemma initializer_protocol_witness :
  length (requests (snd (fst (run IV.initialize_Keithley calm idle)))) = 7%nat
  /\ fst (fst (run (PV.initialize_Keithley "GPIB0::14::INSTR" (1 # 10))
                   unplugged idle))
     = Raise (VisaIOError (-1073807343)).
Proof.
  split.
  - eassert (Hrun : run IV.initialize_Keithley calm idle = (Ok _, _, _))
      by (vm_compute; reflexivity).
    rewrite Hrun. cbn [fst snd].
    rewrite (proj2 (proj1 (proj2 (proj1 initializer_protocol _ _ _ _ _ Hrun))
                          _ eq_refl)).
    reflexivity.
  - eassert (Hrun : run (PV.initialize_Keithley "GPIB0::14::INSTR" (1 # 10))
                        unplugged idle = (_, _, _))
      by (vm_compute; reflexivity).
    rewrite Hrun.
    exact (proj1 (proj2 (proj2 (proj2 initializer_protocol _ _ _ _ _ _ _ Hrun))
                        _ eq_refl)).
Defined.

(** ** The number of points at the edges *)

(** X2.  With a step size of zero, the division of line 54 raises
    [ZeroDivisionError] before the function has done anything else: no
    command is sent, the output is not switched on, no file name is asked
    for.  First part: the single-instrument script; second part: the
    dual-instrument script. *)
Theorem zero_step_raises_before_any_command :
  (forall en s Vmin Vmax step c K,
      step == 0 ->
      run (IV.Keithley_VOLTAGE_SWEEP (Vmin, Vmax, step, c, K)) en s
      = (Raise ZeroDivisionError, [], s))
  /\
  (forall en s Vmin Vmax step c P R bias cr,
      step == 0 ->
      run (PV.Keithley_VOLTAGE_SWEEP (Vmin, Vmax, step, c, P, R, bias, cr))
          en s
      = (Raise ZeroDivisionError, [], s)).
Proof.
  split; intros; apply Qeq_bool_iff in H.
  - unfold IV.Keithley_VOLTAGE_SWEEP, IV.acquire, IV.start_sweep, count_points,
      run, bind, raise. now rewrite H.
  - unfold PV.Keithley_VOLTAGE_SWEEP, PV.acquire, PV.start_sweep, count_points,
      run, bind, raise. now rewrite H.
Qed.

Lemma zero_step_raises_before_any_command_witness :
  run (IV.Keithley_VOLTAGE_SWEEP (0, 1, 0, 1 # 10, "GPIB0::12::INSTR"))
      calm idle
  = (Raise ZeroDivisionError, [], idle)
  /\ run (PV.Keithley_VOLTAGE_SWEEP
            (0, 1, 0, 35 # 100, "GPIB0::16::INSTR", "GPIB0::14::INSTR", 0,
             1 # 10)) calm idle
     = (Raise ZeroDivisionError, [], idle).
Proof.
  split.
  - apply (proj1 zero_step_raises_before_any_command). reflexivity.
  - apply (proj2 zero_step_raises_before_any_command). reflexivity.
Defined.





(** ** The commanded voltages stay inside the range *)







(** ** The data of a completed sweep *)

(** X8.  Single-instrument script.  After an instrument phase that ran to
    its end, the four data holders have one entry per point, and the entries
    of index [i] are what round [i] measured: the time elapsed between the
    first reading of the clock and reading [i + 1], the commanded voltage
    [Vmin + i * step_size], the value of index 1 of the answer to the query
    of that round (bus operations are counted from the one that switched
    the output on), and the product of that voltage and that current. *)
Theorem IV_rows_are_the_measurements :
  forall en Vmin Vmax step c K s pts d evs s',
    run (IV.acquire (Vmin, Vmax, step, c, K)) en s = (Ok (pts, d), evs, s') ->
    let n := Z.to_nat pts in
    length (IV.t_values d) = n
    /\ length (IV.voltage_values d) = n
    /\ length (IV.current_values d) = n
    /\ length (IV.power_values d) = n
    /\ forall i, (i < n)%nat ->
         let v := Vmin + inject_Z (Z.of_nat i) * step in
         exists reading current,
           ascii_reply en (2 + bus_ops s + 2 * i) = Reply reading
           /\ nth_error reading 1 = Some current
           /\ IV.sample_at d i
              = Some (IV.mkPoint
                        (clock en (1 + clock_reads s + i)
                         - clock en (clock_reads s))
                        v current (v * current)).
Proof.
  intros en Vmin Vmax step c K s pts d evs s' Hacq n.
  destruct (IV_acquire_lengths Hacq) as (Lt & Lv & Lc & Lp).
  do 4 (split; [assumption |]). intros i Hi v.
  destruct (IV_acquire_ok Hacq) as (start & e0 & s0 & e1 & s1 & H0 & H1 & _).
  rewrite (IV_start_sweep_clock H0) in H1.
  destruct (IV_start_sweep_ok H0) as (_ & _ & _ & ->).
  unfold IV.stepping in H1.
  destruct (IV_loop_ok _ _ _ _ _ _ _ _ _ _ _ _ H1) as (_ & Hv & Ht & _).
  destruct (IV_loop_rows _ _ _ _ _ _ _ _ _ _ _ _ H1)
    as (_ & cs & ps & Hc & Hp & Hrows).
  destruct (Hrows i Hi) as (reading & current & Hr & Hcur & Hci & Hpi).
  exists reading, current. split; [exact Hr |]. split; [exact Hcur |].
  unfold IV.sample_at. rewrite Ht, Hv, Hc, Hp. cbn [IV.no_data
    IV.t_values IV.voltage_values IV.current_values IV.power_values app].
  rewrite Hci, Hpi, nth_error_map_seq by exact Hi.
  rewrite nth_error_map, zseq_nth by exact Hi. reflexivity.
Qed.

Lemma IV_rows_are_the_measurements_witness :
  exists d evs s',
    run (IV.acquire iv_demo) calm idle = (Ok (3%Z, d), evs, s')
    /\ length (IV.power_values d) = 3%nat
    /\ exists reading current,
        ascii_reply calm 6 = Reply reading
        /\ nth_error reading 1 = Some current
        /\ IV.sample_at d 2
           = Some (IV.mkPoint (clock calm 3 - clock calm 0)
                              (0 + inject_Z 2 * (1 # 2)) current
                              ((0 + inject_Z 2 * (1 # 2)) * current)).
Proof.
  eassert (Hrun : run (IV.acquire iv_demo) calm idle = (Ok (_, _), _, _))
    by (vm_compute; reflexivity).
  do 3 eexists. split; [exact Hrun |].
  destruct (IV_rows_are_the_measurements calm 0 1 (1 # 2) (1 # 10)
              "GPIB0::12::INSTR" idle _ _ _ _ Hrun)
    as (_ & _ & _ & Lp & Hrows).
  split; [exact Lp |]. apply (Hrows 2%nat). simpl. lia.
Defined.

(** X9.  Dual-instrument script.  After an instrument phase that ran to its
    end, the eight data holders have one entry per point, and the entries of
    index [i] are what round [i] measured: the elapsed time, the commanded
    voltage, the current of the sweeping instrument (index 1 of the answer
    to the first query of the round), the voltage and the current of the
    second instrument (index 0 of the answer to the second query, index 1
    of the answer to the third), and the three products [V * I],
    [V1 * I1] and [V * I1].  Bus operations are counted from the one that
    switched the first output on; four of them come before the loop. *)
Theorem PV_rows_are_the_measurements :
  forall en Vmin Vmax step c P R bias cr s pts d evs s',
    run (PV.acquire (Vmin, Vmax, step, c, P, R, bias, cr)) en s
      = (Ok (pts, d), evs, s') ->
    let n := Z.to_nat pts in
    length (PV.t_values d) = n
    /\ length (PV.voltage_values d) = n
    /\ length (PV.current_values d) = n
    /\ length (PV.power_values d) = n
    /\ length (PV.voltage_1_values d) = n
    /\ length (PV.current_1_values d) = n
    /\ length (PV.power_1_values d) = n
    /\ length (PV.power_2_values d) = n
    /\ forall i, (i < n)%nat ->
         let v := Vmin + inject_Z (Z.of_nat i) * step in
         exists reading reading_1 reading_2 current voltage_1 current_1,
           ascii_reply en (5 + bus_ops s + 4 * i) = Reply reading
           /\ ascii_reply en (6 + bus_ops s + 4 * i) = Reply reading_1
           /\ ascii_reply en (7 + bus_ops s + 4 * i) = Reply reading_2
           /\ nth_error reading 1 = Some current
           /\ nth_error reading_1 0 = Some voltage_1
           /\ nth_error reading_2 1 = Some current_1
           /\ PV.sample_at d i
              = Some (PV.mkPoint
                        (clock en (1 + clock_reads s + i)
                         - clock en (clock_reads s))
                        v current (v * current)
                        voltage_1 current_1 (voltage_1 * current_1)
                        (v * current_1)).
Proof.
  intros en Vmin Vmax step c P R bias cr s pts d evs s' Hacq n.
  destruct (PV_acquire_ok Hacq) as (start & e0 & s0 & e1 & s1 & H0 & H1 & _).
  rewrite (PV_start_sweep_clock H0) in H1.
  destruct (PV_start_sweep_ok H0) as (_ & _ & _ & ->).
  unfold PV.stepping in H1.
  destruct (PV_loop_ok _ _ _ _ _ _ _ _ _ _ _ _ _ H1)
    as (_ & Hv & Ht & Lc & Lp & Lv1 & Lc1 & Lp1 & Lp2).
  destruct (PV_loop_rows _ _ _ _ _ _ _ _ _ _ _ _ _ H1)
    as (_ & cs & ps & vs1 & cs1 & ps1 & ps2
        & Hc & Hp & Hvs1 & Hcs1 & Hps1 & Hps2 & Hrows).
  split; [now rewrite Ht, length_app, length_map, length_seq |].
  split; [now rewrite Hv, length_app, length_map, zseq_length |].
  do 6 (split; [assumption |]). intros i Hi v.
  destruct (Hrows i Hi)
    as (r0 & r1 & r2 & c0 & v1 & c1 & Hr0 & Hr1 & Hr2 & Hc0 & Hv1 & Hc1
        & Hci & Hpi & Hv1i & Hc1i & Hp1i & Hp2i).
  exists r0, r1, r2, c0, v1, c1. do 6 (split; [assumption |]).
  unfold PV.sample_at.
  rewrite Ht, Hv, Hc, Hp, Hvs1, Hcs1, Hps1, Hps2.
  cbn [PV.no_data PV.t_values PV.voltage_values PV.current_values
       PV.power_values PV.voltage_1_values PV.current_1_values
       PV.power_1_values PV.power_2_values app].
  rewrite Hci, Hpi, Hv1i, Hc1i, Hp1i, Hp2i, nth_error_map_seq by exact Hi.
  rewrite nth_error_map, zseq_nth by exact Hi. reflexivity.
Qed.

Lemma PV_rows_are_the_measurements_witness :
  exists d evs s',
    run (PV.acquire pv_demo) calm idle = (Ok (3%Z, d), evs, s')
    /\ length (PV.power_2_values d) = 3%nat
    /\ exists reading reading_1 reading_2 current voltage_1 current_1,
        ascii_reply calm 13 = Reply reading
        /\ ascii_reply calm 14 = Reply reading_1
        /\ ascii_reply calm 15 = Reply reading_2
        /\ nth_error reading 1 = Some current
        /\ nth_error reading_1 0 = Some voltage_1
        /\ nth_error reading_2 1 = Some current_1
        /\ PV.sample_at d 2
           = Some (PV.mkPoint (clock calm 3 - clock calm 0)
                              (0 + inject_Z 2 * (1 # 2)) current
                              ((0 + inject_Z 2 * (1 # 2)) * current)
                              voltage_1 current_1 (voltage_1 * current_1)
                              ((0 + inject_Z 2 * (1 # 2)) * current_1)).
Proof.
  eassert (Hrun : run (PV.acquire pv_demo) calm idle = (Ok (_, _), _, _))
    by (vm_compute; reflexivity).
  do 3 eexists. split; [exact Hrun |].
  destruct (PV_rows_are_the_measurements calm 0 1 (1 # 2) (35 # 100)
              "GPIB0::16::INSTR" "GPIB0::14::INSTR" 0 (1 # 10) idle _ _ _ _
              Hrun)
    as (_ & _ & _ & _ & _ & _ & _ & Lp & Hrows).
  split; [exact Lp |]. apply (Hrows 2%nat). simpl. lia.
Defined.

(** ** What the instruments receive during a completed sweep *)

(** X10.  After an instrument phase that ran to its end, and whatever becomes
    of the file and of the plot, the bus operations of the whole function
    are, in this order: output on (and, in the dual-instrument script, the
    setting up of the second instrument); for each point in turn, the write
    of its voltage followed by one query of the sweeping instrument (and, in
    the dual-instrument script, two queries of the second one); then the
    shutdown.  The function waits 0.05 s once per point and at no other
    time.  First part: the single-instrument script; second part: the
    dual-instrument script. *)
Theorem completed_sweep_traffic :
  (forall en Vmin Vmax step c K s pts d e0 s0 r evs s',
      run (IV.acquire (Vmin, Vmax, step, c, K)) en s = (Ok (pts, d), e0, s0) ->
      run (IV.Keithley_VOLTAGE_SWEEP (Vmin, Vmax, step, c, K)) en s
        = (r, evs, s') ->
      requests evs
      = (Written K (Literal ":OUTP ON")
         :: flat_map (fun i => [Written K (FString ":SOUR:VOLT "
                                             (Vmin + inject_Z i * step));
                                Asked K (Literal ":READ?")])
                     (zseq 0 (Z.to_nat pts))
         ++ [Written K (Literal ":SOUR:VOLT 0");
             Written K (Literal ":OUTP OFF")])%list
      /\ sleeps evs = repeat (5 # 100) (Z.to_nat pts))
  /\
  (forall en Vmin Vmax step c P R bias cr s pts d e0 s0 r evs s',
      run (PV.acquire (Vmin, Vmax, step, c, P, R, bias, cr)) en s
        = (Ok (pts, d), e0, s0) ->
      run (PV.Keithley_VOLTAGE_SWEEP (Vmin, Vmax, step, c, P, R, bias, cr))
          en s
        = (r, evs, s') ->
      requests evs
      = ([Written P (Literal ":OUTP ON");
          Written R (Literal ":OUTP ON");
          Written R (FString ":SOUR:VOLT " bias);
          Written R (FString ":SENS:CURR:PROT " cr)]
         ++ flat_map (fun i => [Written P (FString ":SOUR:VOLT "
                                             (Vmin + inject_Z i * step));
                                Asked P (Literal ":READ?");
                                Asked R (Literal ":READ?");
                                Asked R (Literal ":READ?")])
                     (zseq 0 (Z.to_nat pts))
         ++ [Written P (Literal ":SOUR:VOLT 0");
             Written R (Literal ":SOUR:VOLT 0");
             Written P (Literal ":OUTP OFF");
             Written R (Literal ":OUTP OFF")])%list
      /\ sleeps evs = repeat (5 # 100) (Z.to_nat pts)).
Proof.
  split.
  - intros en Vmin Vmax step c K s pts d e0 s0 r evs s' Hacq Hrun.
    destruct (IV_after_acquire_silent Hacq Hrun) as [-> ->].
    destruct (IV_acquire_ok Hacq) as (start & ea & sa & eb & sb & H0 & H1 & ->).
    destruct (IV_start_sweep_ok H0) as (_ & _ & -> & _).
    unfold IV.stepping in H1.
    destruct (IV_loop_traffic _ _ _ _ _ _ _ _ _ _ _ _ H1) as [Hr Hs].
    rewrite !requests_app, !sleeps_app, Hr, Hs. simpl.
    now rewrite app_nil_r.
  - intros en Vmin Vmax step c P R bias cr s pts d e0 s0 r evs s' Hacq Hrun.
    destruct (PV_after_acquire_silent Hacq Hrun) as [-> ->].
    destruct (PV_acquire_ok Hacq) as (start & ea & sa & eb & sb & H0 & H1 & ->).
    destruct (PV_start_sweep_ok H0) as (_ & _ & -> & _).
    unfold PV.stepping in H1.
    destruct (PV_loop_traffic _ _ _ _ _ _ _ _ _ _ _ _ _ H1) as [Hr Hs].
    rewrite !requests_app, !sleeps_app, Hr, Hs. simpl.
    now rewrite app_nil_r.
Qed.

Lemma completed_sweep_traffic_witness :
  length (requests
            (snd (fst (run (IV.Keithley_VOLTAGE_SWEEP iv_demo) calm idle))))
  = 9%nat
  /\ sleeps (snd (fst (run (PV.Keithley_VOLTAGE_SWEEP pv_demo)
                           no_directory idle)))
     = [5 # 100; 5 # 100; 5 # 100].
Proof.
  split.
  - eassert (Hacq : run (IV.acquire iv_demo) calm idle = (Ok (_, _), _, _))
      by (vm_compute; reflexivity).
    eassert (Hrun : run (IV.Keithley_VOLTAGE_SWEEP iv_demo) calm idle
                    = (_, _, _)) by (vm_compute; reflexivity).
    rewrite Hrun at 1. cbn [fst snd].
    rewrite (proj1 (proj1 completed_sweep_traffic calm 0 1 (1 # 2) (1 # 10)
                      "GPIB0::12::INSTR" idle _ _ _ _ _ _ _ Hacq Hrun)).
    reflexivity.
  - eassert (Hacq : run (PV.acquire pv_demo) no_directory idle
                    = (Ok (_, _), _, _)) by (vm_compute; reflexivity).
    eassert (Hrun : run (PV.Keithley_VOLTAGE_SWEEP pv_demo) no_directory idle
                    = (_, _, _)) by (vm_compute; reflexivity).
    rewrite Hrun at 1. cbn [fst snd].
    rewrite (proj2 (proj2 completed_sweep_traffic no_directory 0 1 (1 # 2)
                      (35 # 100) "GPIB0::16::INSTR" "GPIB0::14::INSTR" 0
                      (1 # 10) idle _ _ _ _ _ _ _ Hacq Hrun)).
    reflexivity.
Defined.

(** ** When something fails after the loop *)



(** X12.  The data file cannot be opened (a missing directory, no write
    permission): the function raises the [OSError] of [open].  By then the
    instrument phase is over and the user has been asked for the file name;
    nothing is written, the success message is not printed, nothing is
    plotted, and the measured data is lost with the function.  First part:
    the single-instrument script; second part: the dual-instrument script. *)
Theorem unwritable_file_loses_the_data :
  (forall en Vmin Vmax step c K s pts d e0 s0 errno,
      run (IV.acquire (Vmin, Vmax, step, c, K)) en s = (Ok (pts, d), e0, s0) ->
      open_reply en = Some errno ->
      run (IV.Keithley_VOLTAGE_SWEEP (Vmin, Vmax, step, c, K)) en s
      = (Raise (OSError errno),
         (e0 ++ [EInput "Enter filename: " (input_reply en);
                 EFileOpen "C:\semspace\Saved GC Data"
                           (input_reply en ++ ".txt")
                           (Raise (OSError errno))])%list,
         s0))
  /\
  (forall en Vmin Vmax step c P R bias cr s pts d e0 s0 errno,
      run (PV.acquire (Vmin, Vmax, step, c, P, R, bias, cr)) en s
        = (Ok (pts, d), e0, s0) ->
      open_reply en = Some errno ->
      run (PV.Keithley_VOLTAGE_SWEEP (Vmin, Vmax, step, c, P, R, bias, cr))
          en s
      = (Raise (OSError errno),
         (e0 ++ [EInput "Enter filename: " (input_reply en);
                 EFileOpen "C:\semspace\Saved GC Data"
                           (input_reply en ++ ".txt")
                           (Raise (OSError errno))])%list,
         s0)).
Proof.
  split.
  - intros en Vmin Vmax step c K s pts d e0 s0 errno Hacq Hopen.
    unfold IV.Keithley_VOLTAGE_SWEEP. rewrite (run_bind_ok _ Hacq).
    unfold IV.save, run, bind, input, with_open. now rewrite Hopen.
  - intros en Vmin Vmax step c P R bias cr s pts d e0 s0 errno Hacq Hopen.
    unfold PV.Keithley_VOLTAGE_SWEEP. rewrite (run_bind_ok _ Hacq).
    unfold PV.save, run, bind, input, with_open. now rewrite Hopen.
Qed.

Lemma unwritable_file_loses_the_data_witness :
  fst (fst (run (IV.Keithley_VOLTAGE_SWEEP iv_demo) no_directory idle))
  = Raise (OSError 2)
  /\ fst (fst (run (PV.Keithley_VOLTAGE_SWEEP pv_demo) no_directory idle))
     = Raise (OSError 2).
Proof.
  split.
  - eassert (Hacq : run (IV.acquire iv_demo) no_directory idle
                    = (Ok (_, _), _, _)) by (vm_compute; reflexivity).
    pose proof (proj1 unwritable_file_loses_the_data no_directory 0 1 (1 # 2)
                  (1 # 10) "GPIB0::12::INSTR" idle _ _ _ _ 2%Z Hacq eq_refl)
      as H.
    unfold instrument in H. unfold iv_demo. now rewrite H.
  - eassert (Hacq : run (PV.acquire pv_demo) no_directory idle
                    = (Ok (_, _), _, _)) by (vm_compute; reflexivity).
    pose proof (proj2 unwritable_file_loses_the_data no_directory 0 1 (1 # 2)
                  (35 # 100) "GPIB0::16::INSTR" "GPIB0::14::INSTR" 0 (1 # 10)
                  idle _ _ _ _ 2%Z Hacq eq_refl) as H.
    unfold instrument in H. unfold pv_demo. now rewrite H.
Defined.

(** ** The precision of the file *)

(** X13.  The columns printed in fixed notation keep the value to half a
    unit of their last decimal place: the text that [f'{x:.6f}'] (column
    [t]) or [f'{x:.2f}'] (columns [V] and [V1], and the voltage of a
    progress line) gives for a number [x] is a numeral, with or without a
    minus sign, that reads back as a number [y] with [|y - x|] at most
    0.0000005, respectively 0.005.  First part: any number of decimal
    places. *)
Theorem fixed_notation_keeps_the_value :
  (forall prec x,
      exists y,
        read_decimal (Py.format_f (S prec) x) = Some y
        /\ Qabs (y - x) * inject_Z (Py.pow10 (S prec)) <= 1 # 2)
  /\ (forall x,
         exists y, read_decimal (Py.format_f 6 x) = Some y
                   /\ Qabs (y - x) <= 5 # 10000000)
  /\ (forall x,
         exists y, read_decimal (Py.format_f 2 x) = Some y
                   /\ Qabs (y - x) <= 5 # 1000).
Proof.
  split; [exact format_f_close |]. split; intros x.
  - destruct (format_f_close 5 x) as (y & Hy & Hclose).
    exists y. split; [exact Hy |].
    change (inject_Z (Py.pow10 6)) with 1000000 in Hclose. lra.
  - destruct (format_f_close 1 x) as (y & Hy & Hclose).
    exists y. split; [exact Hy |].
    change (inject_Z (Py.pow10 2)) with 100 in Hclose. lra.
Qed.

(** X14.  The columns printed in scientific notation keep six significant
    decimals: the text that [f'{x:.6e}'] (columns [I], [P], [I1], [P1] and
    [P2], and the current of a progress line) gives for a number [x] is a
    numeral with a mantissa, the letter e and a signed exponent that reads
    back as a number [y] with [|y - x|] at most 0.0000005 times [|x|]; zero
    reads back as zero.  First part: any number of decimals of the
    mantissa. *)
Theorem scientific_notation_keeps_the_value :
  (forall prec x,
      exists y,
        read_scientific (Py.format_e (S prec) x) = Some y
        /\ Qabs (y - x) * inject_Z (Py.pow10 (S prec)) <= (1 # 2) * Qabs x)
  /\ (forall x,
         exists y, read_scientific (Py.format_e 6 x) = Some y
                   /\ Qabs (y - x) <= (5 # 10000000) * Qabs x).
Proof.
  split; [exact format_e_close |]. intros x.
  destruct (format_e_close 5 x) as (y & Hy & Hclose).
  exists y. split; [exact Hy |].
  change (inject_Z (Py.pow10 6)) with 1000000 in Hclose. lra.
Qed.

(** X15.  Single-instrument script: the data row written for index [i]
    holds the four entries of that index to the precision of its columns.
    Without its final newline the row splits at its tabs into exactly four
    fields; they read back as a time within 0.0000005 s of the recorded
    one, a voltage within 0.005 V, and a current and a power within
    0.0000005 times their size. *)
Theorem IV_rows_read_back :
  forall d i en s line evs s',
    run (IV.data_line d i) en s = (Ok line, evs, s') ->
    exists p q,
      IV.sample_at d (Z.to_nat i) = Some p
      /\ IV_read_row line = Some q
      /\ Qabs (IV.at_t q - IV.at_t p) <= 5 # 10000000
      /\ Qabs (IV.at_V q - IV.at_V p) <= 5 # 1000
      /\ Qabs (IV.at_I q - IV.at_I p) <= (5 # 10000000) * Qabs (IV.at_I p)
      /\ Qabs (IV.at_P q - IV.at_P p) <= (5 # 10000000) * Qabs (IV.at_P p).
Proof.
  intros d i en s line evs s' H. unfold IV.data_line in H.
  split_run H. apply index_ok in Hhead. destruct Hhead as (Hn & _ & ->).
  split_run H. apply index_ok in Hhead. destruct Hhead as (Hn0 & _ & ->).
  split_run H. apply index_ok in Hhead. destruct Hhead as (Hn1 & _ & ->).
  split_run H. apply index_ok in Hhead. destruct Hhead as (Hn2 & _ & ->).
  apply ret_ok in H. destruct H as (Hline & _).
  destruct (format_f_6_close a) as (t' & Ht & Ht').
  destruct (format_f_2_close a0) as (v' & Hv & Hv').
  destruct (format_e_6_close a1) as (i' & Hi & Hi').
  destruct (format_e_6_close a2) as (p' & Hp & Hp').
  exists (IV.mkPoint a a0 a1 a2), (IV.mkPoint t' v' i' p').
  split; [unfold IV.sample_at; now rewrite Hn, Hn0, Hn1, Hn2 |].
  split; [rewrite Hline, IV_read_row_text, Ht, Hv, Hi, Hp; reflexivity |].
  cbn [IV.at_t IV.at_V IV.at_I IV.at_P]. auto.
Qed.

Lemma IV_rows_read_back_witness :
  exists line evs s' p q,
    run (IV.data_line iv_sample 0) calm idle = (Ok line, evs, s')
    /\ IV.sample_at iv_sample 0 = Some p
    /\ IV_read_row line = Some q
    /\ Qabs (IV.at_t q - IV.at_t p) <= 5 # 10000000.
Proof.
  eassert (Hrun : run (IV.data_line iv_sample 0) calm idle = (Ok _, _, _))
    by (vm_compute; reflexivity).
  destruct (IV_rows_read_back _ _ _ _ _ _ _ Hrun)
    as (p & q & Hp & Hq & Ht & _).
  do 5 eexists. split; [exact Hrun |]. split; [exact Hp |].
  split; [exact Hq | exact Ht].
Defined.

(** X16.  Dual-instrument script: the data row written for index [i] holds
    the eight entries of that index to the precision of its columns.
    Without its final newline the row splits at its tabs into exactly eight
    fields; they read back as a time within 0.0000005 s of the recorded
    one, the two voltages within 0.005 V, and the currents and powers
    within 0.0000005 times their size. *)
Theorem PV_rows_read_back :
  forall d i en s line evs s',
    run (PV.data_line d i) en s = (Ok line, evs, s') ->
    exists p q,
      PV.sample_at d (Z.to_nat i) = Some p
      /\ PV_read_row line = Some q
      /\ Qabs (PV.at_t q - PV.at_t p) <= 5 # 10000000
      /\ Qabs (PV.at_V q - PV.at_V p) <= 5 # 1000
      /\ Qabs (PV.at_I q - PV.at_I p) <= (5 # 10000000) * Qabs (PV.at_I p)
      /\ Qabs (PV.at_P q - PV.at_P p) <= (5 # 10000000) * Qabs (PV.at_P p)
      /\ Qabs (PV.at_V1 q - PV.at_V1 p) <= 5 # 1000
      /\ Qabs (PV.at_I1 q - PV.at_I1 p)
         <= (5 # 10000000) * Qabs (PV.at_I1 p)
      /\ Qabs (PV.at_P1 q - PV.at_P1 p)
         <= (5 # 10000000) * Qabs (PV.at_P1 p)
      /\ Qabs (PV.at_P2 q - PV.at_P2 p)
         <= (5 # 10000000) * Qabs (PV.at_P2 p).
Proof.
  intros d i en s line evs s' H. unfold PV.data_line in H.
  split_run H. apply index_ok in Hhead. destruct Hhead as (Hn & _ & ->).
  split_run H. apply index_ok in Hhead. destruct Hhead as (Hn0 & _ & ->).
  split_run H. apply index_ok in Hhead. destruct Hhead as (Hn1 & _ & ->).
  split_run H. apply index_ok in Hhead. destruct Hhead as (Hn2 & _ & ->).
  split_run H. apply index_ok in Hhead. destruct Hhead as (Hn3 & _ & ->).
  split_run H. apply index_ok in Hhead. destruct Hhead as (Hn4 & _ & ->).
  split_run H. apply index_ok in Hhead. destruct Hhead as (Hn5 & _ & ->).
  split_run H. apply index_ok in Hhead. destruct Hhead as (Hn6 & _ & ->).
  apply ret_ok in H. destruct H as (Hline & _).
  destruct (format_f_6_close a) as (t' & Ht & Ht').
  destruct (format_f_2_close a0) as (v' & Hv & Hv').
  destruct (format_e_6_close a1) as (i' & Hi & Hi').
  destruct (format_e_6_close a2) as (p' & Hp & Hp').
  destruct (format_f_2_close a3) as (v1' & Hv1 & Hv1').
  destruct (format_e_6_close a4) as (i1' & Hi1 & Hi1').
  destruct (format_e_6_close a5) as (p1' & Hp1 & Hp1').
  destruct (format_e_6_close a6) as (p2' & Hp2 & Hp2').
  exists (PV.mkPoint a a0 a1 a2 a3 a4 a5 a6),
    (PV.mkPoint t' v' i' p' v1' i1' p1' p2').
  split; [unfold PV.sample_at;
          now rewrite Hn, Hn0, Hn1, Hn2, Hn3, Hn4, Hn5, Hn6 |].
  split; [rewrite Hline, PV_read_row_text, Ht, Hv, Hi, Hp, Hv1, Hi1, Hp1, Hp2;
          reflexivity |].
  cbn [PV.at_t PV.at_V PV.at_I PV.at_P PV.at_V1 PV.at_I1 PV.at_P1 PV.at_P2].
  repeat split; assumption.
Qed.

Lemma PV_rows_read_back_witness :
  exists line evs s' p q,
    run (PV.data_line pv_sample 0) calm idle = (Ok line, evs, s')
    /\ PV.sample_at pv_sample 0 = Some p
    /\ PV_read_row line = Some q
    /\ Qabs (PV.at_V1 q - PV.at_V1 p) <= 5 # 1000.
Proof.
  eassert (Hrun : run (PV.data_line pv_sample 0) calm idle = (Ok _, _, _))
    by (vm_compute; reflexivity).
  destruct (PV_rows_read_back _ _ _ _ _ _ _ Hrun)
    as (p & q & Hp & Hq & _ & _ & _ & _ & Hv1 & _).
  do 5 eexists. split; [exact Hrun |]. split; [exact Hp |].
  split; [exact Hq | exact Hv1].
Defined.

(** ** The scripts from their first line to their last *)

(** X17.  Neither script retries or cleans up after a command that the
    transport refuses: in every run of a whole script, a write or a query
    answered by an exception, be it in an initializer, before the loop, in
    the loop or in the shutdown, is the last thing the script does, and its
    exception is the one the script ends with.  First part: the
    single-instrument script; second part: the dual-instrument script. *)
Theorem a_refused_command_ends_the_script :
  (forall en s r evs s' pre ev post e,
      run IV.main en s = (r, evs, s') ->
      evs = (pre ++ ev :: post)%list -> failed ev e ->
      post = [] /\ r = Raise e)
  /\
  (forall en s r evs s' pre ev post e,
      run PV.main en s = (r, evs, s') ->
      evs = (pre ++ ev :: post)%list -> failed ev e ->
      post = [] /\ r = Raise e).
Proof.
  split; intros en s r evs s' pre ev post e Hrun Hevs Hfail.
  - assert (Hstop : failstop IV.main).
    { unfold IV.main.
      apply failstop_bind; [apply IV_initialize_failstop | intros K].
      apply failstop_bind; [apply IV_sweep_failstop | intros _].
      apply failstop_close. }
    exact (Hstop en s r evs s' Hrun pre ev post e Hevs Hfail).
  - assert (Hstop : failstop PV.main).
    { unfold PV.main.
      apply failstop_bind; [apply PV_initialize_failstop | intros P].
      apply failstop_bind; [apply PV_initialize_failstop | intros R].
      apply failstop_bind; [apply PV_sweep_failstop | intros _].
      apply failstop_bind; [apply failstop_close | intros _].
      apply failstop_close. }
    exact (Hstop en s r evs s' Hrun pre ev post e Hevs Hfail).
Qed.

Lemma a_refused_command_ends_the_script_witness :
  fst (fst (run IV.main (timeout_at 3) idle))
  = Raise (VisaIOError (-1073807339))
  /\ fst (fst (run PV.main (timeout_at 10) idle))
     = Raise (VisaIOError (-1073807339)).
Proof.
  split.
  - eassert (Hrun : run IV.main (timeout_at 3) idle = (_, _, _))
      by (vm_compute; reflexivity).
    rewrite Hrun. cbn [fst].
    match type of Hrun with
    | _ = (_, ?evs, _) =>
        assert (He : evs = (removelast evs ++ last evs EFileClose :: [])%list)
          by (vm_compute; reflexivity);
        assert (Hf : failed (last evs EFileClose)
                            (VisaIOError (-1073807339)))
          by (vm_compute; reflexivity)
    end.
    exact (proj2 (proj1 a_refused_command_ends_the_script _ _ _ _ _ _ _ _ _
                    Hrun He Hf)).
  - eassert (Hrun : run PV.main (timeout_at 10) idle = (_, _, _))
      by (vm_compute; reflexivity).
    rewrite Hrun. cbn [fst].
    match type of Hrun with
    | _ = (_, ?evs, _) =>
        assert (He : evs = (removelast evs ++ last evs EFileClose :: [])%list)
          by (vm_compute; reflexivity);
        assert (Hf : failed (last evs EFileClose)
                            (VisaIOError (-1073807339)))
          by (vm_compute; reflexivity)
    end.
    exact (proj2 (proj2 a_refused_command_ends_the_script _ _ _ _ _ _ _ _ _
                    Hrun He Hf)).
Defined.

(** X18.  A script closes its instrument handles only when everything before
    succeeded.  When a run of the whole script ends normally, closing the
    handle (the two handles, the sweeping instrument first) is the last
    thing it did, and nothing was closed before; when it ends with an
    exception, whatever its kind and wherever it was raised, no handle is
    closed.  First part: the single-instrument script; second part: the
    dual-instrument script. *)
Theorem handles_are_closed_only_after_success :
  (forall en s r evs s',
      run IV.main en s = (r, evs, s') ->
      (r = Ok tt ->
       exists pre, evs = (pre ++ [EClose "GPIB0::12::INSTR"])%list
                   /\ closed pre = [])
      /\ (forall e, r = Raise e -> closed evs = []))
  /\
  (forall en s r evs s',
      run PV.main en s = (r, evs, s') ->
      (r = Ok tt ->
       exists pre, evs = (pre ++ [EClose "GPIB0::16::INSTR";
                                  EClose "GPIB0::14::INSTR"])%list
                   /\ closed pre = [])
      /\ (forall e, r = Raise e -> closed evs = [])).
Proof.
  split; intros en s r evs s' H.
  - unfold IV.main in H. split_run H.
    + pose proof (closed_none _ (IV_initialize_never_closes _ _ _ _ _ Hhead))
        as Hc1.
      destruct (IV_initialize_Keithley_ok Hhead) as [-> _].
      split_run H.
      * pose proof (closed_none _ (IV_sweep_never_closes _ _ _ _ _ _ Hhead0))
          as Hc2.
        prim H. split; [intros _ | discriminate].
        eexists. split; [rewrite app_assoc; reflexivity |].
        now rewrite closed_app, Hc1, Hc2.
      * pose proof (closed_none _ (IV_sweep_never_closes _ _ _ _ _ _ Hhead0))
          as Hc2.
        split; [discriminate | intros _ _].
        now rewrite closed_app, Hc1, Hc2.
    + split; [discriminate | intros _ _].
      exact (closed_none _ (IV_initialize_never_closes _ _ _ _ _ Hhead)).
  - unfold PV.main in H. split_run H.
    + pose proof (closed_none _ (PV_initialize_never_closes _ _ _ _ _ _ _ Hhead))
        as Hc1.
      destruct (PV_initialize_Keithley_ok Hhead) as [-> _].
      split_run H.
      * pose proof (closed_none _
                      (PV_initialize_never_closes _ _ _ _ _ _ _ Hhead0))
          as Hc2.
        destruct (PV_initialize_Keithley_ok Hhead0) as [-> _].
        split_run H.
        -- pose proof (closed_none _
                         (PV_sweep_never_closes _ _ _ _ _ _ Hhead1)) as Hc3.
           split_run H; [| unfold run, close in *; discriminate].
           prim Hhead2. prim H.
           split; [intros _ | discriminate].
           eexists. split; [simpl; rewrite !app_assoc; reflexivity |].
           now rewrite !closed_app, Hc1, Hc2, Hc3.
        -- pose proof (closed_none _
                         (PV_sweep_never_closes _ _ _ _ _ _ Hhead1)) as Hc3.
           split; [discriminate | intros _ _].
           now rewrite !closed_app, Hc1, Hc2, Hc3.
      * pose proof (closed_none _
                      (PV_initialize_never_closes _ _ _ _ _ _ _ Hhead0))
          as Hc2.
        split; [discriminate | intros _ _].
        now rewrite closed_app, Hc1, Hc2.
    + split; [discriminate | intros _ _].
      exact (closed_none _ (PV_initialize_never_closes _ _ _ _ _ _ _ Hhead)).
Qed.

Lemma handles_are_closed_only_after_success_witness :
  (exists pre,
      snd (fst (run IV.main calm idle))
      = (pre ++ [EClose "GPIB0::12::INSTR"])%list
      /\ closed pre = [])
  /\ closed (snd (fst (run PV.main unplugged idle))) = [].
Proof.
  split.
  - eassert (Hrun : run IV.main calm idle = (Ok tt, _, _))
      by (vm_compute; reflexivity).
    rewrite Hrun.
    exact (proj1 (proj1 handles_are_closed_only_after_success _ _ _ _ _ Hrun)
                 eq_refl).
  - eassert (Hrun : run PV.main unplugged idle = (Raise _, _, _))
      by (vm_compute; reflexivity).
    rewrite Hrun.
    exact (proj2 (proj2 handles_are_closed_only_after_success _ _ _ _ _ Hrun)
                 _ eq_refl).
Defined.

(** X19.  In the dual-instrument script as a whole, the compliance of each
    instrument is the one configured for it at the foot of the script: in
    every run, every [:SENS:CURR:PROT] command is a formatted one that
    carries [compliance_current] when it is written to the sweeping
    instrument and [compliance_read] when it is written to the second one
    (which receives it from its initializer and again from the sweep); and
    a run that ends normally has had both accepted. *)
Theorem PV_compliance_is_the_configured_one :
  forall en s r evs s',
    run PV.main en s = (r, evs, s') ->
    Forall (compliance_as_configured "GPIB0::16::INSTR" "GPIB0::14::INSTR"
                                     PV.compliance_current PV.compliance_read)
           evs
    /\ (r = Ok tt ->
        In (EWrite "GPIB0::16::INSTR"
                   (FString ":SENS:CURR:PROT " PV.compliance_current) (Ok tt))
           evs
        /\ In (EWrite "GPIB0::14::INSTR"
                      (FString ":SENS:CURR:PROT " PV.compliance_read) (Ok tt))
              evs).
Proof.
  intros en s r evs s' H. split.
  - revert H. unfold PV.main.
    apply emits_bind_post with (Post := fun k => k = "GPIB0::16::INSTR").
    + apply PV_initialize_compliance. left. split; reflexivity.
    + intros en' s0 a evs0 s1 H. now destruct (PV_initialize_Keithley_ok H).
    + intros P ->.
      apply emits_bind_post with (Post := fun k => k = "GPIB0::14::INSTR").
      * apply PV_initialize_compliance. right. split; reflexivity.
      * intros en' s0 a evs0 s1 H. now destruct (PV_initialize_Keithley_ok H).
      * intros R ->. apply emits_bind; [apply PV_sweep_compliance |].
        intros _. emits_steps; exact I.
  - intros ->. unfold PV.main in H. split_run H.
    destruct (PV_initialize_Keithley_ok Hhead) as (-> & idn & ->).
    split_run H.
    destruct (PV_initialize_Keithley_ok Hhead0) as (-> & idn' & ->).
    split.
    + apply in_or_app. left. simpl. tauto.
    + apply in_or_app. right. apply in_or_app. left. simpl. tauto.
Qed.

Lemma PV_compliance_is_the_configured_one_witness :
  Forall (compliance_as_configured "GPIB0::16::INSTR" "GPIB0::14::INSTR"
                                   (35 # 100) (1 # 10))
         (snd (fst (run PV.main calm idle)))
  /\ In (EWrite "GPIB0::14::INSTR" (FString ":SENS:CURR:PROT " (1 # 10))
                (Ok tt))
        (snd (fst (run PV.main calm idle))).
Proof.
  eassert (Hrun : run PV.main calm idle = (Ok tt, _, _))
    by (vm_compute; reflexivity).
  rewrite Hrun.
  destruct (PV_compliance_is_the_configured_one _ _ _ _ _ Hrun) as [Hall Hin].
  split; [exact Hall | exact (proj2 (Hin eq_refl))].
Defined.
